(** * The post aggregator: flat-file store and aggregation cycle

    A shallow embedding of the [PostsDatabase] class (the JSON-backed
    store behind [require('./db')]), of the aggregation functions of
    [claude-reddit-aggregator/server.js] (the token cache, the subreddit
    fetch, the Hacker News, GitHub and Dev.to adapters, the cycle) and of
    the connection handler of [RemoteAccess/terminal/server.js], followed
    by the properties proved about them.

    Conventions of the embedding.
    - A JavaScript string is a [string], one character per code unit,
      for code units below 256; [toLowerCase] is the case mapping of
      these code units (the letters of ASCII and of Latin-1).  A
      letter beyond ASCII is written by its code, É as
      [Ascii.ascii_of_nat 201].  The one character of the program's
      literals from 256 on, the dash of some titles, stands as the bytes
      of its UTF-8 encoding, which are no letters.
    - Integral JavaScript numbers are [Z].  The one place where the program
      can leave the integers (a division by a zero page size) is modelled
      by the type [number].
    - A date string is modelled by the instant it denotes, in milliseconds
      since the epoch, or by [InvalidDate] when [new Date(s)] is an invalid
      date.
    - The backing file holds the serialised collection; the model keeps
      the parsed value ([JSON.parse (JSON.stringify posts) = posts]).
    - Clock readings and random numbers are inputs: every operation takes
      the readings it makes as an argument.  So are the time zone of the
      host, which [setDate] works in, and the number of arguments the
      engine accepts in a call, which [Math.max(...array)] runs into.
    - Console and log-file output is not part of the modelled state. *)

From stdpp Require Import base strings list gmap sorting pretty.
From Stdlib Require Import ZArith Lia Ascii.

#[local] Set Warnings "-clear-no-such-hyp".

Open Scope Z_scope.
Open Scope string_scope.
Open Scope list_scope.

(** ** JavaScript values *)

(** [s.toLowerCase()].  Among the code units below 256 the upper-case
    letters are A to Z (65 to 90), À to Ö (192 to 214) and Ø to Þ (216
    to 222); each is 32 below its lower-case letter.  No other code unit
    below 256 is changed, and none is mapped out of that range. *)
Definition lower_unit (c : Ascii.ascii) : Ascii.ascii :=
  let n := Ascii.nat_of_ascii c in
  if ((65 <=? n)%nat && (n <=? 90)%nat
      || (192 <=? n)%nat && (n <=? 214)%nat
      || (216 <=? n)%nat && (n <=? 222)%nat)%bool
  then Ascii.ascii_of_nat (n + 32)
  else c.

Fixpoint toLowerCase (s : string) : string :=
  match s with
  | EmptyString => EmptyString
  | String c t => String (lower_unit c) (toLowerCase t)
  end.

(** [s.includes(sub)] *)
Fixpoint includes (s sub : string) : bool :=
  String.prefix sub s ||
  match s with
  | EmptyString => false
  | String _ t => includes t sub
  end.

(** [s.substring(0, n)] for a non-negative [n] *)
Definition substring0 (n : nat) (s : string) : string :=
  String.substring 0 n s.

(** [a || b] on strings and on numbers: the empty string and zero are
    falsy. *)
Definition or_str (a b : string) : string :=
  if bool_decide (a = "") then b else a.

Definition or_num (a b : Z) : Z :=
  if bool_decide (a = 0) then b else a.

(** [n.toString(36)] for an integer [n] *)
Definition digit36 (d : Z) : Ascii.ascii :=
  default "0"%char
    (String.get (Z.to_nat d) "0123456789abcdefghijklmnopqrstuvwxyz").

Fixpoint digits36 (fuel : nat) (n : Z) (acc : string) : string :=
  match fuel with
  | O => acc
  | S fuel' =>
      let acc' := String (digit36 (n mod 36)) acc in
      if bool_decide (n / 36 = 0) then acc' else digits36 fuel' (n / 36) acc'
  end.

Definition toString36 (n : Z) : string :=
  if bool_decide (n < 0)
  then "-" +:+ digits36 (S (Z.to_nat (Z.log2 (- n)))) (- n) ""
  else digits36 (S (Z.to_nat (Z.log2 n))) n "".

(** The value of a date string. [ISO ms] is what [toISOString] prints for
    the instant [ms]; [new Date(s).getTime()] is NaN on [InvalidDate]. *)
Inductive DateString : Type :=
  | ISO (ms : Z)
  | InvalidDate.

#[global] Instance DateString_eq_dec : EqDecision DateString.
Proof. solve_decision. Defined.

Definition toISOString (ms : Z) : DateString := ISO ms.

(** [new Date(a) >= cutoff]: false when the left side is invalid. *)
Definition date_ge (d : DateString) (cutoff : Z) : bool :=
  match d with
  | ISO ms => bool_decide (cutoff <= ms)
  | InvalidDate => false
  end.

(** [arr.findIndex(f)]: the first index whose element satisfies [f],
    or -1. *)
Fixpoint findIndex {A : Type} (f : A -> bool) (l : list A) : Z :=
  match l with
  | [] => -1
  | x :: t =>
      if f x then 0
      else let i := findIndex f t in
           if bool_decide (i < 0) then -1 else i + 1
  end.

(** ** Items and stored records *)

(** An item as an adapter returns it. *)
Module Post.
Record t : Type := mk {
  reddit_id : string;
  title : string;
  content : string;
  author : string;
  subreddit : string;
  upvotes : Z;
  num_comments : Z;
  created_at : DateString;
  url : string;
  source : string
}.
End Post.

(** A record of the store's collection. *)
Module Row.
Record t : Type := mk {
  id : string;
  reddit_id : string;
  title : string;
  content : string;
  author : string;
  subreddit : string;
  upvotes : Z;
  num_comments : Z;
  created_at : DateString;
  fetched_at : DateString;
  url : string
}.
End Row.

#[global] Instance Row_eq_dec : EqDecision Row.t.
Proof. solve_decision. Defined.

#[global] Instance Post_eq_dec : EqDecision Post.t.
Proof. solve_decision. Defined.

(** ** The file system *)

(** What a file holds: a serialised collection, or text that
    [JSON.parse] rejects. *)
Inductive FileContent : Type :=
  | Json (rows : list Row.t)
  | Garbage (raw : string).

(** [files] maps a path to its content; a write to a path in [locked]
    throws. *)
Record FileSystem : Type := mkFS {
  files : gmap string FileContent;
  locked : gset string
}.

Definition existsSync (fs : FileSystem) (path : string) : bool :=
  bool_decide (is_Some (files fs !! path)).

(** [fs.writeFileSync]: [None] stands for a thrown error. *)
Definition writeFileSync (fs : FileSystem) (path : string) (c : FileContent)
  : option FileSystem :=
  if bool_decide (path ∈ locked fs) then None
  else Some (mkFS (<[path := c]> (files fs)) (locked fs)).

(** [JSON.parse(fs.readFileSync(path))]: [None] stands for a thrown
    error (no such file, or unparseable text). *)
Definition readJson (fs : FileSystem) (path : string) : option (list Row.t) :=
  match files fs !! path with
  | Some (Json rows) => Some rows
  | Some (Garbage _) => None
  | None => None
  end.

(** ** PostsDatabase *)

(** The store object together with the file system it persists to. *)
Record PostsDatabase : Type := mkDB {
  dbPath : string;
  posts : list Row.t;
  disk : FileSystem
}.

(** The readings one [upsertPost] call takes from its environment:
    [new Date()], [Date.now()] and
    [Math.random().toString(36).substr(2)]. *)
Record Clock : Type := mkClock {
  new_Date : Z;
  Date_now : Z;
  Math_random : string
}.

(** [save]: a failed write is caught and logged, the object is left as
    it is. *)
Definition save (db : PostsDatabase) : PostsDatabase :=
  match writeFileSync (disk db) (dbPath db) (Json (posts db)) with
  | Some fs' => mkDB (dbPath db) (posts db) fs'
  | None => db
  end.

Definition same_id (post : Post.t) (p : Row.t) : bool :=
  bool_decide (Row.reddit_id p = Post.reddit_id post).

Definition upsertPost (c : Clock) (post : Post.t) (db : PostsDatabase)
  : Row.t * PostsDatabase :=
  let index := findIndex (same_id post) (posts db) in
  let now := toISOString (new_Date c) in
  let postData :=
    {| Row.id :=
         if bool_decide (0 <= index)
         then default "" (Row.id <$> posts db !! Z.to_nat index)
         else toString36 (Date_now c) +:+ Math_random c;
       Row.reddit_id := Post.reddit_id post;
       Row.title := Post.title post;
       Row.content := or_str (Post.content post) "";
       Row.author := Post.author post;
       Row.subreddit := Post.subreddit post;
       Row.upvotes := Post.upvotes post;
       Row.num_comments := or_num (Post.num_comments post) 0;
       Row.created_at := Post.created_at post;
       Row.fetched_at := now;
       Row.url := Post.url post |} in
  let posts' :=
    if bool_decide (0 <= index)
    then <[Z.to_nat index := postData]> (posts db)
    else posts db ++ [postData] in
  (postData, save (mkDB (dbPath db) posts' (disk db))).

(** [upsertPosts]: the [i]-th item of the batch is upserted with the
    readings [clk i]. *)
Fixpoint upsertPosts (clk : nat -> Clock) (batch : list Post.t)
  (db : PostsDatabase) : list Row.t * PostsDatabase :=
  match batch with
  | [] => ([], db)
  | post :: rest =>
      let '(r, db1) := upsertPost (clk O) post db in
      let '(results, db2) := upsertPosts (fun i => clk (S i)) rest db1 in
      (r :: results, db2)
  end.

(** [getPost]: [this.posts.find(p => p.reddit_id === redditId)] *)
Definition getPost (redditId : string) (db : PostsDatabase) : option Row.t :=
  List.find (fun p => bool_decide (Row.reddit_id p = redditId)) (posts db).

(** The options of [getPosts]; [defaults] holds the default values of
    the destructuring pattern. *)
Module Options.
Record t : Type := mk {
  search : string;
  subreddit : string;
  sortBy : string;
  sortOrder : string;
  page : Z;
  limit : Z;
  minUpvotes : Z;
  daysBack : Z
}.
Definition defaults : t :=
  {| search := ""; subreddit := ""; sortBy := "created_at";
     sortOrder := "desc"; page := 1; limit := 20; minUpvotes := 0;
     daysBack := 30 |}.
End Options.

(** A JavaScript number that may have left the integers. *)
Inductive number : Type :=
  | Num (z : Z)
  | Infinity
  | NaN.

(** [Math.ceil(total / limit)] for a length [total]. *)
Definition ceil_div (total limit : Z) : number :=
  if bool_decide (limit = 0)
  then (if bool_decide (total = 0) then NaN else Infinity)
  else Num (- ((- total) / limit)).

(** [page < n] *)
Definition lt_number (page : Z) (n : number) : bool :=
  match n with
  | Num z => bool_decide (page < z)
  | Infinity => true
  | NaN => false
  end.

(** [arr.slice(start, end)], negative indices counting from the end. *)
Definition relative_index (len i : Z) : Z :=
  if bool_decide (i < 0) then Z.max (len + i) 0 else Z.min i len.

Definition slice {A : Type} (l : list A) (start final : Z) : list A :=
  let len := Z.of_nat (length l) in
  let k := relative_index len start in
  let e := relative_index len final in
  take (Z.to_nat (Z.max (e - k) 0)) (drop (Z.to_nat k) l).

(** [arr.sort(cmp)]: the sort is stable; [cmp a b <= 0] keeps [a]
    before [b]. *)
Fixpoint insert_by {A : Type} (cmp : A -> A -> Z) (x : A) (l : list A)
  : list A :=
  match l with
  | [] => [x]
  | y :: t =>
      if bool_decide (cmp x y <= 0) then x :: y :: t
      else y :: insert_by cmp x t
  end.

Definition sort_by {A : Type} (cmp : A -> A -> Z) (l : list A) : list A :=
  foldr (insert_by cmp) [] l.

Definition msPerDay : Z := 24 * 60 * 60 * 1000.

(** The time zone of the host.  [LocalTZA tz t isUTC] is the abstract
    operation LocalTZA of ECMAScript: the offset of local time from UTC,
    in milliseconds, at the instant [t] when [isUTC] is set, and for the
    local time value [t] otherwise (a local time that a clock change
    skips or repeats is read with the offset before the change). *)
Record TimeZone : Type := mkTimeZone {
  LocalTZA : Z -> bool -> Z
}.

(** The abstract operations LocalTime and UTC. *)
Definition LocalTime (tz : TimeZone) (t : Z) : Z := t + LocalTZA tz t true.

Definition UTC (tz : TimeZone) (t : Z) : Z := t - LocalTZA tz t false.

(** [cutoffDate = new Date(); cutoffDate.setDate(cutoffDate.getDate() -
    daysBack)].  [setDate] works on the local time: it keeps the time
    within the day and moves the day number, [MakeDay] being linear in
    the day of the month, and converts the result back with [UTC]. *)
Definition cutoffDate (tz : TimeZone) (now daysBack : Z) : Z :=
  UTC tz (LocalTime tz now - daysBack * msPerDay).

(** [new Date(s).getTime()]; the rows that reach the sort have passed the
    date filter, so the value at [InvalidDate] is never compared. *)
Definition getTime (d : DateString) : Z :=
  match d with
  | ISO ms => ms
  | InvalidDate => 0
  end.

Definition sort_key (sortBy : string) (p : Row.t) : Z :=
  if bool_decide (sortBy = "upvotes") then Row.upvotes p
  else if bool_decide (sortBy = "num_comments") then Row.num_comments p
  else getTime (Row.created_at p).

Definition compare_rows (sortBy sortOrder : string) (a b : Row.t) : Z :=
  let valA := sort_key sortBy a in
  let valB := sort_key sortBy b in
  if bool_decide (sortOrder = "desc") then valB - valA else valA - valB.

Definition in_window (cutoff : Z) (p : Row.t) : bool :=
  date_ge (Row.created_at p) cutoff.

Record Pagination : Type := mkPagination {
  pg_page : Z;
  pg_limit : Z;
  total : Z;
  totalPages : number;
  hasNext : bool;
  hasPrev : bool
}.

Record PostsPage : Type := mkPage {
  page_posts : list Row.t;
  pagination : Pagination
}.

(** The collection after the four filters and the sort of [getPosts]. *)
Definition filtered_posts (tz : TimeZone) (now : Z) (o : Options.t)
  (db : PostsDatabase) : list Row.t :=
  let filtered := posts db in
  let cutoff := cutoffDate tz now (Options.daysBack o) in
  let filtered := List.filter (in_window cutoff) filtered in
  let filtered :=
    if bool_decide (0 < Options.minUpvotes o)
    then List.filter
           (fun p => bool_decide (Options.minUpvotes o <= Row.upvotes p))
           filtered
    else filtered in
  let filtered :=
    if bool_decide (Options.subreddit o <> "")
    then List.filter
           (fun p => includes (toLowerCase (Row.subreddit p))
                       (toLowerCase (Options.subreddit o)))
           filtered
    else filtered in
  let filtered :=
    if bool_decide (Options.search o <> "")
    then let searchLower := toLowerCase (Options.search o) in
         List.filter
           (fun p =>
              includes (toLowerCase (Row.title p)) searchLower
              || includes (toLowerCase (Row.author p)) searchLower
              || (negb (bool_decide (Row.content p = ""))
                  && includes (toLowerCase (Row.content p)) searchLower))
           filtered
    else filtered in
  sort_by (compare_rows (Options.sortBy o) (Options.sortOrder o)) filtered.

(** [getPosts(options)], the clock reading [now] being [new Date()] and
    [tz] the time zone of the host. *)
Definition getPosts (tz : TimeZone) (now : Z) (o : Options.t)
  (db : PostsDatabase) : PostsPage :=
  let filtered := filtered_posts tz now o db in
  let page := Options.page o in
  let limit := Options.limit o in
  let total := Z.of_nat (length filtered) in
  let totalPages := ceil_div total limit in
  let offset := (page - 1) * limit in
  let paginated := slice filtered offset (offset + limit) in
  {| page_posts := paginated;
     pagination :=
       {| pg_page := page;
          pg_limit := limit;
          total := total;
          totalPages := totalPages;
          hasNext := lt_number page totalPages;
          hasPrev := bool_decide (1 < page) |} |}.

(** [deleteOldPosts(daysBack)]: returns the number of deleted rows. *)
Definition deleteOldPosts (tz : TimeZone) (now : Z) (daysBack : Z)
  (db : PostsDatabase) : Z * PostsDatabase :=
  let cutoff := cutoffDate tz now daysBack in
  let before := Z.of_nat (length (posts db)) in
  let db1 :=
    mkDB (dbPath db) (List.filter (in_window cutoff) (posts db)) (disk db) in
  let deleted := before - Z.of_nat (length (posts db1)) in
  if bool_decide (0 < deleted) then (deleted, save db1) else (deleted, db1).

(** What the [try] block of [restore] can throw. *)
Inductive Thrown : Type :=
  | Error (message : string)
  | SyntaxError.

(** The [try] block of [restore]: the collection is assigned only after
    the file was read and parsed. *)
Definition restore_try (backupFile : string) (db : PostsDatabase)
  : Thrown + PostsDatabase :=
  if negb (existsSync (disk db) backupFile)
  then inl (Error ("Backup file not found: " +:+ backupFile))
  else match readJson (disk db) backupFile with
       | None => inl SyntaxError
       | Some rows => inr (save (mkDB (dbPath db) rows (disk db)))
       end.

(** [restore(backupFile)]: the [catch] branch logs the error and
    returns [false]. *)
Definition restore (backupFile : string) (db : PostsDatabase)
  : bool * PostsDatabase :=
  match restore_try backupFile db with
  | inr db' => (true, db')
  | inl _ => (false, db)
  end.

(** ** The aggregator *)

(** [child.data] of a Reddit listing. *)
Module Child.
Record t : Type := mk {
  id : string;
  title : string;
  selftext : string;
  author : string;
  subreddit : string;
  score : Z;
  num_comments : Z;
  created_utc : Z;
  permalink : string
}.
End Child.

Definition ALL_SUBREDDITS : list string :=
  [ "ClaudeAI"; "claude"; "claudedev"; "AnthropicAI";
    "ClaudeCode"; "AICoding"; "vibecoding"; "cursor_ai"; "AIdev";
    "OpenAI"; "MachineLearning"; "LocalLLaMA"; "artificial"; "singularity";
    "ChatGPT"; "Bard"; "perplexity_ai"; "aipromptprogramming";
    "AIAgents"; "PromptEngineering";
    "discordapp" ].

Definition ALL_KEYWORDS : list string :=
  [ "claude"; "claude code"; "anthropic";
    "openclaw"; "openclaw.ai"; "clawhub";
    "moltbot"; "molt bot"; "moltbook";
    "clawdbot"; "clawd bot"; "clawd";
    "ai coding"; "ai assistant"; "ai agent"; "mcp server" ].

Definition DEDICATED_SUBS : gset string :=
  list_to_set
    [ "claude"; "claudeai"; "claudedev"; "anthropicai"; "claudecode" ].

(** [keywords.some(kw => titleLower.includes(kw.toLowerCase()) ||
    bodyLower.includes(kw.toLowerCase()))] *)
Definition hasKeyword (keywords : list string) (post : Child.t) : bool :=
  let titleLower := toLowerCase (Child.title post) in
  let bodyLower := toLowerCase (or_str (Child.selftext post) "") in
  existsb
    (fun kw => includes titleLower (toLowerCase kw)
               || includes bodyLower (toLowerCase kw))
    keywords.

(** The callback of [posts.filter] in [fetchSubredditPosts], [now]
    being [Date.now()]. *)
Definition keepPost (now : Z) (subreddit : string) (post : Child.t) : bool :=
  let thirtyDaysAgo := now - 30 * 24 * 60 * 60 * 1000 in
  let postTime := Child.created_utc post * 1000 in
  if bool_decide (postTime < thirtyDaysAgo) then false
  else
    let kw := hasKeyword ALL_KEYWORDS post in
    if bool_decide (toLowerCase subreddit ∈ DEDICATED_SUBS) then true
    else kw.

(** The callback of [filteredPosts.map]. *)
Definition toItem (post : Child.t) : Post.t :=
  {| Post.reddit_id := Child.id post;
     Post.title := Child.title post;
     Post.content :=
       if bool_decide (Child.selftext post = "") then ""
       else substring0 1000 (Child.selftext post);
     Post.author := Child.author post;
     Post.subreddit := Child.subreddit post;
     Post.upvotes := Child.score post;
     Post.num_comments := Child.num_comments post;
     Post.created_at := toISOString (Child.created_utc post * 1000);
     Post.url := "https://reddit.com" +:+ Child.permalink post;
     Post.source := "reddit" |}.

(** What one target's fetch does to the outside: HTTP requests and
    waits, in order. *)
Inductive Effect : Type :=
  | Request (attempt : Z)
  | Wait (ms : Z).

#[global] Instance Effect_eq_dec : EqDecision Effect.
Proof. solve_decision. Defined.

(** The remote side of one subreddit: [response attempt] is the listing
    the [attempt]-th request yields, [None] when the [try] block throws
    (transport error, time-out, unexpected shape); [clock attempt] is
    [Date.now()] when that response is filtered. *)
Record Remote : Type := mkRemote {
  response : Z -> option (list Child.t);
  clock : Z -> Z
}.

(** The [for] loop of [fetchSubredditPosts], entered with the loop
    variable at [attempt]; [fuel] bounds the number of iterations and is
    never used up when it is at least [retries - attempt + 1]. *)
Fixpoint attempts (fuel : nat) (attempt retries : Z) (r : Remote)
  (subreddit : string) : list Post.t * list Effect :=
  match fuel with
  | O => ([], [])
  | S fuel' =>
      if bool_decide (attempt <= retries)
      then
        match response r attempt with
        | Some listing =>
            let filteredPosts :=
              List.filter (keepPost (clock r attempt) subreddit) listing in
            (List.map toItem filteredPosts, [Request attempt])
        | None =>
            let delay := 3 ^ attempt * 1000 in
            if bool_decide (attempt < retries)
            then
              let '(items, effects) :=
                attempts fuel' (attempt + 1) retries r subreddit in
              (items, Request attempt :: Wait delay :: effects)
            else ([], [Request attempt])
        end
      else ([], [])
  end.

Definition fetchSubredditPosts (r : Remote) (subreddit : string)
  (retries : Z) : list Post.t * list Effect :=
  attempts (Z.to_nat retries) 1 retries r subreddit.

(** [getCuratedResources()]: the [i]-th entry reads the clock as
    [now i]. *)
Definition curated (reddit_id title content author subreddit : string)
  (upvotes : Z) (now : Z) (url source : string) : Post.t :=
  {| Post.reddit_id := reddit_id; Post.title := title;
     Post.content := content; Post.author := author;
     Post.subreddit := subreddit; Post.upvotes := upvotes;
     Post.num_comments := 0; Post.created_at := toISOString now;
     Post.url := url; Post.source := source |}.

Definition getCuratedResources (now : nat -> Z) : list Post.t :=
  [ curated "oc_site" "[OpenClaw] Official Website – openclaw.ai"
      "OpenClaw is a personal AI assistant platform running Claude at home. Supports Telegram, WhatsApp, Discord and more. Skill system, marathon mode, local extensions."
      "openclaw" "OpenClaw" 9999 (now 0%nat) "https://openclaw.ai" "openclaw";
    curated "oc_docs" "[OpenClaw] Documentation & Guides"
      "Complete OpenClaw docs: setup, skills, configuration, marathon mode, Android control, Telegram integration, and more."
      "openclaw" "OpenClaw" 9998 (now 1%nat) "https://docs.openclaw.ai" "openclaw";
    curated "oc_clawhub" "[ClawHub] OpenClaw Skills Marketplace"
      "ClawHub is the skills/plugin marketplace for OpenClaw. Find hundreds of skills: academic research, code debugging, stock prices, and more."
      "openclaw" "ClawHub" 9997 (now 2%nat) "https://clawhub.ai" "openclaw";
    curated "oc_discord" "[OpenClaw] Community Discord Server"
      "Join the OpenClaw community Discord to get help, share skills, discuss features, and connect with other users."
      "openclaw" "OpenClaw" 9996 (now 3%nat) "https://discord.com/invite/clawd" "openclaw";
    curated "moltbot_site" "[MoltBot] Official MoltBook – AI Discord Bot"
      "MoltBot is an AI-powered Discord bot built on Claude. Create, customize, and deploy Claude-based bots in your Discord server."
      "moltbot" "MoltBot" 9995 (now 4%nat) "https://moltbook.com" "moltbot";
    curated "clawd_site" "[ClawdBot] Claude-powered Telegram & WhatsApp Bot"
      "ClawdBot is the Telegram/WhatsApp interface for OpenClaw. Run Claude AI directly in messaging apps with full skill support and real-time notifications."
      "openclaw" "ClawdBot" 9994 (now 5%nat) "https://openclaw.ai" "clawdbot";
    curated "cc_docs" "[Claude Code] Official Claude Code Documentation"
      "Claude Code is Anthropic's official CLI for Claude. Docs: installation, CLAUDE.md optimisation, tool use, memory management, best practices for AI-assisted development."
      "anthropic" "ClaudeCode" 9993 (now 6%nat) "https://docs.anthropic.com/en/docs/claude-code" "anthropic";
    curated "api_docs" "[Anthropic] Claude API Documentation"
      "Official Anthropic API: all Claude models, messages API, tool use, vision, streaming, system prompts, rate limits, Python and TypeScript SDKs."
      "anthropic" "AnthropicBlog" 9992 (now 7%nat) "https://docs.anthropic.com" "anthropic" ].

(** The deduplicating [filter] of [fetchAllPosts]: [seen] is the set of
    ids met so far. *)
Fixpoint dedupe (seen : gset string) (allPosts : list Post.t) : list Post.t :=
  match allPosts with
  | [] => []
  | p :: rest =>
      if bool_decide (Post.reddit_id p ∈ seen) then dedupe seen rest
      else p :: dedupe ({[Post.reddit_id p]} ∪ seen) rest
  end.

(** What the five adapters return in one cycle.  An adapter catches its
    own failures: a failed fetch shows as an empty list (or, for the
    adapters that loop over queries, as the items of the queries that
    went through). *)
Record Sources : Type := mkSources {
  hn : list Post.t;
  gh : list Post.t;
  devto : list Post.t;
  blog : list Post.t;
  redditResults : list (list Post.t)
}.

(** [fetchAllPosts] from the point where [Promise.all] has settled:
    concatenation, deduplication and the guarded bulk upsert. *)
Definition merge_sources (curated : list Post.t) (s : Sources) : list Post.t :=
  curated ++ blog s ++ hn s ++ gh s ++ devto s ++ concat (redditResults s).

Definition store_cycle (clk : nat -> Clock) (curated : list Post.t)
  (s : Sources) (db : PostsDatabase) : list Post.t * PostsDatabase :=
  let allPosts := merge_sources curated s in
  let uniquePosts := dedupe ∅ allPosts in
  if bool_decide (0 < Z.of_nat (length uniquePosts))
  then (uniquePosts, (upsertPosts clk uniquePosts db).2)
  else (uniquePosts, db).

(** The Reddit promises: one [fetchSubredditPosts] per subreddit, with
    the default of three retries, gathered in the order of
    [ALL_SUBREDDITS]. *)
Definition fetchReddit (remote : string -> Remote) : list (list Post.t) :=
  List.map (fun sub => (fetchSubredditPosts (remote sub) sub 3).1)
    ALL_SUBREDDITS.

(** [fetchAllPosts()]: [hn], [gh], [devto] and [blog] are what the four
    other adapters returned, [remote] is the remote side of each
    subreddit, [now] the clock readings of the curated entries and [clk]
    those of the upserts. *)
Definition fetchAllPosts (now : nat -> Z) (clk : nat -> Clock)
  (remote : string -> Remote) (hn gh devto blog : list Post.t)
  (db : PostsDatabase) : list Post.t * PostsDatabase :=
  store_cycle clk (getCuratedResources now)
    (mkSources hn gh devto blog (fetchReddit remote)) db.

(** ** Notions used to state the properties *)

(** The external ids held by a collection, in order. *)
Definition ids (rows : list Row.t) : list string := Row.reddit_id <$> rows.

(** The record [upsertPost] builds, given the surrogate id it settles
    on. *)
Definition make_row (id : string) (c : Clock) (post : Post.t) : Row.t :=
  {| Row.id := id;
     Row.reddit_id := Post.reddit_id post;
     Row.title := Post.title post;
     Row.content := or_str (Post.content post) "";
     Row.author := Post.author post;
     Row.subreddit := Post.subreddit post;
     Row.upvotes := Post.upvotes post;
     Row.num_comments := or_num (Post.num_comments post) 0;
     Row.created_at := Post.created_at post;
     Row.fetched_at := toISOString (new_Date c);
     Row.url := Post.url post |}.

Definition fresh_id (c : Clock) : string :=
  toString36 (Date_now c) +:+ Math_random c.

(** The collection after an upsert, by recursion on the collection:
    the first record with the item's id is replaced in place, an item
    with a new id goes to the end. *)
Fixpoint put (c : Clock) (post : Post.t) (rows : list Row.t) : list Row.t :=
  match rows with
  | [] => [make_row (fresh_id c) c post]
  | r :: t =>
      if same_id post r then make_row (Row.id r) c post :: t
      else r :: put c post t
  end.

(** A sequence of batches, each with the clock readings of its run. *)
Definition upsert_batches
  (batches : list ((nat -> Clock) * list Post.t)) (db : PostsDatabase)
  : PostsDatabase :=
  foldl (fun d b => (upsertPosts b.1 b.2 d).2) db batches.

(** Two records that differ at most in [fetched_at]. *)
Definition same_but_fetched_at (a b : Row.t) : Prop :=
  Row.id a = Row.id b /\
  Row.reddit_id a = Row.reddit_id b /\
  Row.title a = Row.title b /\
  Row.content a = Row.content b /\
  Row.author a = Row.author b /\
  Row.subreddit a = Row.subreddit b /\
  Row.upvotes a = Row.upvotes b /\
  Row.num_comments a = Row.num_comments b /\
  Row.created_at a = Row.created_at b /\
  Row.url a = Row.url b.

(** A batch with the clock readings of each of its upserts. *)
Fixpoint paired (clk : nat -> Clock) (batch : list Post.t)
  : list (Clock * Post.t) :=
  match batch with
  | [] => []
  | p :: rest => (clk O, p) :: paired (fun i => clk (S i)) rest
  end.

(** The collection after a batch. *)
Definition puts (l : list (Clock * Post.t)) (rows : list Row.t) : list Row.t :=
  foldl (fun acc cp => put cp.1 cp.2 acc) rows l.

(** What a batch does to one record that is the first of its id. *)
Definition touch (r : Row.t) (cp : Clock * Post.t) : Row.t :=
  if same_id cp.2 r then make_row (Row.id r) cp.1 cp.2 else r.

Definition touches (l : list (Clock * Post.t)) (r : Row.t) : Row.t :=
  foldl touch r l.

Definition hits (k : string) (cp : Clock * Post.t) : bool :=
  bool_decide (k = Post.reddit_id cp.2).

(** The last upsert of a batch that carries the id [k]. *)
Fixpoint last_hit (k : string) (l : list (Clock * Post.t))
  : option (Clock * Post.t) :=
  match l with
  | [] => None
  | cp :: t =>
      match last_hit k t with
      | Some x => Some x
      | None => if hits k cp then Some cp else None
      end
  end.

(** The letters below 256, each upper-case letter with its lower-case
    letter: the 26 letters of the alphabet, and the letters with
    diacritics of Latin-1 (À with à, ..., Þ with þ; the signs × and ÷
    between them are no letters). *)
Definition letter_pairs : list (Ascii.ascii * Ascii.ascii) :=
  zip (String.list_ascii_of_string "ABCDEFGHIJKLMNOPQRSTUVWXYZ")
      (String.list_ascii_of_string "abcdefghijklmnopqrstuvwxyz")
  ++ zip (Ascii.ascii_of_nat <$> seq 192 23 ++ seq 216 7)
         (Ascii.ascii_of_nat <$> seq 224 23 ++ seq 248 7).

(** Two characters that are the same up to the case of letters. *)
Definition same_letter (a b : Ascii.ascii) : Prop :=
  a = b \/ (a, b) ∈ letter_pairs \/ (b, a) ∈ letter_pairs.

(** Two strings that are the same up to the case of letters. *)
Fixpoint eq_ci (s t : string) : Prop :=
  match s, t with
  | EmptyString, EmptyString => True
  | String a s', String b t' => same_letter a b /\ eq_ci s' t'
  | _, _ => False
  end.

(** [text] contains [kw] as a case-insensitive substring: some part of
    [text] equals [kw] up to the case of letters. *)
Definition contains_ci (text kw : string) : Prop :=
  exists pre mid post, text = pre +:+ mid +:+ post /\ eq_ci mid kw.

(** The subreddit is a dedicated channel, whatever the case of its
    name. *)
Definition dedicated (subreddit : string) : Prop :=
  exists name,
    name ∈ [ "claude"; "claudeai"; "claudedev"; "anthropicai";
             "claudecode" ] /\
    eq_ci subreddit name.

(** A time zone without clock changes: local time is at a constant
    offset from UTC. *)
Definition fixed_offset (tz : TimeZone) : Prop :=
  exists offset, forall t isUTC, LocalTZA tz t isUTC = offset.

#[global] Instance same_letter_dec a b : Decision (same_letter a b).
Proof. unfold same_letter. apply _. Defined.

#[global] Instance eq_ci_dec s t : Decision (eq_ci s t).
Proof.
  revert t. induction s as [|a s IH]; intros [|b t]; cbn [eq_ci]; apply _.
Defined.

(** The requests of a trace. *)
Definition requests (effects : list Effect) : list Z :=
  omap (fun e => match e with Request a => Some a | Wait _ => None end)
    effects.

(** The first item of a list that carries the id of [q]. *)
Definition first_with_id (q : Post.t) (l : list Post.t) : option Post.t :=
  List.find (fun x => bool_decide (Post.reddit_id x = Post.reddit_id q)) l.

(** An adapter result that holds at least one item. *)
Definition yielded (l : list Post.t) : bool :=
  match l with
  | [] => false
  | _ :: _ => true
  end.

(** The results of a cycle, in the order of the concatenation. *)
Definition groups (curated : list Post.t) (s : Sources)
  : list (list Post.t) :=
  [curated; blog s; hn s; gh s; devto s] ++ redditResults s.

(** ** PostsDatabase: loading, statistics *)

(** [load()]: an unreadable or unparseable backing file is caught and
    leaves an empty collection; a missing file is created empty. *)
Definition load (db : PostsDatabase) : PostsDatabase :=
  if existsSync (disk db) (dbPath db)
  then
    match readJson (disk db) (dbPath db) with
    | Some rows => mkDB (dbPath db) rows (disk db)
    | None => mkDB (dbPath db) [] (disk db)
    end
  else save (mkDB (dbPath db) [] (disk db)).

(** [new PostsDatabase(dbPath)] on the file system [fs].  The
    constructor first runs [ensureDirectories()], whose [mkdirSync]
    calls are not in a [try] block: [dirs_ok] tells whether it returns
    (the directories exist or could be created), and the constructor
    throws when it does not.  The directories themselves are not part of
    [FileSystem], where a write needs none. *)
Definition open_database (dirs_ok : bool) (path : string) (fs : FileSystem)
  : option PostsDatabase :=
  if dirs_ok then Some (load (mkDB path [] fs)) else None.

(** [getPosts] with the [page] option replaced. *)
Definition with_page (o : Options.t) (page : Z) : Options.t :=
  {| Options.search := Options.search o;
     Options.subreddit := Options.subreddit o;
     Options.sortBy := Options.sortBy o;
     Options.sortOrder := Options.sortOrder o;
     Options.page := page;
     Options.limit := Options.limit o;
     Options.minUpvotes := Options.minUpvotes o;
     Options.daysBack := Options.daysBack o |}.

(** The rank [getPosts] sorts by: the sort key, negated for the
    descending order. *)
Definition rank (sortBy sortOrder : string) (p : Row.t) : Z :=
  if bool_decide (sortOrder = "desc") then - sort_key sortBy p
  else sort_key sortBy p.

(** The property names an object literal inherits from
    [Object.prototype]: a lookup of one of them in [{}] does not give
    [undefined]. *)
Definition inherited_names : list string :=
  [ "constructor"; "__defineGetter__"; "__defineSetter__"; "hasOwnProperty";
    "__lookupGetter__"; "__lookupSetter__"; "isPrototypeOf";
    "propertyIsEnumerable"; "toString"; "valueOf"; "__proto__";
    "toLocaleString" ].

(** A value of the [subredditCounts] object: a number, or the string
    that [+ 1] makes of an inherited function or object. *)
Inductive CountValue : Type :=
  | Count (n : Z)
  | Text.

(** [counts[k] = (counts[k] || 0) + 1] on an object that started as
    [{}].  An own property is read first; a missing key reads as
    [undefined] unless it is inherited, in which case the sum is a
    string; an assignment to [__proto__] of a string creates no
    property. *)
Definition bump (counts : gmap string CountValue) (k : string)
  : gmap string CountValue :=
  match counts !! k with
  | Some (Count n) => <[k := Count (or_num n 0 + 1)]> counts
  | Some Text => <[k := Text]> counts
  | None =>
      if bool_decide (k ∈ inherited_names)
      then (if bool_decide (k = "__proto__") then counts
            else <[k := Text]> counts)
      else <[k := Count (0 + 1)]> counts
  end.

(** [Math.max(...times)] over the times of date strings: NaN as soon as
    one of them is invalid, [-Infinity] for no argument (which
    [getStats] never asks for).  The spread passes one argument per
    element, and the call throws a [RangeError] when there are more of
    them than the engine accepts at this point: [max_arguments] is that
    number, and [None] stands for the error. *)
Inductive maximum : Type :=
  | MaxNum (z : Z)
  | MaxNaN
  | MinusInfinity.

Definition max_step (acc : maximum) (d : DateString) : maximum :=
  match acc, d with
  | MaxNaN, _ => MaxNaN
  | _, InvalidDate => MaxNaN
  | MinusInfinity, ISO t => MaxNum t
  | MaxNum m, ISO t => MaxNum (Z.max m t)
  end.

Definition Math_max (max_arguments : Z) (dates : list DateString)
  : option maximum :=
  if bool_decide (Z.of_nat (length dates) <= max_arguments)
  then Some (foldl max_step MinusInfinity dates)
  else None.

Record Stats : Type := mkStats {
  totalPosts : Z;
  postsLast24h : Z;
  postsLastWeek : Z;
  subredditCounts : gmap string CountValue;
  lastUpdated : option maximum
}.

(** The loop of [getStats]: the two counters and the counts object. *)
Definition stats_step (dayAgo weekAgo : Z)
  (acc : Z * Z * gmap string CountValue) (post : Row.t)
  : Z * Z * gmap string CountValue :=
  let '(last24h, lastWeek, counts) := acc in
  let last24h :=
    if date_ge (Row.created_at post) dayAgo then last24h + 1 else last24h in
  let lastWeek :=
    if date_ge (Row.created_at post) weekAgo then lastWeek + 1 else lastWeek in
  (last24h, lastWeek, bump counts (Row.subreddit post)).

(** [getStats()], [now] being [new Date()]; [lastUpdated] is [None] for
    [null].  The error of [Math.max] is not caught: [getStats] then
    throws and returns nothing. *)
Definition getStats (max_arguments : Z) (now : Z) (db : PostsDatabase)
  : option Stats :=
  let dayAgo := now - 24 * 60 * 60 * 1000 in
  let weekAgo := now - 7 * 24 * 60 * 60 * 1000 in
  let '(last24h, lastWeek, counts) :=
    foldl (stats_step dayAgo weekAgo) (0, 0, ∅) (posts db) in
  lastUpdated ←
    (if bool_decide (0 < Z.of_nat (length (posts db)))
     then m ← Math_max max_arguments (Row.fetched_at <$> posts db); Some (Some m)
     else Some None);
  Some {| totalPosts := Z.of_nat (length (posts db));
          postsLast24h := last24h;
          postsLastWeek := lastWeek;
          subredditCounts := counts;
          lastUpdated := lastUpdated |}.

(** The number of records of a subreddit, and of records dated from
    [since] on. *)
Definition count_subreddit (s : string) (rows : list Row.t) : Z :=
  Z.of_nat (length (List.filter (fun r => bool_decide (Row.subreddit r = s))
                      rows)).

Definition count_since (since : Z) (rows : list Row.t) : Z :=
  Z.of_nat (length (List.filter (in_window since) rows)).

(** The sum of the numbers a counts object holds. *)
Definition count_value (v : CountValue) : Z :=
  match v with
  | Count n => n
  | Text => 0
  end.

Definition sum_counts (counts : gmap string CountValue) : Z :=
  map_fold (fun _ v acc => count_value v + acc) 0 counts.

(** ** More on the aggregator *)

(** The trace of a fetch that stops at its [n]-th request, counted from
    the request of [attempt]: a wait of [3 ^ k] seconds after each
    request [k] but the last. *)
Fixpoint backoff_trace (attempt : Z) (n : nat) : list Effect :=
  match n with
  | O => []
  | S O => [Request attempt]
  | S n' =>
      Request attempt :: Wait (3 ^ attempt * 1000)
        :: backoff_trace (attempt + 1) n'
  end.

(** The time a trace spends waiting. *)
Definition waited (effects : list Effect) : Z :=
  foldr (fun e acc => match e with Wait ms => ms + acc | Request _ => acc end)
    0 effects.

(** ** The web terminal: one WebSocket connection *)

(** A parsed message.  A field that is absent, or that is not a string
    where a string is compared, is [None]; [cols] and [rows] are 0 when
    absent. *)
Record Message : Type := mkMessage {
  msg_type : option string;
  msg_token : option string;
  msg_data : string;
  msg_cols : Z;
  msg_rows : Z
}.

(** What arrives on the socket: text that makes the handler's [try]
    block throw before it looks at the message (it does not parse, or
    parses to [null]), or a message. *)
Inductive Frame : Type :=
  | Malformed
  | Parsed (m : Message).

Inductive Reply : Type :=
  | AuthSuccess
  | AuthFailed
  | NotAuthenticated.

#[global] Instance Reply_eq_dec : EqDecision Reply.
Proof. solve_decision. Defined.

(** What the handlers do to the outside.  A PTY is named by its rank
    among the PTYs the connection spawned. *)
Inductive TermEffect : Type :=
  | SendReply (r : Reply)
  | SpawnPty (pty : nat) (cols rows : Z)
  | WritePty (pty : nat) (data : string)
  | ResizePty (pty : nat) (cols rows : Z)
  | CloseSocket
  | KillPty (pty : nat).

#[global] Instance TermEffect_eq_dec : EqDecision TermEffect.
Proof. solve_decision. Defined.

(** The variables of the connection's closure, and the number of PTYs
    spawned so far. *)
Record Connection : Type := mkConnection {
  authenticated : bool;
  ptyProcess : option nat;
  spawned : nat
}.

Definition new_connection : Connection := mkConnection false None O.

(** The ['message'] handler.  [spawn_ok] tells whether [pty.spawn]
    returns, should the handler call it; when it throws, the error is
    caught after [authenticated] was set and the reply sent. *)
Definition on_message (AUTH_TOKEN : string) (spawn_ok : bool) (f : Frame)
  (c : Connection) : Connection * list TermEffect :=
  match f with
  | Malformed => (c, [])
  | Parsed data =>
      if bool_decide (msg_type data = Some "auth")
      then
        if bool_decide (msg_token data = Some AUTH_TOKEN)
        then
          if spawn_ok
          then (mkConnection true (Some (spawned c)) (S (spawned c)),
                [SendReply AuthSuccess;
                 SpawnPty (spawned c) (or_num (msg_cols data) 80)
                   (or_num (msg_rows data) 24)])
          else (mkConnection true (ptyProcess c) (spawned c),
                [SendReply AuthSuccess])
        else (c, [SendReply AuthFailed; CloseSocket])
      else if negb (authenticated c)
      then (c, [SendReply NotAuthenticated])
      else
        (c,
         (if bool_decide (msg_type data = Some "input")
          then match ptyProcess c with
               | Some pty => [WritePty pty (msg_data data)]
               | None => []
               end
          else [])
         ++
         (if bool_decide (msg_type data = Some "resize")
          then match ptyProcess c with
               | Some pty => [ResizePty pty (msg_cols data) (msg_rows data)]
               | None => []
               end
          else []))
  end.

(** The ['close'] and ['error'] handlers. *)
Definition on_close (c : Connection) : list TermEffect :=
  match ptyProcess c with
  | Some pty => [KillPty pty]
  | None => []
  end.

(** A connection receiving frames one after the other. *)
Fixpoint receive (AUTH_TOKEN : string) (frames : list (bool * Frame))
  (c : Connection) : Connection * list TermEffect :=
  match frames with
  | [] => (c, [])
  | (spawn_ok, f) :: rest =>
      let '(c1, e1) := on_message AUTH_TOKEN spawn_ok f c in
      let '(c2, e2) := receive AUTH_TOKEN rest c1 in
      (c2, e1 ++ e2)
  end.

(** A frame that authenticates. *)
Definition authenticates (AUTH_TOKEN : string) (f : Frame) : Prop :=
  exists m, f = Parsed m /\ msg_type m = Some "auth" /\
            msg_token m = Some AUTH_TOKEN.

(** An effect that touches a PTY. *)
Definition touches_pty (e : TermEffect) : Prop :=
  match e with
  | SpawnPty _ _ _ | WritePty _ _ | ResizePty _ _ _ | KillPty _ => True
  | SendReply _ | CloseSocket => False
  end.

(** The discipline of a trace, [cur] being the PTY spawned last: a
    write or a resize goes to that PTY, and nothing is killed. *)
Fixpoint pty_discipline (cur : option nat) (es : list TermEffect) : Prop :=
  match es with
  | [] => True
  | SpawnPty pty _ _ :: rest => pty_discipline (Some pty) rest
  | WritePty pty _ :: rest => cur = Some pty /\ pty_discipline cur rest
  | ResizePty pty _ _ :: rest => cur = Some pty /\ pty_discipline cur rest
  | KillPty _ :: _ => False
  | _ :: rest => pty_discipline cur rest
  end.

(** The PTY spawned last in a trace, after [cur]. *)
Definition last_spawned (cur : option nat) (es : list TermEffect)
  : option nat :=
  foldl (fun acc e => match e with SpawnPty pty _ _ => Some pty | _ => acc end)
    cur es.

(** The PTYs a trace spawns, in order. *)
Definition spawns (es : list TermEffect) : list nat :=
  omap (fun e => match e with SpawnPty pty _ _ => Some pty | _ => None end) es.

(** ** The OAuth token cache *)








(** ** The other adapters *)

(** [s.replace(/<[^>]+>/g, '')].  A tag starts at a ['<'] that is
    followed by at least one character other than ['>'] and, later, by
    a ['>']; it ends at the first ['>'].  [has_gt s] tells whether [s]
    holds a ['>']; [strip_tags in_tag s] is the text left of [s], inside
    a tag when [in_tag] is set. *)
Fixpoint has_gt (s : string) : bool :=
  match s with
  | EmptyString => false
  | String c t => bool_decide (c = ">"%char) || has_gt t
  end.

Definition opens_tag (t : string) : bool :=
  match t with
  | EmptyString => false
  | String c t' => negb (bool_decide (c = ">"%char)) && has_gt t'
  end.

Fixpoint strip_tags (in_tag : bool) (s : string) : string :=
  match s with
  | EmptyString => EmptyString
  | String c t =>
      if in_tag
      then (if bool_decide (c = ">"%char) then strip_tags false t
            else strip_tags true t)
      else if bool_decide (c = "<"%char) && opens_tag t
           then strip_tags true t
           else String c (strip_tags false t)
  end.

(** A hit of the Hacker News search; an absent text field is the empty
    string, an absent number is 0. *)
Record Hit : Type := mkHit {
  objectID : string;
  hit_title : string;
  story_text : string;
  hit_author : string;
  points : Z;
  hit_num_comments : Z;
  hit_created_at : DateString;
  hit_url : string
}.

Definition hn_item (hit : Hit) (created : Z) : Post.t :=
  {| Post.reddit_id := "hn_" +:+ objectID hit;
     Post.title := "[HN] " +:+ or_str (hit_title hit) "(no title)";
     Post.content :=
       substring0 600 (strip_tags false (or_str (story_text hit) ""));
     Post.author := or_str (hit_author hit) "unknown";
     Post.subreddit := "HackerNews";
     Post.upvotes := or_num (points hit) 0;
     Post.num_comments := or_num (hit_num_comments hit) 0;
     Post.created_at := toISOString created;
     Post.url :=
       or_str (hit_url hit)
         ("https://news.ycombinator.com/item?id=" +:+ objectID hit);
     Post.source := "hackernews" |}.

(** The loop over the hits of one response: a hit without id is
    skipped; [toISOString] throws on an invalid date, which ends the
    loop with the items pushed so far. *)
Fixpoint hn_hits (hits : list Hit) : list Post.t :=
  match hits with
  | [] => []
  | hit :: rest =>
      if bool_decide (objectID hit = "") then hn_hits rest
      else match hit_created_at hit with
           | ISO created => hn_item hit created :: hn_hits rest
           | InvalidDate => []
           end
  end.

Definition HN_QUERIES : list string :=
  [ "claude anthropic"; "claude code"; "openclaw"; "moltbot"; "clawdbot";
    "anthropic AI" ].

(** [fetchHackerNews()]: [search q] is the list of hits of the response
    to query [q], [None] when the request throws. *)
Definition fetchHackerNews (search : string -> option (list Hit))
  : list Post.t :=
  concat ((fun q => match search q with
                    | Some hits => hn_hits hits
                    | None => []
                    end) <$> HN_QUERIES).


(** [l.join(sep)] *)
Fixpoint join (sep : string) (l : list string) : string :=
  match l with
  | [] => ""
  | [x] => x
  | x :: rest => x +:+ sep +:+ join sep rest
  end.

(** A repository of the GitHub search; [repo_id] is a number, printed
    in decimal in the item's id. *)
Record Repo : Type := mkRepo {
  repo_id : Z;
  full_name : string;
  description : string;
  topics : list string;
  owner_login : string;
  stargazers_count : Z;
  open_issues_count : Z;
  updated_at : DateString;
  html_url : string
}.

Definition gh_item (repo : Repo) : Post.t :=
  {| Post.reddit_id := "gh_" +:+ pretty (repo_id repo);
     Post.title :=
       "[GitHub] " +:+ full_name repo +:+ " – "
       +:+ substring0 120 (or_str (description repo) "No description");
     Post.content :=
       or_str (description repo) ""
       +:+ (if bool_decide (0 < Z.of_nat (length (topics repo)))
            then String "010"%char "Topics: " +:+ join ", " (topics repo)
            else "");
     Post.author := owner_login repo;
     Post.subreddit := "GitHub";
     Post.upvotes := stargazers_count repo;
     Post.num_comments := open_issues_count repo;
     Post.created_at := updated_at repo;
     Post.url := html_url repo;
     Post.source := "github" |}.

Definition GH_QUERIES : list string :=
  [ "openclaw"; "clawdbot"; "moltbot"; "claude-code"; "anthropic claude";
    "clawhub" ].

(** [fetchGitHub()]: [search q] is the list of repositories of the
    response to query [q], [None] when the request throws. *)
Definition fetchGitHub (search : string -> option (list Repo))
  : list Post.t :=
  concat ((fun q => match search q with
                    | Some repos => gh_item <$> repos
                    | None => []
                    end) <$> GH_QUERIES).

(** An article of the Dev.to listing. *)
Record Article : Type := mkArticle {
  art_id : Z;
  art_title : string;
  art_description : string;
  username : string;
  positive_reactions_count : Z;
  comments_count : Z;
  published_at : DateString;
  art_url : string
}.

Definition DEVTO_TAGS : list string :=
  [ "claude"; "anthropic"; "claudeai"; "aitools"; "llm"; "aiagents" ].

(** The test [relevant] of [fetchDevTo]. *)
Definition devto_relevant (tag : string) (art : Article) : bool :=
  let text :=
    toLowerCase (or_str (art_title art) "" +:+ " "
                 +:+ or_str (art_description art) "") in
  bool_decide (tag ∈ DEDICATED_SUBS)
  || existsb (fun kw => includes text (toLowerCase kw)) ALL_KEYWORDS.

Definition devto_item (art : Article) : Post.t :=
  {| Post.reddit_id := "devto_" +:+ pretty (art_id art);
     Post.title := "[Dev.to] " +:+ art_title art;
     Post.content := or_str (art_description art) "";
     Post.author := or_str (username art) "unknown";
     Post.subreddit := "DevTo";
     Post.upvotes := or_num (positive_reactions_count art) 0;
     Post.num_comments := or_num (comments_count art) 0;
     Post.created_at := published_at art;
     Post.url := art_url art;
     Post.source := "devto" |}.

(** [fetchDevTo()]: [listing tag] is the list of articles of the
    response for [tag], [None] when the request throws. *)
Definition fetchDevTo (listing : string -> option (list Article))
  : list Post.t :=
  concat ((fun tag => match listing tag with
                      | Some arts =>
                          devto_item <$> List.filter (devto_relevant tag) arts
                      | None => []
                      end) <$> DEVTO_TAGS).

(** ** Sample data *)

Definition sample_clock (i : nat) : Clock :=
  {| new_Date := 1700000000000 + Z.of_nat i;
     Date_now := 1700000000000 + Z.of_nat i;
     Math_random := "4fzzzxjylrx" |}.

Definition later_clock (i : nat) : Clock :=
  {| new_Date := 1700000300000 + Z.of_nat i;
     Date_now := 1700000300000 + Z.of_nat i;
     Math_random := "9q2m1c0d7vh" |}.

Definition sample_now (i : nat) : Z := 1700000000000 + Z.of_nat i.

Definition empty_fs : FileSystem := mkFS ∅ ∅.

Definition empty_db : PostsDatabase := mkDB "data/posts.json" [] empty_fs.

(** Items of three adapters: a repository listing with a given star
    count, a story created [age] days before the sample clock's first
    reading, and an article. *)
Definition gh_42 (stars : Z) : Post.t :=
  {| Post.reddit_id := "gh_42";
     Post.title := "[GitHub] acme/claude-agent – No description";
     Post.content := "";
     Post.author := "acme";
     Post.subreddit := "GitHub";
     Post.upvotes := stars;
     Post.num_comments := 3;
     Post.created_at := ISO (1700000000000 - 2 * msPerDay);
     Post.url := "https://github.com/acme/claude-agent";
     Post.source := "github" |}.

Definition hn_7 (age : Z) : Post.t :=
  {| Post.reddit_id := "hn_7";
     Post.title := "[HN] Claude Code in practice";
     Post.content := "Notes from a month of use";
     Post.author := "pg";
     Post.subreddit := "HackerNews";
     Post.upvotes := 120;
     Post.num_comments := 45;
     Post.created_at := ISO (1700000000000 - age * msPerDay);
     Post.url := "https://news.ycombinator.com/item?id=7";
     Post.source := "hackernews" |}.

Definition devto_9 : Post.t :=
  {| Post.reddit_id := "devto_9";
     Post.title := "[Dev.to] Anthropic API tips";
     Post.content := "Five tips";
     Post.author := "dev";
     Post.subreddit := "DevTo";
     Post.upvotes := 7;
     Post.num_comments := 0;
     Post.created_at := ISO (1700000000000 - msPerDay);
     Post.url := "https://dev.to/dev/tips";
     Post.source := "devto" |}.

(** A store holding a two-day-old, a forty-day-old and a one-day-old
    record. *)
Definition sample_db : PostsDatabase :=
  (upsertPosts sample_clock [gh_42 10; hn_7 40; devto_9] empty_db).2.

(** The sample store with a snapshot file next to it. *)
Definition snapshot : list Row.t :=
  [ make_row "lozb1a00x" (sample_clock 0%nat) (hn_7 3) ].

Definition db_with_snapshot : PostsDatabase :=
  mkDB (dbPath sample_db) (posts sample_db)
    (mkFS (<["backups/posts-backup-2023-11-14.json" := Json snapshot]>
             (files (disk sample_db)))
          (locked (disk sample_db))).

(** A subreddit whose every request fails. *)
Definition all_fail : Remote :=
  {| response := fun _ => None; clock := fun _ => 1700000000000 |}.

Definition no_sources : Sources := mkSources [] [] [] [] [].

(** Two posts of a listing, fetched at the sample clock's time. *)
Definition on_topic : Child.t :=
  {| Child.id := "1abcd";
     Child.title := "Tried CLAUDE Code on a legacy repo";
     Child.selftext := "";
     Child.author := "u1";
     Child.subreddit := "OpenAI";
     Child.score := 12;
     Child.num_comments := 4;
     Child.created_utc := 1699990000;
     Child.permalink := "/r/OpenAI/comments/1abcd/" |}.

Definition off_topic : Child.t :=
  {| Child.id := "1abce";
     Child.title := "GPU prices this week";
     Child.selftext := "Any deals?";
     Child.author := "u2";
     Child.subreddit := "OpenAI";
     Child.score := 3;
     Child.num_comments := 0;
     Child.created_utc := 1699990100;
     Child.permalink := "/r/OpenAI/comments/1abce/" |}.

(** Two batches, the first with a repeated id. *)
Definition two_batches : list ((nat -> Clock) * list Post.t) :=
  [ (sample_clock, [gh_42 10; hn_7 3; gh_42 12]);
    (later_clock, [gh_42 15; devto_9]) ].

(** The second page of two records, by score. *)
Definition page_of_two : Options.t :=
  {| Options.search := ""; Options.subreddit := "";
     Options.sortBy := "upvotes"; Options.sortOrder := "desc";
     Options.page := 2; Options.limit := 2; Options.minUpvotes := 0;
     Options.daysBack := 60 |}.

(** A subreddit that answers at the second request. *)
Definition second_try : Remote :=
  {| response := fun a =>
       if bool_decide (a = 2) then Some [on_topic; off_topic] else None;
     clock := fun _ => 1700000000000 |}.

(** Frames of a client that does not know the token, and the frames of
    a session. *)
Definition strangers : list (bool * Frame) :=
  [ (true, Malformed);
    (true, Parsed (mkMessage (Some "input") None "ls" 0 0));
    (true, Parsed (mkMessage (Some "auth") (Some "guess") "" 80 24)) ].

Definition session : list (bool * Frame) :=
  [ (true, Parsed (mkMessage (Some "auth") (Some "secret") "" 120 40));
    (true, Parsed (mkMessage (Some "input") None "ls" 0 0)) ].



(** A search that answers one query only, with one story. *)
Definition sample_hit : Hit :=
  {| objectID := "38000000";
     hit_title := "OpenClaw 1.0";
     story_text := "<p>Runs <i>Claude</i> at home</p>";
     hit_author := "";
     points := 0;
     hit_num_comments := 12;
     hit_created_at := ISO 1699900000000;
     hit_url := "" |}.

Definition sample_hn (q : string) : option (list Hit) :=
  if bool_decide (q = "openclaw") then Some [sample_hit] else None.

Definition sample_repo : Repo :=
  {| repo_id := 38000000;
     full_name := "acme/openclaw-skills";
     description := "";
     topics := ["claude"; "skills"];
     owner_login := "acme";
     stargazers_count := 40;
     open_issues_count := 2;
     updated_at := ISO 1699950000000;
     html_url := "https://github.com/acme/openclaw-skills" |}.

Definition sample_gh (q : string) : option (list Repo) :=
  if bool_decide (q = "openclaw") then Some [sample_repo] else None.

Definition sample_article : Article :=
  {| art_id := 1650000;
     art_title := "Shipping faster with Claude";
     art_description := "Code review in the terminal";
     username := "dev";
     positive_reactions_count := 0;
     comments_count := 3;
     published_at := ISO 1699960000000;
     art_url := "https://dev.to/dev/shipping" |}.

(** Two time zones: UTC, and the Eastern time of North America around
    the autumn of 2023, when the clocks went back by an hour on 5
    November at 06:00 UTC (02:00 local time). *)
Definition utc_zone : TimeZone := mkTimeZone (fun _ _ => 0).

Definition new_york_zone : TimeZone :=
  mkTimeZone (fun t isUTC =>
    let change := 1699164000000 in
    let before := if isUTC then change else change - 4 * 3600000 in
    if bool_decide (t < before) then -4 * 3600000 else -5 * 3600000).

(** A listing that answers one tag only, with one article. *)
Definition sample_devto (tag : string) : option (list Article) :=
  if bool_decide (tag = "llm") then Some [sample_article] else None.

(** A query with all four filters at work. *)
Definition claude_stories : Options.t :=
  {| Options.search := "claude code"; Options.subreddit := "hacker";
     Options.sortBy := "created_at"; Options.sortOrder := "desc";
     Options.page := 1; Options.limit := 20; Options.minUpvotes := 100;
     Options.daysBack := 60 |}.

(** ** The model at work *)

Example toString36_of_a_date : toString36 1700000000000 = "loyw3v28".
Proof. reflexivity. Qed.

Example toLowerCase_mixed : toLowerCase "Claude CODE 3.5" = "claude code 3.5".
Proof. reflexivity. Qed.

Example includes_inside : includes "tried claude code today" "claude code" = true.
Proof. reflexivity. Qed.

Example includes_absent : includes "gpu prices" "clawd" = false.
Proof. reflexivity. Qed.

Example findIndex_first : findIndex (Z.eqb 7) [3; 7; 5; 7] = 1.
Proof. reflexivity. Qed.

Example findIndex_absent : findIndex (Z.eqb 9) [3; 7; 5; 7] = -1.
Proof. reflexivity. Qed.

Example ceil_div_rounds_up : ceil_div 5 2 = Num 3.
Proof. reflexivity. Qed.

Example ceil_div_by_zero : ceil_div 5 0 = Infinity /\ ceil_div 0 0 = NaN.
Proof. split; reflexivity. Qed.

Example slice_second_page : slice [1; 2; 3; 4; 5] 2 4 = [3; 4].
Proof. reflexivity. Qed.

Example slice_past_the_end : slice [1; 2; 3; 4; 5] 6 8 = [].
Proof. reflexivity. Qed.

Example sort_by_is_stable :
  sort_by (fun a b : Z * string => b.1 - a.1)
    [(1, "a"); (3, "b"); (1, "c"); (3, "d")]
  = [(3, "b"); (3, "d"); (1, "a"); (1, "c")].
Proof. reflexivity. Qed.

(** The example of the specification: the same id ingested twice with
    different scores leaves one record, with the second score. *)
Example second_score_wins :
  let db := (upsertPosts sample_clock [gh_42 10; gh_42 12] empty_db).2 in
  ids (posts db) = ["gh_42"] /\ (Row.upvotes <$> posts db) = [12].
Proof. vm_compute. split; reflexivity. Qed.

Example dedupe_keeps_first :
  Post.upvotes <$> dedupe ∅ [gh_42 10; devto_9; gh_42 12] = [10; 7].
Proof. vm_compute. reflexivity. Qed.

Example keepPost_by_keyword :
  keepPost 1700000000000 "OpenAI" on_topic = true /\
  keepPost 1700000000000 "OpenAI" off_topic = false /\
  keepPost 1700000000000 "ClaudeAI" off_topic = true.
Proof. vm_compute. repeat split; reflexivity. Qed.

Example fetch_after_one_failure :
  (fetchSubredditPosts
     {| response := fun a => if bool_decide (a = 1) then None
                             else Some [on_topic; off_topic];
        clock := fun _ => 1700000000000 |}
     "OpenAI" 3).2
  = [Request 1; Wait 3000; Request 2].
Proof. vm_compute. reflexivity. Qed.

(** Thirty days back from 14 November 2023, 22:13:20 UTC.  In New York
    the clocks changed in between: the cutoff is at the same local time
    of 15 October, an hour earlier than 30 times 24 hours back. *)
Example cutoffDate_across_clock_change :
  cutoffDate utc_zone 1700000000000 30 = 1700000000000 - 30 * msPerDay /\
  cutoffDate new_york_zone 1700000000000 30
    = 1700000000000 - 30 * msPerDay - 3600000 /\
  cutoffDate new_york_zone 1700000000000 30 = 1697404400000.
Proof. vm_compute. repeat split; reflexivity. Qed.

(** Letters are compared whatever their case, also those of Latin-1. *)
Example toLowerCase_latin1 :
  toLowerCase "Tried CLAUDE Code" = "tried claude code" /\
  toLowerCase (String (Ascii.ascii_of_nat 201) "COLE")
    = String (Ascii.ascii_of_nat 233) "cole" /\
  toLowerCase (String (Ascii.ascii_of_nat 215) "") 
    = String (Ascii.ascii_of_nat 215) "".
Proof. vm_compute. repeat split; reflexivity. Qed.

(** ** The store: upsert *)

Lemma posts_save db : posts (save db) = posts db.
Proof. unfold save. by destruct (writeFileSync _ _ _). Qed.

Lemma dbPath_save db : dbPath (save db) = dbPath db.
Proof. unfold save. by destruct (writeFileSync _ _ _). Qed.

Lemma findIndex_range {A} (f : A -> bool) (l : list A) :
  findIndex f l = -1 \/ 0 <= findIndex f l < Z.of_nat (length l).
Proof.
  induction l as [|x t IH]; simpl; [by left|].
  destruct (f x); [right; lia|].
  case_bool_decide; [by left|right; lia].
Qed.

Lemma upsertPost_put c post db :
  posts (upsertPost c post db).2 = put c post (posts db).
Proof.
  unfold upsertPost. cbn [snd]. rewrite posts_save. cbn [posts].
  fold (fresh_id c).
  generalize (posts db). intros rows.
  induction rows as [|r t IH]; [done|].
  cbn [findIndex put]. destruct (same_id post r) eqn:E; [done|].
  set (i := findIndex (same_id post) t) in *.
  destruct (findIndex_range (same_id post) t) as [Hn|Hr];
    fold i in Hn || fold i in Hr.
  - rewrite (bool_decide_eq_true_2 (i < 0)) by lia.
    rewrite !(bool_decide_eq_false_2 (0 <= -1)) by lia.
    rewrite !(bool_decide_eq_false_2 (0 <= i)) in IH by lia.
    cbn [app]. f_equal. exact IH.
  - rewrite (bool_decide_eq_false_2 (i < 0)) by lia.
    rewrite !(bool_decide_eq_true_2 (0 <= i + 1)) by lia.
    rewrite !(bool_decide_eq_true_2 (0 <= i)) in IH by lia.
    replace (Z.to_nat (i + 1)) with (S (Z.to_nat i)) by lia.
    cbn [lookup list_lookup insert list_insert]. f_equal. exact IH.
Qed.
Lemma findIndex_find {A} (f : A -> bool) (l : list A) :
  match List.find f l with
  | Some x => 0 <= findIndex f l /\ l !! Z.to_nat (findIndex f l) = Some x
  | None => findIndex f l = -1
  end.
Proof.
  induction l as [|y t IH]; [done|].
  cbn [List.find findIndex]. destruct (f y); [done|].
  destruct (List.find f t) as [x|].
  - destruct IH as [H0 Hl]. rewrite bool_decide_eq_false_2 by lia.
    split; [lia|].
    replace (Z.to_nat (findIndex f t + 1)) with (S (Z.to_nat (findIndex f t)))
      by lia.
    exact Hl.
  - rewrite IH. done.
Qed.

Lemma upsertPost_result c post db :
  (upsertPost c post db).1 =
  make_row
    (match getPost (Post.reddit_id post) db with
     | Some old => Row.id old
     | None => fresh_id c
     end) c post.
Proof.
  unfold upsertPost, getPost, make_row. cbn [fst]. fold (fresh_id c).
  pose proof (findIndex_find (same_id post) (posts db)) as H.
  unfold same_id in *.
  destruct (List.find _ (posts db)) as [old|].
  - destruct H as [H0 Hl]. rewrite bool_decide_eq_true_2 by done.
    by rewrite Hl.
  - rewrite H. done.
Qed.

Lemma find_put c post rows :
  List.find (same_id post) (put c post rows) =
  Some (make_row
          (match List.find (same_id post) rows with
           | Some old => Row.id old
           | None => fresh_id c
           end) c post).
Proof.
  induction rows as [|r t IH]; cbn [put List.find].
  - unfold same_id at 1. cbn. by rewrite bool_decide_eq_true_2.
  - destruct (same_id post r) eqn:E; cbn [List.find].
    + unfold same_id at 1. cbn. by rewrite bool_decide_eq_true_2.
    + by rewrite E.
Qed.

Lemma length_put_old c post rows old :
  List.find (same_id post) rows = Some old ->
  length (put c post rows) = length rows.
Proof.
  induction rows as [|r t IH]; cbn [put List.find]; [done|].
  destruct (same_id post r); [done|]. intros H. cbn. by rewrite IH.
Qed.

Lemma put_old_insert c post rows old :
  List.find (same_id post) rows = Some old ->
  exists i, rows !! i = Some old /\
    put c post rows = <[i := make_row (Row.id old) c post]> rows.
Proof.
  induction rows as [|r t IH]; cbn [put List.find]; [done|].
  destruct (same_id post r).
  - intros [= ->]. by exists O.
  - intros H. destruct (IH H) as (i & Hi & Hp). exists (S i).
    split; [done|]. cbn. by rewrite Hp.
Qed.

(** C3. Upserting an item whose external id is already in the store
    overwrites that record in place: the record keeps its surrogate id,
    its [fetched_at] is the time of this ingestion, and its [created_at]
    is the incoming item's value, whatever the stored one was. *)
Theorem upsert_existing_overwrites c post db old :
  getPost (Post.reddit_id post) db = Some old ->
  let r := (upsertPost c post db).1 in
  let db' := (upsertPost c post db).2 in
  Row.id r = Row.id old /\
  Row.fetched_at r = toISOString (new_Date c) /\
  Row.created_at r = Post.created_at post /\
  getPost (Post.reddit_id post) db' = Some r /\
  length (posts db') = length (posts db) /\
  exists i, posts db !! i = Some old /\ posts db' = <[i := r]> (posts db).
Proof.
  intros Hold r db'. subst r db'.
  rewrite upsertPost_result, Hold.
  unfold getPost in *. fold (same_id post) in *.
  rewrite upsertPost_put, find_put, Hold.
  repeat split; try done.
  - by eapply length_put_old.
  - by apply put_old_insert.
Qed.

(** *** Uniqueness of external ids *)

Lemma same_id_true post r :
  same_id post r = true <-> Row.reddit_id r = Post.reddit_id post.
Proof. unfold same_id. by rewrite bool_decide_eq_true. Qed.

Lemma same_id_false post r :
  same_id post r = false <-> Row.reddit_id r <> Post.reddit_id post.
Proof. unfold same_id. by rewrite bool_decide_eq_false. Qed.

Lemma ids_put c post rows :
  ids (put c post rows) =
  if bool_decide (Post.reddit_id post ∈ ids rows) then ids rows
  else ids rows ++ [Post.reddit_id post].
Proof.
  unfold ids. induction rows as [|r t IH]; cbn [put fmap list_fmap].
  - rewrite bool_decide_eq_false_2; [done|]. apply not_elem_of_nil.
  - destruct (same_id post r) eqn:E.
    + apply same_id_true in E. cbn [fmap list_fmap make_row Row.reddit_id].
      rewrite bool_decide_eq_true_2; [by rewrite E|].
      rewrite E. apply list_elem_of_here.
    + apply same_id_false in E. cbn [fmap list_fmap]. rewrite IH.
      case_bool_decide as H1.
      * rewrite bool_decide_eq_true_2; [done|]. by apply list_elem_of_further.
      * rewrite bool_decide_eq_false_2; [done|].
        rewrite elem_of_cons. intros [?|?]; [by apply E|by apply H1].
Qed.

Lemma NoDup_ids_put c post rows :
  NoDup (ids rows) -> NoDup (ids (put c post rows)).
Proof.
  intros H. rewrite ids_put. case_bool_decide as Hin; [done|].
  apply NoDup_app. split; [done|]. split.
  - intros x Hx Hx'. apply list_elem_of_singleton in Hx'. by subst.
  - apply NoDup_singleton.
Qed.

Lemma upsertPosts_cons clk p rest db :
  (upsertPosts clk (p :: rest) db).2 =
  (upsertPosts (fun i => clk (S i)) rest (upsertPost (clk O) p db).2).2.
Proof.
  cbn [upsertPosts]. destruct (upsertPost (clk O) p db) as [r db1].
  cbn [snd]. by destruct (upsertPosts (fun i => clk (S i)) rest db1).
Qed.

Lemma NoDup_ids_upsertPosts clk batch db :
  NoDup (ids (posts db)) -> NoDup (ids (posts (upsertPosts clk batch db).2)).
Proof.
  revert clk db. induction batch as [|p rest IH]; intros clk db H; [done|].
  rewrite upsertPosts_cons. apply IH.
  rewrite upsertPost_put. by apply NoDup_ids_put.
Qed.

Lemma NoDup_ids_upsert_batches batches db :
  NoDup (ids (posts db)) -> NoDup (ids (posts (upsert_batches batches db))).
Proof.
  revert db. induction batches as [|b bs IH]; intros db H; [done|].
  cbn [upsert_batches foldl]. apply IH. by apply NoDup_ids_upsertPosts.
Qed.

(** C1. Starting from a collection with unique external ids, the
    collection has unique external ids after every batch of any sequence
    of [upsertPosts] batches, whatever the batches hold: repeated ids
    inside one batch included.  An empty store is such a start. *)
Theorem upsert_batches_unique_ids batches db :
  NoDup (ids (posts db)) ->
  forall k, NoDup (ids (posts (upsert_batches (take k batches) db))).
Proof. intros H k. by apply NoDup_ids_upsert_batches. Qed.

(** *** Idempotence of a batch *)

Lemma upsertPosts_puts clk batch db :
  posts (upsertPosts clk batch db).2 = puts (paired clk batch) (posts db).
Proof.
  revert clk db. induction batch as [|p rest IH]; intros clk db; [done|].
  rewrite upsertPosts_cons, IH, upsertPost_put. done.
Qed.

Lemma hits_same_id k cp r :
  Row.reddit_id r = k -> same_id cp.2 r = hits k cp.
Proof. intros <-. unfold same_id, hits. done. Qed.

Lemma touch_key r cp :
  Row.reddit_id (touch r cp) = Row.reddit_id r /\
  Row.id (touch r cp) = Row.id r.
Proof.
  unfold touch. destruct (same_id cp.2 r) eqn:E; [|done].
  apply same_id_true in E. done.
Qed.

Lemma touches_key l r :
  Row.reddit_id (touches l r) = Row.reddit_id r /\
  Row.id (touches l r) = Row.id r.
Proof.
  revert r. induction l as [|cp t IH]; intros r; [done|].
  unfold touches in *. cbn [foldl]. destruct (IH (touch r cp)) as [-> ->].
  apply touch_key.
Qed.

Lemma touches_last_hit l r :
  touches l r =
  match last_hit (Row.reddit_id r) l with
  | Some cp => make_row (Row.id r) cp.1 cp.2
  | None => r
  end.
Proof.
  revert r. induction l as [|cp t IH]; intros r; [done|].
  unfold touches in *. cbn [foldl last_hit]. rewrite IH.
  destruct (touch_key r cp) as [-> ->].
  destruct (last_hit (Row.reddit_id r) t) as [x|]; [done|].
  unfold touch. rewrite (hits_same_id (Row.reddit_id r)) by done.
  by destruct (hits (Row.reddit_id r) cp).
Qed.

Lemma puts_cons l r t :
  puts l (r :: t) =
  touches l r
    :: puts (List.filter (fun cp => negb (hits (Row.reddit_id r) cp)) l) t.
Proof.
  revert r t. induction l as [|cp l IH]; intros r t; [done|].
  unfold puts, touches in *. cbn [foldl put List.filter].
  rewrite <- (hits_same_id (Row.reddit_id r) cp r) by done.
  unfold touch at 2.
  destruct (same_id cp.2 r) eqn:E; cbn [negb].
  - rewrite IH. cbn [make_row Row.reddit_id].
    apply same_id_true in E. by rewrite E.
  - rewrite IH. done.
Qed.

Lemma last_hit_snd k (l l' : list (Clock * Post.t)) :
  l.*2 = l'.*2 -> snd <$> last_hit k l = snd <$> last_hit k l'.
Proof.
  revert l'. induction l as [|cp t IH]; intros [|cp' t'] H; try done.
  injection H as H1 H2. cbn [last_hit]. specialize (IH t' H2).
  destruct (last_hit k t), (last_hit k t'); try done.
  unfold hits. rewrite H1. case_bool_decide; cbn; by rewrite ?H1.
Qed.

Lemma filter_hits_snd k (l l' : list (Clock * Post.t)) :
  l.*2 = l'.*2 ->
  (List.filter (fun cp => negb (hits k cp)) l).*2 =
  (List.filter (fun cp => negb (hits k cp)) l').*2.
Proof.
  revert l'. induction l as [|cp t IH]; intros [|cp' t'] H; try done.
  injection H as H1 H2. cbn [List.filter].
  replace (hits k cp) with (hits k cp') by (unfold hits; by rewrite H1).
  destruct (hits k cp'); cbn; [|rewrite H1; f_equal]; by apply IH.
Qed.

Lemma same_but_fetched_at_refl r : same_but_fetched_at r r.
Proof. by repeat split. Qed.

Lemma make_row_same id c c' p :
  same_but_fetched_at (make_row id c' p) (make_row id c p).
Proof. by repeat split. Qed.

Lemma touches_twice l l' r :
  l.*2 = l'.*2 ->
  same_but_fetched_at (touches l' (touches l r)) (touches l r).
Proof.
  intros H. rewrite (touches_last_hit l').
  destruct (touches_key l r) as [-> ->].
  pose proof (last_hit_snd (Row.reddit_id r) l l' H) as Hs.
  rewrite (touches_last_hit l).
  destruct (last_hit (Row.reddit_id r) l) as [[c p]|],
           (last_hit (Row.reddit_id r) l') as [[c' p']|];
    cbn in Hs; try discriminate.
  - injection Hs as <-. apply make_row_same.
  - apply same_but_fetched_at_refl.
Qed.

Lemma length_filter_le {A} (P : A -> bool) (l : list A) :
  (length (List.filter P l) <= length l)%nat.
Proof. induction l as [|x t IH]; cbn; [lia|]. destruct (P x); cbn; lia. Qed.

Lemma touch_make_row id c p :
  touch (make_row id c p) (c, p) = make_row id c p.
Proof.
  unfold touch. cbn [fst snd].
  replace (same_id p (make_row id c p)) with true; [done|].
  symmetry. by apply same_id_true.
Qed.

Lemma puts_start c p l :
  puts ((c, p) :: l) [] = puts l [make_row (fresh_id c) c p].
Proof. done. Qed.

Lemma puts_twice_aux n :
  forall l l' rows, (length l + length rows <= n)%nat -> l.*2 = l'.*2 ->
    Forall2 same_but_fetched_at (puts l' (puts l rows)) (puts l rows).
Proof.
  induction n as [|n IHn]; intros l l' rows Hn H.
  - destruct l, l', rows; cbn in *; try done; try lia; constructor.
  - destruct rows as [|r t].
    + destruct l as [|[c p] l], l' as [|[c' p'] l']; try done.
      injection H as Hp H. subst p'.
      rewrite puts_start.
      rewrite puts_cons. rewrite (puts_cons (_ :: l')).
      set (rr := make_row (fresh_id c) c p).
      replace (touches l rr) with (touches ((c, p) :: l) rr)
        by (unfold touches; cbn [foldl]; unfold rr; by rewrite touch_make_row).
      constructor.
      * apply touches_twice. cbn [fmap list_fmap snd]. f_equal. exact H.
      * destruct (touches_key ((c, p) :: l) rr) as [-> _].
        cbn [List.filter]. unfold hits at 1. cbn [snd rr make_row Row.reddit_id].
        rewrite bool_decide_eq_true_2 by done. cbn [negb].
        apply IHn.
        -- pose proof (length_filter_le
             (λ cp, negb (hits (Post.reddit_id p) cp)) l).
           cbn in Hn |- *. lia.
        -- by apply filter_hits_snd.
    + rewrite puts_cons. rewrite (puts_cons l').
      constructor.
      * by apply touches_twice.
      * destruct (touches_key l r) as [-> _].
        apply IHn.
        -- pose proof (length_filter_le
             (λ cp, negb (hits (Row.reddit_id r) cp)) l).
           cbn in Hn |- *. lia.
        -- by apply filter_hits_snd.
Qed.

Lemma paired_snd clk batch : (paired clk batch).*2 = batch.
Proof.
  revert clk. induction batch as [|p rest IH]; intros clk; [done|].
  cbn. by rewrite IH.
Qed.

Lemma puts_twice clk1 clk2 batch rows :
  Forall2 same_but_fetched_at
    (puts (paired clk2 batch) (puts (paired clk1 batch) rows))
    (puts (paired clk1 batch) rows).
Proof.
  eapply puts_twice_aux; [done|]. by rewrite !paired_snd.
Qed.

Lemma find_put_other c q k rows :
  Post.reddit_id q <> k ->
  List.find (fun r => bool_decide (Row.reddit_id r = k)) (put c q rows) =
  List.find (fun r => bool_decide (Row.reddit_id r = k)) rows.
Proof.
  intros Hne. induction rows as [|r t IH]; cbn [put List.find].
  - cbn. by rewrite bool_decide_eq_false_2.
  - destruct (same_id q r) eqn:E; cbn [List.find].
    + apply same_id_true in E. cbn [make_row Row.reddit_id].
      rewrite !bool_decide_eq_false_2; [done| |done]. by rewrite E.
    + by rewrite IH.
Qed.

Lemma find_puts_other k l rows :
  Forall (fun cp : Clock * Post.t => Post.reddit_id cp.2 <> k) l ->
  List.find (fun r => bool_decide (Row.reddit_id r = k)) (puts l rows) =
  List.find (fun r => bool_decide (Row.reddit_id r = k)) rows.
Proof.
  intros H. revert rows. induction H as [|cp l Hcp Hl IH]; intros rows; [done|].
  unfold puts in *. cbn [foldl]. rewrite IH. by apply find_put_other.
Qed.

Lemma paired_app clk a b :
  paired clk (a ++ b) =
  paired clk a ++ paired (fun i => clk (length a + i)%nat) b.
Proof.
  revert clk. induction a as [|p a IH]; intros clk; [done|].
  cbn [app paired length]. by rewrite IH.
Qed.

Lemma paired_lookup clk batch j p :
  batch !! j = Some p -> paired clk batch !! j = Some (clk j, p).
Proof.
  revert clk j. induction batch as [|q rest IH]; intros clk j H; [done|].
  destruct j as [|j]; cbn in *; [by injection H as ->|].
  exact (IH (fun i => clk (S i)) j H).
Qed.

Lemma puts_app l1 l2 rows : puts (l1 ++ l2) rows = puts l2 (puts l1 rows).
Proof. unfold puts. by rewrite foldl_app. Qed.

(** The record found under an id after a batch was written by the last
    upsert of the batch that carries the id. *)
Lemma getPost_after_batch clk batch db j p :
  batch !! j = Some p ->
  (forall j' p', (j < j')%nat -> batch !! j' = Some p' ->
     Post.reddit_id p' <> Post.reddit_id p) ->
  exists r, getPost (Post.reddit_id p) (upsertPosts clk batch db).2 = Some r /\
    Row.fetched_at r = toISOString (new_Date (clk j)).
Proof.
  intros Hj Hlast. unfold getPost. rewrite upsertPosts_puts.
  rewrite <- (take_drop_middle batch j p Hj).
  rewrite paired_app. cbn [paired]. rewrite puts_app.
  change (?x :: ?l) with ([x] ++ l) at 1. rewrite puts_app.
  rewrite find_puts_other.
  - unfold puts at 1. cbn [foldl fst snd].
    fold (same_id p). rewrite find_put. eexists. split; [done|].
    cbn [make_row Row.fetched_at]. do 2 f_equal.
    rewrite length_take. apply lookup_lt_Some in Hj. f_equal. lia.
  - apply Forall_forall. intros [c q] Hin. cbn [snd].
    apply list_elem_of_lookup in Hin as [i Hi].
    assert (drop (S j) batch !! i = Some q) as Hq.
    { pose proof (f_equal (fmap snd) Hi) as Hs.
      rewrite <- list_lookup_fmap in Hs. rewrite paired_snd in Hs. exact Hs. }
    rewrite lookup_drop in Hq. eapply Hlast; [|exact Hq]. lia.
Qed.

(** C2. Running [upsertPosts] a second time with the same item list
    leaves the number of records unchanged, and leaves every record as
    it was except for [fetched_at]; the record found under the id of an
    item carries the time of that item's upsert in the second run (of
    its last occurrence, when the list holds the id more than once). *)
Theorem upsertPosts_twice clk1 clk2 batch db :
  let db1 := (upsertPosts clk1 batch db).2 in
  let db2 := (upsertPosts clk2 batch db1).2 in
  length (posts db2) = length (posts db1) /\
  Forall2 same_but_fetched_at (posts db2) (posts db1) /\
  (forall j p, batch !! j = Some p ->
     (forall j' p', (j < j')%nat -> batch !! j' = Some p' ->
        Post.reddit_id p' <> Post.reddit_id p) ->
     exists r, getPost (Post.reddit_id p) db2 = Some r /\
       Row.fetched_at r = toISOString (new_Date (clk2 j))).
Proof.
  intros db1 db2.
  assert (Forall2 same_but_fetched_at (posts db2) (posts db1)) as H.
  { subst db1 db2. rewrite !upsertPosts_puts. apply puts_twice. }
  split; [by eapply Forall2_length|]. split; [done|].
  intros j p Hj Hlast. by apply getPost_after_batch.
Qed.

(** ** The store: retention *)

Lemma elem_of_filter_bool {A} (f : A -> bool) (l : list A) x :
  x ∈ List.filter f l <-> x ∈ l /\ f x = true.
Proof. rewrite !list_elem_of_In. apply filter_In. Qed.

Lemma insert_by_Permutation {A} (cmp : A -> A -> Z) x l :
  insert_by cmp x l ≡ₚ x :: l.
Proof.
  induction l as [|y t IH]; cbn [insert_by]; [done|].
  case_bool_decide; [done|]. rewrite IH. apply Permutation_swap.
Qed.

Lemma sort_by_Permutation {A} (cmp : A -> A -> Z) l : sort_by cmp l ≡ₚ l.
Proof.
  induction l as [|x t IH]; [done|].
  unfold sort_by in *. cbn [foldr]. rewrite insert_by_Permutation.
  by rewrite IH.
Qed.

Lemma elem_of_slice {A} (l : list A) a b x : x ∈ slice l a b -> x ∈ l.
Proof.
  unfold slice. intros H.
  apply (subseteq_drop (Z.to_nat (relative_index (Z.of_nat (length l)) a)) l).
  eapply subseteq_take. exact H.
Qed.

Lemma in_window_spec cutoff r :
  in_window cutoff r = true <->
  exists t, Row.created_at r = ISO t /\ cutoff <= t.
Proof.
  unfold in_window, date_ge. destruct (Row.created_at r) as [ms|].
  - rewrite bool_decide_eq_true. split; [by exists ms|].
    by intros (t & [= ->] & H).
  - split; [done|]. by intros (t & ? & _).
Qed.

Lemma filtered_posts_in_window tz now o db r :
  r ∈ filtered_posts tz now o db ->
  r ∈ posts db /\ in_window (cutoffDate tz now (Options.daysBack o)) r = true.
Proof.
  unfold filtered_posts. rewrite sort_by_Permutation.
  repeat case_bool_decide; rewrite ?elem_of_filter_bool; tauto.
Qed.

Lemma cutoffDate_fixed tz now daysBack :
  fixed_offset tz -> cutoffDate tz now daysBack = now - daysBack * msPerDay.
Proof.
  intros [offset H]. unfold cutoffDate, UTC, LocalTime. rewrite !H. lia.
Qed.

(** Retention, in terms of the cutoff the code computes. *)
Lemma retention_cutoff tz now :
  (forall o db r t,
     Row.created_at r = ISO t ->
     t < cutoffDate tz now (Options.daysBack o) ->
     r ∉ page_posts (getPosts tz now o db)) /\
  Options.daysBack Options.defaults = 30 /\
  (forall daysBack db,
     let cutoff := cutoffDate tz now daysBack in
     let deleted := (deleteOldPosts tz now daysBack db).1 in
     let db' := (deleteOldPosts tz now daysBack db).2 in
     posts db' = List.filter (in_window cutoff) (posts db) /\
     posts db' `sublist_of` posts db /\
     (forall r t, r ∈ posts db -> Row.created_at r = ISO t ->
        (r ∉ posts db' <-> t < cutoff)) /\
     (forall r, r ∈ posts db' -> r ∈ posts db /\
        exists t, Row.created_at r = ISO t /\ cutoff <= t) /\
     deleted = Z.of_nat (length (posts db)) - Z.of_nat (length (posts db')) /\
     (0 < deleted ->
        db' = save (mkDB (dbPath db) (posts db') (disk db)) /\
        (dbPath db ∉ locked (disk db) ->
           readJson (disk db') (dbPath db') = Some (posts db'))) /\
     (deleted = 0 -> db' = db)).
Proof.
  split; [|split; [done|]].
  - intros o db r t Hr Ht Hin. apply elem_of_slice in Hin.
    apply filtered_posts_in_window in Hin as [_ Hw].
    apply in_window_spec in Hw as (t' & Ht' & Hle). rewrite Hr in Ht'.
    injection Ht' as ->. lia.
  - intros daysBack db cutoff deleted db'.
    assert (posts db' = List.filter (in_window cutoff) (posts db)) as Hp.
    { subst db' cutoff. unfold deleteOldPosts. cbn [posts].
      case_bool_decide; cbn [snd]; by rewrite ?posts_save. }
    assert (deleted =
              Z.of_nat (length (posts db)) - Z.of_nat (length (posts db')))
      as Hd.
    { rewrite Hp. subst deleted cutoff. unfold deleteOldPosts. cbn [posts].
      by case_bool_decide. }
    split; [done|]. split.
    { rewrite Hp. clear. induction (posts db) as [|x l IH]; cbn; [done|].
      destruct (in_window cutoff x); by constructor. }
    split.
    { intros r t Hin Hr. rewrite Hp, elem_of_filter_bool, in_window_spec.
      split.
      - intros Hn. destruct (decide (t < cutoff)); [done|].
        exfalso. apply Hn. split; [done|]. exists t. split; [done|lia].
      - intros Hlt [_ (t' & Ht' & Hle)]. rewrite Hr in Ht'.
        injection Ht' as ->. lia. }
    split.
    { intros r. rewrite Hp, elem_of_filter_bool, in_window_spec. tauto. }
    split; [done|]. split.
    + intros Hpos.
      assert (db' = save (mkDB (dbPath db) (posts db') (disk db))) as Hs.
      { rewrite Hp. subst db' deleted cutoff. unfold deleteOldPosts in *.
        cbn [posts] in *. revert Hpos. by case_bool_decide. }
      split; [done|]. intros Hw. rewrite Hs at 1 2. unfold save, writeFileSync.
      cbn [disk dbPath posts]. rewrite bool_decide_eq_false_2 by done.
      cbn [disk dbPath posts]. unfold readJson. cbn [files].
      by rewrite lookup_insert_eq.
    + intros H0. rewrite Hd in H0.
      assert (List.filter (in_window cutoff) (posts db) = posts db) as Hsame.
      { rewrite Hp in H0. clear -H0. revert H0.
        induction (posts db) as [|x l IH]; cbn; [done|].
        pose proof (length_filter_le (in_window cutoff) l).
        destruct (in_window cutoff x); cbn; intros H0; [|lia].
        f_equal. apply IH. lia. }
      subst db' deleted cutoff. unfold deleteOldPosts in *. cbn [posts] in *.
      rewrite Hsame. rewrite bool_decide_eq_false_2 by lia.
      cbn [snd]. by destruct db.
Qed.

(** C5. A record whose [created_at] is older than the retention window
    is not in the page [getPosts] returns.  The window of [daysBack]
    days (30 by default) starts at the instant whose local time is
    [daysBack] days before the local time of the call, which in a time
    zone without clock changes is [daysBack] times 24 hours before the
    call.  [deleteOldPosts] keeps the records within the window, in
    order, and drops the others: a record with a dated [created_at] is
    dropped exactly when it is older than the window.  When at least
    one record was dropped the reduced collection is saved, and is what
    the backing file holds once the write went through; when none was,
    store and file are untouched. *)
Theorem retention tz now :
  (forall o db r t,
     Row.created_at r = ISO t ->
     t < UTC tz (LocalTime tz now - Options.daysBack o * msPerDay) ->
     r ∉ page_posts (getPosts tz now o db)) /\
  Options.daysBack Options.defaults = 30 /\
  (fixed_offset tz ->
   (forall o db r t,
      Row.created_at r = ISO t ->
      t < now - Options.daysBack o * 24 * 60 * 60 * 1000 ->
      r ∉ page_posts (getPosts tz now o db)) /\
   (forall daysBack db r t,
      r ∈ posts db -> Row.created_at r = ISO t ->
      (r ∉ posts (deleteOldPosts tz now daysBack db).2 <->
       t < now - daysBack * 24 * 60 * 60 * 1000))) /\
  (forall daysBack db,
     let cutoff := UTC tz (LocalTime tz now - daysBack * msPerDay) in
     let deleted := (deleteOldPosts tz now daysBack db).1 in
     let db' := (deleteOldPosts tz now daysBack db).2 in
     posts db' = List.filter (in_window cutoff) (posts db) /\
     posts db' `sublist_of` posts db /\
     (forall r t, r ∈ posts db -> Row.created_at r = ISO t ->
        (r ∉ posts db' <-> t < cutoff)) /\
     (forall r, r ∈ posts db' -> r ∈ posts db /\
        exists t, Row.created_at r = ISO t /\ cutoff <= t) /\
     deleted = Z.of_nat (length (posts db)) - Z.of_nat (length (posts db')) /\
     (0 < deleted ->
        db' = save (mkDB (dbPath db) (posts db') (disk db)) /\
        (dbPath db ∉ locked (disk db) ->
           readJson (disk db') (dbPath db') = Some (posts db'))) /\
     (deleted = 0 -> db' = db)).
Proof.
  destruct (retention_cutoff tz now) as (Hq & Hdef & Hd).
  split; [exact Hq|]. split; [exact Hdef|]. split; [|exact Hd].
  intros Hfix. split.
  - intros o db r t Hr Ht. apply (Hq o db r t Hr).
    rewrite (cutoffDate_fixed tz now _ Hfix). unfold msPerDay. lia.
  - intros daysBack db r t Hin Hr.
    destruct (Hd daysBack db) as (_ & _ & H & _). cbv zeta in H.
    rewrite (H r t Hin Hr).
    fold (cutoffDate tz now daysBack).
    rewrite (cutoffDate_fixed tz now _ Hfix). unfold msPerDay. lia.
Qed.

(** ** The store: pagination *)

Lemma ceil_div_pos total limit :
  0 < limit ->
  exists k, ceil_div total limit = Num k /\
    (k - 1) * limit < total <= k * limit.
Proof.
  intros H. unfold ceil_div. rewrite bool_decide_eq_false_2 by lia.
  eexists. split; [done|].
  pose proof (Z.div_mod (- total) limit ltac:(lia)) as Hdm.
  pose proof (Z.mod_pos_bound (- total) limit H) as Hb.
  nia.
Qed.

Lemma slice_beyond {A} (l : list A) a b :
  Z.of_nat (length l) <= a -> 0 <= b -> slice l a b = [].
Proof.
  intros Ha Hb. unfold slice, relative_index.
  rewrite !bool_decide_eq_false_2 by lia.
  replace (Z.to_nat _) with O by lia. done.
Qed.

Lemma slice_page {A} (l : list A) a n :
  0 <= a -> 0 <= n ->
  slice l a (a + n) = take (Z.to_nat n) (drop (Z.to_nat a) l).
Proof.
  intros Ha Hn. unfold slice, relative_index.
  rewrite !bool_decide_eq_false_2 by lia.
  set (len := Z.of_nat (length l)).
  destruct (decide (len <= a)) as [Hle|Hgt].
  - rewrite !drop_ge by lia. by rewrite !take_nil.
  - replace (Z.min a len) with a by lia.
    destruct (decide (a + n <= len)).
    + replace (Z.min (a + n) len) with (a + n) by lia. do 2 f_equal. lia.
    + replace (Z.min (a + n) len) with len by lia.
      rewrite !take_ge; [done| |]; rewrite length_drop; lia.
Qed.

(** C6. In the page [getPosts] returns, [totalPages] is
    [Math.ceil(total / limit)], [hasNext] is [page < totalPages] and
    [hasPrev] is [page > 1], [total] being the size N of the filtered
    set.  For a positive page size L this is the least number of pages
    of L records that hold N records, [hasNext] tells that records
    remain after the page, a page from the first to the last holds the
    records of its rank, and a page beyond the last is empty. *)
Theorem pagination_correct tz now o db :
  let res := getPosts tz now o db in
  let N := Z.of_nat (length (filtered_posts tz now o db)) in
  let L := Options.limit o in
  let page := Options.page o in
  total (pagination res) = N /\
  totalPages (pagination res) = ceil_div N L /\
  hasNext (pagination res) = lt_number page (totalPages (pagination res)) /\
  (hasPrev (pagination res) = true <-> 1 < page) /\
  (0 < L ->
   exists k,
     totalPages (pagination res) = Num k /\
     (k - 1) * L < N <= k * L /\
     (hasNext (pagination res) = true <-> page < k) /\
     (hasNext (pagination res) = true <-> page * L < N) /\
     (1 <= page ->
        page_posts res =
        take (Z.to_nat L)
          (drop (Z.to_nat ((page - 1) * L)) (filtered_posts tz now o db))) /\
     (k < page -> page_posts res = [])).
Proof.
  intros res N L page. subst res. unfold getPosts.
  cbn [pagination page_posts total totalPages hasNext hasPrev].
  fold N L page.
  split; [done|]. split; [done|]. split; [done|].
  split; [by rewrite bool_decide_eq_true|].
  intros HL. destruct (ceil_div_pos N L HL) as (k & Hk & Hlo & Hhi).
  exists k. rewrite Hk. cbn [lt_number]. rewrite bool_decide_eq_true.
  split; [done|]. split; [done|]. split; [done|].
  split; [split; nia|]. split.
  - intros Hp. apply slice_page; nia.
  - intros Hp. apply slice_beyond; fold N; nia.
Qed.

(** ** The store: restore *)

Lemma readJson_save db :
  dbPath db ∉ locked (disk db) ->
  readJson (disk (save db)) (dbPath db) = Some (posts db).
Proof.
  intros H. unfold save, writeFileSync.
  rewrite bool_decide_eq_false_2 by done. unfold readJson. cbn [disk files].
  by rewrite lookup_insert_eq.
Qed.

(** C9. [restore] of a snapshot path that does not exist fails: its
    [try] block throws the error "Backup file not found", the call
    returns [false], and the collection (the whole store) is left as it
    was.  When the snapshot exists and parses, the call returns [true],
    the collection is the snapshot's, whatever it was before, and it is
    saved: the backing file holds it once the write went through.  A
    snapshot that does not parse fails like a missing one. *)
Theorem restore_correct backupFile db :
  (files (disk db) !! backupFile = None ->
     restore_try backupFile db =
       inl (Error ("Backup file not found: " +:+ backupFile)) /\
     restore backupFile db = (false, db)) /\
  (forall rows,
     files (disk db) !! backupFile = Some (Json rows) ->
     let db' := (restore backupFile db).2 in
     (restore backupFile db).1 = true /\
     posts db' = rows /\
     db' = save (mkDB (dbPath db) rows (disk db)) /\
     (dbPath db ∉ locked (disk db) ->
        readJson (disk db') (dbPath db') = Some rows)) /\
  (forall raw,
     files (disk db) !! backupFile = Some (Garbage raw) ->
     restore backupFile db = (false, db)).
Proof.
  split; [|split].
  - intros Hnone. unfold restore, restore_try, existsSync. rewrite Hnone.
    rewrite bool_decide_eq_false_2; [done|]. by intros [? ?].
  - intros rows Hsome db'. subst db'.
    unfold restore, restore_try, existsSync, readJson. rewrite Hsome.
    rewrite bool_decide_eq_true_2 by by eexists.
    cbn [negb fst snd]. rewrite posts_save, dbPath_save. cbn [posts dbPath].
    split; [done|]. split; [done|]. split; [done|].
    intros Hw. by apply (readJson_save (mkDB (dbPath db) rows (disk db))).
  - intros raw Hsome.
    unfold restore, restore_try, existsSync, readJson. rewrite Hsome.
    by rewrite bool_decide_eq_true_2 by by eexists.
Qed.

(** ** The aggregator: relevance filter *)

Lemma append_cons x (s t : string) : String x s +:+ t = String x (s +:+ t).
Proof. done. Qed.

Lemma append_nil (t : string) : "" +:+ t = t.
Proof. done. Qed.

Lemma prefix_spec sub s :
  String.prefix sub s = true <-> exists post, s = sub +:+ post.
Proof.
  revert s. induction sub as [|a sub IH]; intros s.
  - split; [by exists s|by destruct s].
  - destruct s as [|b s]; cbn [String.prefix].
    + split; [done|]. by intros [? ?].
    + destruct (Ascii.ascii_dec a b) as [->|Hne].
      * rewrite IH. split; intros [post H]; exists post.
        -- by rewrite append_cons, H.
        -- rewrite append_cons in H. congruence.
      * split; [done|]. intros [post H]. rewrite append_cons in H.
        congruence.
Qed.

Lemma includes_spec s sub :
  includes s sub = true <-> exists pre post, s = pre +:+ sub +:+ post.
Proof.
  induction s as [|a s IH]; cbn [includes].
  - rewrite orb_false_r, prefix_spec. split.
    + intros [post H]. by exists "", post.
    + intros (pre & post & H). destruct pre; [by exists post|done].
  - rewrite orb_true_iff, prefix_spec, IH. split.
    + intros [[post H]|(pre & post & H)].
      * by exists "", post.
      * exists (String a pre), post. by rewrite append_cons, H.
    + intros (pre & post & H). destruct pre as [|b pre].
      * left. by exists post.
      * right. rewrite append_cons in H. injection H as _ H.
        by exists pre, post.
Qed.

Lemma toLowerCase_app a b :
  toLowerCase (a +:+ b) = toLowerCase a +:+ toLowerCase b.
Proof.
  induction a as [|x a IH]; [done|].
  rewrite !append_cons. cbn [toLowerCase]. by rewrite append_cons, IH.
Qed.

Lemma toLowerCase_split s a b :
  toLowerCase s = a +:+ b ->
  exists s1 s2, s = s1 +:+ s2 /\ toLowerCase s1 = a /\ toLowerCase s2 = b.
Proof.
  revert s. induction a as [|x a IH]; intros s H.
  - by exists "", s.
  - destruct s as [|y s]; [done|]. cbn [toLowerCase] in H.
    rewrite append_cons in H. injection H as Hx H.
    destruct (IH s H) as (s1 & s2 & -> & <- & <-).
    exists (String y s1), s2. rewrite append_cons. cbn [toLowerCase].
    by rewrite Hx.
Qed.

(** Every character is among the 256 code units. *)
Lemma all_units a : a ∈ (Ascii.ascii_of_nat <$> seq 0 256).
Proof.
  apply list_elem_of_fmap. exists (Ascii.nat_of_ascii a).
  split; [by rewrite Ascii.ascii_nat_embedding|].
  apply elem_of_seq. pose proof (Ascii.nat_ascii_bounded a). lia.
Qed.

(** [toLowerCase] identifies exactly the characters that are the same
    letter: checked on every pair of code units. *)
Lemma lower_unit_same_letter a b :
  lower_unit a = lower_unit b <-> same_letter a b.
Proof.
  assert (forallb
            (fun x => forallb
               (fun y => Bool.eqb (bool_decide (lower_unit x = lower_unit y))
                           (bool_decide (same_letter x y)))
               (Ascii.ascii_of_nat <$> seq 0 256))
            (Ascii.ascii_of_nat <$> seq 0 256) = true) as H
    by (vm_compute; reflexivity).
  rewrite forallb_forall in H.
  specialize (H a (proj1 (list_elem_of_In _ _) (all_units a))).
  rewrite forallb_forall in H.
  specialize (H b (proj1 (list_elem_of_In _ _) (all_units b))).
  apply Bool.eqb_prop in H.
  rewrite <- (bool_decide_spec (lower_unit a = lower_unit b)).
  rewrite <- (bool_decide_spec (same_letter a b)). by rewrite H.
Qed.

Lemma toLowerCase_eq_ci s t : toLowerCase s = toLowerCase t <-> eq_ci s t.
Proof.
  revert t. induction s as [|a s IH]; intros [|b t]; cbn [toLowerCase eq_ci];
    try (split; [discriminate|done]); [done|].
  rewrite <- IH, <- lower_unit_same_letter. split.
  - by intros [= -> ->].
  - by intros [-> ->].
Qed.

Lemma eq_ci_lower s : eq_ci (toLowerCase s) s.
Proof.
  induction s as [|a s IH]; [done|]. cbn [toLowerCase eq_ci]. split; [|done].
  apply lower_unit_same_letter.
  assert (forallb
            (fun x => bool_decide (lower_unit (lower_unit x) = lower_unit x))
            (Ascii.ascii_of_nat <$> seq 0 256) = true) as H
    by (vm_compute; reflexivity).
  rewrite forallb_forall in H.
  specialize (H a (proj1 (list_elem_of_In _ _) (all_units a))).
  by apply bool_decide_eq_true in H.
Qed.

Lemma includes_lower text kw :
  includes (toLowerCase text) (toLowerCase kw) = true <-> contains_ci text kw.
Proof.
  rewrite includes_spec. unfold contains_ci. split.
  - intros (a & b & H).
    apply toLowerCase_split in H as (pre & rest & -> & <- & H).
    apply toLowerCase_split in H as (mid & post & -> & H & <-).
    exists pre, mid, post. split; [done|]. by apply toLowerCase_eq_ci.
  - intros (pre & mid & post & -> & H). apply toLowerCase_eq_ci in H.
    exists (toLowerCase pre), (toLowerCase post).
    by rewrite !toLowerCase_app, H.
Qed.

Lemma or_str_empty s : or_str s "" = s.
Proof. unfold or_str. by case_bool_decide. Qed.

Lemma hasKeyword_spec keywords post :
  hasKeyword keywords post = true <->
  exists kw, kw ∈ keywords /\
    (contains_ci (Child.title post) kw \/
     contains_ci (Child.selftext post) kw).
Proof.
  unfold hasKeyword. rewrite existsb_exists, or_str_empty.
  split; intros (kw & Hin & H); exists kw;
    rewrite orb_true_iff, !includes_lower in *;
    (split; [by apply list_elem_of_In|done]).
Qed.

Lemma dedicated_spec subreddit :
  toLowerCase subreddit ∈ DEDICATED_SUBS <-> dedicated subreddit.
Proof.
  unfold DEDICATED_SUBS, dedicated. rewrite elem_of_list_to_set. split.
  - intros H. exists (toLowerCase subreddit). split; [done|].
    apply toLowerCase_eq_ci. symmetry. apply toLowerCase_eq_ci, eq_ci_lower.
  - intros (name & Hin & H). apply toLowerCase_eq_ci in H. rewrite H.
    repeat (apply elem_of_cons in Hin as [->|Hin];
            [apply (bool_decide_unpack _); vm_compute; exact I|]).
    by apply elem_of_nil in Hin.
Qed.

(** C7. For a post within the 30-day window: in a dedicated subreddit it
    is kept whatever its text; in any other subreddit it is kept exactly
    when its title or its body contains one of the configured keywords
    as a case-insensitive substring.  A successful fetch returns the
    kept posts of the listing, in order. *)
Theorem relevance_filter now subreddit post :
  now - 30 * 24 * 60 * 60 * 1000 <= Child.created_utc post * 1000 ->
  (dedicated subreddit -> keepPost now subreddit post = true) /\
  (~ dedicated subreddit ->
     (keepPost now subreddit post = true <->
      exists kw, kw ∈ ALL_KEYWORDS /\
        (contains_ci (Child.title post) kw \/
         contains_ci (Child.selftext post) kw))) /\
  (forall r listing,
     response r 1 = Some listing ->
     (fetchSubredditPosts r subreddit 3).1 =
       toItem <$> List.filter (keepPost (clock r 1) subreddit) listing).
Proof.
  intros Hw. unfold keepPost. rewrite bool_decide_eq_false_2 by lia.
  split; [|split].
  - intros Hd. apply dedicated_spec in Hd. by rewrite bool_decide_eq_true_2.
  - intros Hd. rewrite <- dedicated_spec in Hd.
    rewrite bool_decide_eq_false_2 by done. apply hasKeyword_spec.
  - intros r listing Hr. unfold fetchSubredditPosts.
    change (Z.to_nat 3) with 3%nat. cbn [attempts]. by rewrite Hr.
Qed.

(** ** The aggregator: retries *)

Lemma attempts_requests_le remaining attempt retries r subreddit :
  (length (requests (attempts remaining attempt retries r subreddit).2)
   <= remaining)%nat.
Proof.
  revert attempt. induction remaining as [|n IH]; intros attempt; [done|].
  cbn [attempts]. case_bool_decide; [|cbn; lia].
  destruct (response r attempt); [cbn; lia|].
  case_bool_decide; [|cbn; lia].
  specialize (IH (attempt + 1)).
  destruct (attempts n (attempt + 1) retries r subreddit) as [items effects].
  cbn in *. lia.
Qed.

(** The fuel of [attempts] never cuts the loop short: any amount from
    [retries - attempt + 1] up gives the same run, which is the run of
    the [for] loop. *)
Lemma attempts_enough fuel attempt retries r subreddit :
  (Z.to_nat (retries - attempt + 1) <= fuel)%nat ->
  attempts fuel attempt retries r subreddit =
  attempts (Z.to_nat (retries - attempt + 1)) attempt retries r subreddit.
Proof.
  revert attempt. induction fuel as [|n IH]; intros attempt Hn.
  - by replace (Z.to_nat (retries - attempt + 1)) with O by lia.
  - destruct (decide (attempt <= retries)) as [Hle|Hgt].
    + replace (Z.to_nat (retries - attempt + 1))
        with (S (Z.to_nat (retries - (attempt + 1) + 1))) in * by lia.
      cbn [attempts]. case_bool_decide; [|done].
      destruct (response r attempt); [done|].
      case_bool_decide; [|done]. rewrite IH by lia. done.
    + replace (Z.to_nat (retries - attempt + 1)) with O by lia.
      cbn [attempts]. by rewrite bool_decide_eq_false_2.
Qed.

(** C8, as the code has it. [fetchSubredditPosts] makes at most three
    requests for a target.  After the first failure it waits 3^1 seconds
    and after the second 3^2 seconds; after the third failure it returns
    the empty list at once, without a wait.  The four courses a fetch
    can take are listed with the items they return. *)
Theorem retry_backoff r subreddit :
  let res := fetchSubredditPosts r subreddit 3 in
  let kept attempt listing :=
    toItem <$> List.filter (keepPost (clock r attempt) subreddit) listing in
  (length (requests res.2) <= 3)%nat /\
  (forall l1, response r 1 = Some l1 -> res = (kept 1 l1, [Request 1])) /\
  (forall l2, response r 1 = None -> response r 2 = Some l2 ->
     res = (kept 2 l2, [Request 1; Wait (3 ^ 1 * 1000); Request 2])) /\
  (forall l3,
     response r 1 = None -> response r 2 = None -> response r 3 = Some l3 ->
     res = (kept 3 l3,
            [Request 1; Wait (3 ^ 1 * 1000);
             Request 2; Wait (3 ^ 2 * 1000); Request 3])) /\
  (response r 1 = None -> response r 2 = None -> response r 3 = None ->
     res = ([],
            [Request 1; Wait (3 ^ 1 * 1000);
             Request 2; Wait (3 ^ 2 * 1000); Request 3])).
Proof.
  intros res kept. subst res kept. unfold fetchSubredditPosts.
  split; [apply attempts_requests_le|].
  change (Z.to_nat 3) with 3%nat. cbn [attempts].
  change (1 + 1) with 2. change (2 + 1) with 3.
  repeat split.
  - by intros l1 ->.
  - by intros l2 -> ->.
  - by intros l3 -> -> ->.
  - by intros -> -> ->.
Qed.

(** ** The aggregator: one cycle *)

Lemma elem_of_dedupe seen l q :
  q ∈ dedupe seen l <->
  (Post.reddit_id q ∉ seen) /\ first_with_id q l = Some q.
Proof.
  unfold first_with_id. revert seen.
  induction l as [|p rest IH]; intros seen; cbn [dedupe List.find].
  - split; [by intros ?%elem_of_nil|by intros [_ ?]].
  - case_bool_decide as Hseen.
    + rewrite IH. split.
      * intros [Hq Hf]. split; [done|].
        rewrite bool_decide_eq_false_2; [done|]. congruence.
      * intros [Hq Hf]. split; [done|].
        rewrite bool_decide_eq_false_2 in Hf; [done|]. congruence.
    + rewrite elem_of_cons, IH. split.
      * intros [->|[Hq Hf]].
        -- split; [done|]. by rewrite bool_decide_eq_true_2.
        -- split; [set_solver|].
           rewrite bool_decide_eq_false_2; [done|]. set_solver.
      * intros [Hq Hf]. case_bool_decide as Hid.
        -- left. congruence.
        -- right. split; [set_solver|done].
Qed.

Lemma dedupe_sublist seen l : dedupe seen l `sublist_of` l.
Proof.
  revert seen. induction l as [|p rest IH]; intros seen; cbn [dedupe].
  - done.
  - case_bool_decide; by constructor.
Qed.

Lemma dedupe_NoDup seen l : NoDup (Post.reddit_id <$> dedupe seen l).
Proof.
  revert seen. induction l as [|p rest IH]; intros seen; cbn [dedupe].
  - constructor.
  - case_bool_decide; [done|]. cbn. constructor; [|done].
    rewrite list_elem_of_fmap. intros (q & Hid & Hq).
    apply elem_of_dedupe in Hq as [Hq _]. set_solver.
Qed.

Lemma dedupe_covers seen l p :
  p ∈ l -> Post.reddit_id p ∉ seen ->
  exists q, q ∈ dedupe seen l /\ Post.reddit_id q = Post.reddit_id p.
Proof.
  revert seen. induction l as [|x rest IH]; intros seen Hin Hseen.
  - by apply elem_of_nil in Hin.
  - cbn [dedupe]. apply elem_of_cons in Hin as [->|Hin].
    + rewrite bool_decide_eq_false_2 by done. exists x. split; [|done].
      apply list_elem_of_here.
    + case_bool_decide as Hx; [by apply IH|].
      destruct (decide (Post.reddit_id x = Post.reddit_id p)) as [He|Hne].
      * exists x. split; [apply list_elem_of_here|done].
      * destruct (IH ({[Post.reddit_id x]} ∪ seen) Hin) as (q & Hq & Hid);
          [set_solver|].
        exists q. split; [by apply list_elem_of_further|done].
Qed.

Lemma concat_yielded (gs : list (list Post.t)) :
  concat (List.filter yielded gs) = concat gs.
Proof.
  induction gs as [|g gs IH]; [done|].
  cbn [List.filter]. destruct g; cbn [yielded concat]; by rewrite IH.
Qed.

Lemma merge_sources_groups curated s :
  merge_sources curated s = concat (groups curated s).
Proof.
  done.
Qed.

Lemma store_cycle_result clk curated s db :
  (store_cycle clk curated s db).1 = dedupe ∅ (merge_sources curated s).
Proof. unfold store_cycle. by case_bool_decide. Qed.

Lemma concat_all_nil (gs : list (list Post.t)) :
  Forall (fun g => g = []) gs -> concat gs = [].
Proof. induction 1 as [|g gs -> _ IH]; [done|]. done. Qed.

Lemma attempts_all_fail remaining attempt retries r subreddit :
  (forall a, response r a = None) ->
  (attempts remaining attempt retries r subreddit).1 = [].
Proof.
  intros H. revert attempt.
  induction remaining as [|n IH]; intros attempt; [done|].
  cbn [attempts]. rewrite H. do 2 (case_bool_decide; [|done]).
  specialize (IH (attempt + 1)).
  by destruct (attempts n (attempt + 1) retries r subreddit).
Qed.

Lemma fetchReddit_all_fail remote :
  (forall sub a, response (remote sub) a = None) ->
  Forall (fun g => g = []) (fetchReddit remote).
Proof.
  intros H. unfold fetchReddit. apply Forall_forall. intros g Hg.
  apply list_elem_of_In, in_map_iff in Hg as (sub & <- & _).
  unfold fetchSubredditPosts. by apply attempts_all_fail.
Qed.

Lemma dedupe_curated now :
  dedupe ∅ (getCuratedResources now) = getCuratedResources now.
Proof. vm_compute. reflexivity. Qed.

(** C4, as the code has it. A cycle concatenates the results in the
    fixed order curated, blog, Hacker News, GitHub, Dev.to, Reddit, and
    returns the deduplication of that list: no id twice, the order of
    the concatenation kept, and for every id the first item that
    carries it.  A source that returned nothing does not show: the
    result is the deduplication of the results that yielded items.
    When all five adapters fail the cycle still returns, and what it
    returns is the list of curated entries, which is never empty. *)
Theorem cycle_result clk curated s db :
  let all := merge_sources curated s in
  let res := (store_cycle clk curated s db).1 in
  all = curated ++ blog s ++ hn s ++ gh s ++ devto s
          ++ concat (redditResults s) /\
  res `sublist_of` all /\
  NoDup (Post.reddit_id <$> res) /\
  (forall q, q ∈ res <-> first_with_id q all = Some q) /\
  (forall p, p ∈ all ->
     exists q, q ∈ res /\ Post.reddit_id q = Post.reddit_id p) /\
  res = dedupe ∅ (concat (List.filter yielded (groups curated s))) /\
  (blog s = [] -> hn s = [] -> gh s = [] -> devto s = [] ->
   Forall (fun g => g = []) (redditResults s) ->
   res = dedupe ∅ curated) /\
  (forall now remote,
     (forall sub a, response (remote sub) a = None) ->
     (fetchAllPosts now clk remote [] [] [] [] db).1
       = getCuratedResources now /\
     length (getCuratedResources now) = 8%nat).
Proof.
  intros all res. subst res. rewrite store_cycle_result. fold all.
  split; [done|]. split; [apply dedupe_sublist|].
  split; [apply dedupe_NoDup|]. split.
  { intros q. rewrite elem_of_dedupe. set_solver. }
  split.
  { intros p Hp. apply dedupe_covers; [done|set_solver]. }
  split.
  { by rewrite concat_yielded, <- merge_sources_groups. }
  split.
  - intros Hb Hh Hg Hd Hr. subst all. unfold merge_sources.
    rewrite Hb, Hh, Hg, Hd, (concat_all_nil _ Hr). cbn [app].
    by rewrite app_nil_r.
  - intros now remote Hfail. split; [|done].
    unfold fetchAllPosts. rewrite store_cycle_result.
    unfold merge_sources. cbn [blog hn gh devto redditResults].
    rewrite (concat_all_nil _ (fetchReddit_all_fail _ Hfail)). cbn [app].
    rewrite app_nil_r. apply dedupe_curated.
Qed.

Lemma dedupe_app seen a b :
  dedupe seen (a ++ b) =
  dedupe seen a ++ dedupe (list_to_set (Post.reddit_id <$> a) ∪ seen) b.
Proof.
  revert seen. induction a as [|p a IH]; intros seen.
  - cbn. f_equal. set_solver.
  - cbn [app dedupe fmap list_fmap]. case_bool_decide as Hseen.
    + rewrite IH. do 2 f_equal. set_solver.
    + rewrite IH. cbn [app]. do 3 f_equal. set_solver.
Qed.


(** ** The store: loading and persistence *)

Lemma files_save db :
  dbPath db ∉ locked (disk db) ->
  files (disk (save db)) = <[dbPath db := Json (posts db)]> (files (disk db)).
Proof.
  intros H. unfold save, writeFileSync.
  by rewrite bool_decide_eq_false_2 by done.
Qed.

Lemma locked_save db : locked (disk (save db)) = locked (disk db).
Proof.
  unfold save, writeFileSync. case_bool_decide; done.
Qed.

Lemma save_locked db : dbPath db ∈ locked (disk db) -> save db = db.
Proof.
  intros H. unfold save, writeFileSync. by rewrite bool_decide_eq_true_2.
Qed.

(** X1. What [save] wrote, [load] reads back: reloading a store whose
    backing file could be written gives the same collection, and the
    file is as [save] left it. *)
Theorem load_save db :
  dbPath db ∉ locked (disk db) ->
  load (save db) = save db /\ posts (load (save db)) = posts db.
Proof.
  intros H. assert (load (save db) = save db) as Hl.
  { unfold load. rewrite dbPath_save.
    pose proof (readJson_save db H) as Hr.
    unfold existsSync. unfold readJson in Hr |- *.
    destruct (files (disk (save db)) !! dbPath db) as [[rows|raw]|] eqn:E;
      try discriminate Hr.
    injection Hr as ->. rewrite bool_decide_eq_true_2 by by eexists.
    rewrite <- (posts_save db) at 1. rewrite <- (dbPath_save db) at 1.
    by destruct (save db). }
  split; [done|]. by rewrite Hl, posts_save.
Qed.

Lemma load_json path fs rows :
  files fs !! path = Some (Json rows) ->
  load (mkDB path [] fs) = mkDB path rows fs.
Proof.
  intros Hj. unfold load, existsSync, readJson.
  cbn [disk dbPath]. rewrite Hj.
  by rewrite bool_decide_eq_true_2 by by eexists.
Qed.

(** X2. Opening a store throws when [ensureDirectories] does, and
    returns a store otherwise, whatever the backing file is like.
    Without a backing file the store starts empty and creates the file,
    holding the empty collection (when the path can be written; the
    file system is left alone when it cannot); over a file that does
    not parse it starts empty and leaves the file and the rest of the
    file system alone; over a file that parses it holds the file's
    collection. *)
Theorem open_database_cases path fs :
  open_database false path fs = None /\
  exists db,
    open_database true path fs = Some db /\
    dbPath db = path /\
    (files fs !! path = None ->
       posts db = [] /\
       (path ∉ locked fs -> readJson (disk db) path = Some []) /\
       (path ∈ locked fs -> disk db = fs)) /\
    (forall raw, files fs !! path = Some (Garbage raw) ->
       db = mkDB path [] fs) /\
    (forall rows, files fs !! path = Some (Json rows) ->
       db = mkDB path rows fs).
Proof.
  split; [done|]. unfold open_database. eexists. split; [reflexivity|].
  unfold load, existsSync, readJson. cbn [disk dbPath].
  destruct (files fs !! path) as [[rows|raw]|] eqn:E.
  - rewrite bool_decide_eq_true_2 by by eexists.
    repeat split; try done. by intros rows' [= ->].
  - rewrite bool_decide_eq_true_2 by by eexists. done.
  - rewrite bool_decide_eq_false_2 by by intros [? ?].
    split; [by rewrite dbPath_save|]. split; [|done].
    intros _. split; [by rewrite posts_save|]. split.
    + intros Hw. by apply (readJson_save (mkDB path [] fs)).
    + intros Hl. by rewrite (save_locked (mkDB path [] fs)).
Qed.

Lemma upsertPost_disk c post db :
  (upsertPost c post db).2 =
  save (mkDB (dbPath db) (put c post (posts db)) (disk db)).
Proof.
  pose proof (upsertPost_put c post db) as H. unfold upsertPost in *.
  cbn [snd] in *. rewrite posts_save in H. cbn [posts] in H. by rewrite H.
Qed.

Lemma dbPath_upsertPosts clk batch db :
  dbPath (upsertPosts clk batch db).2 = dbPath db.
Proof.
  revert clk db. induction batch as [|p rest IH]; intros clk db; [done|].
  rewrite upsertPosts_cons, IH, upsertPost_disk. by rewrite dbPath_save.
Qed.

Lemma locked_upsertPosts clk batch db :
  locked (disk (upsertPosts clk batch db).2) = locked (disk db).
Proof.
  revert clk db. induction batch as [|p rest IH]; intros clk db; [done|].
  rewrite upsertPosts_cons, IH, upsertPost_disk. by rewrite locked_save.
Qed.

Lemma upsertPosts_file clk batch db :
  batch <> [] -> dbPath db ∉ locked (disk db) ->
  readJson (disk (upsertPosts clk batch db).2)
    (dbPath (upsertPosts clk batch db).2)
    = Some (posts (upsertPosts clk batch db).2) /\
  (forall path, path <> dbPath db ->
     files (disk (upsertPosts clk batch db).2) !! path
     = files (disk db) !! path).
Proof.
  revert clk db. induction batch as [|p rest IH]; intros clk db Hne Hw;
    [done|].
  rewrite upsertPosts_cons.
  set (db1 := (upsertPost (clk O) p db).2).
  assert (dbPath db1 = dbPath db) as Hp
    by (subst db1; by rewrite upsertPost_disk, dbPath_save).
  assert (locked (disk db1) = locked (disk db)) as Hlk
    by (subst db1; by rewrite upsertPost_disk, locked_save).
  assert (readJson (disk db1) (dbPath db1) = Some (posts db1) /\
          forall path, path <> dbPath db ->
            files (disk db1) !! path = files (disk db) !! path) as [H1 H2].
  { subst db1. rewrite upsertPost_disk.
    set (d := mkDB (dbPath db) (put (clk O) p (posts db)) (disk db)).
    split.
    - rewrite dbPath_save, posts_save. by apply (readJson_save d).
    - intros path Hpath. rewrite (files_save d) by done.
      by rewrite lookup_insert_ne. }
  destruct rest as [|q rest]; [done|].
  destruct (IH (fun i => clk (S i)) db1 ltac:(done)) as [H3 H4];
    [by rewrite Hp, Hlk|].
  split; [done|]. intros path Hpath. rewrite H4 by by rewrite Hp.
  by apply H2.
Qed.

(** X3. After a batch that holds at least one item, the backing file
    holds exactly the collection in memory, provided the file can be
    written; no other file is touched.  When the file cannot be
    written, the collection in memory is updated all the same and the
    file system stays as it was.  An empty batch changes nothing. *)
Theorem upsertPosts_persists clk batch db :
  let db' := (upsertPosts clk batch db).2 in
  (batch <> [] -> dbPath db ∉ locked (disk db) ->
     readJson (disk db') (dbPath db') = Some (posts db') /\
     (forall path, path <> dbPath db ->
        files (disk db') !! path = files (disk db) !! path)) /\
  (dbPath db ∈ locked (disk db) ->
     disk db' = disk db /\
     posts db' = puts (paired clk batch) (posts db)) /\
  (batch = [] -> db' = db).
Proof.
  intros db'. subst db'. split; [|split].
  - intros Hne Hw. by apply upsertPosts_file.
  - revert clk db. induction batch as [|p rest IH]; intros clk db Hl; [done|].
    rewrite upsertPosts_cons.
    set (db1 := (upsertPost (clk O) p db).2).
    assert (db1 = mkDB (dbPath db) (put (clk O) p (posts db)) (disk db))
      as Hdb1 by (subst db1; rewrite upsertPost_disk; by apply save_locked).
    destruct (IH (fun i => clk (S i)) db1) as [H1 H2];
      [by rewrite Hdb1|].
    rewrite H1, H2, Hdb1. done.
  - by intros ->.
Qed.

(** X4. A store opened on the file system a batch left behind holds the
    collection the batch produced: what was upserted survives a restart,
    as long as the backing file can be written (and the constructor
    gets past its directories). *)
Theorem reopen_after_batch clk batch db :
  batch <> [] -> dbPath db ∉ locked (disk db) ->
  let db' := (upsertPosts clk batch db).2 in
  posts (load (mkDB (dbPath db) [] (disk db'))) = posts db' /\
  forall dirs_ok,
    posts <$> open_database dirs_ok (dbPath db) (disk db')
    = if dirs_ok then Some (posts db') else None.
Proof.
  intros Hne Hw db'.
  destruct (upsertPosts_file clk batch db Hne Hw) as [Hr _]. fold db' in Hr.
  assert (dbPath db' = dbPath db) as Hp by apply dbPath_upsertPosts.
  rewrite Hp in Hr. unfold readJson in Hr.
  destruct (files (disk db') !! dbPath db) as [[rows|raw]|] eqn:E;
    try discriminate Hr.
  injection Hr as ->. unfold open_database.
  rewrite (load_json _ _ _ E). split; [done|]. by intros [].
Qed.

(** X5. Lookup after upsert: [getPost] under the item's id finds the
    record [upsertPost] returned, whether the id was new or not, and
    the lookup of any other id is unaffected.  A lookup finds a record
    exactly when the id is held. *)
Theorem getPost_upsertPost c post db :
  getPost (Post.reddit_id post) (upsertPost c post db).2
    = Some (upsertPost c post db).1 /\
  (forall k, k <> Post.reddit_id post ->
     getPost k (upsertPost c post db).2 = getPost k db) /\
  (forall k, is_Some (getPost k db) <-> k ∈ ids (posts db)).
Proof.
  split; [|split].
  - rewrite upsertPost_result. unfold getPost. rewrite upsertPost_put.
    fold (same_id post). by rewrite find_put.
  - intros k Hk. unfold getPost. rewrite upsertPost_put.
    by apply find_put_other.
  - intros k. unfold getPost, ids. generalize (posts db). intros rows.
    induction rows as [|r t IH]; cbn [List.find fmap list_fmap].
    + split; [by intros [? ?]|by intros ?%elem_of_nil].
    + case_bool_decide as Hr.
      * split; [intros _; rewrite Hr; apply list_elem_of_here|by eexists].
      * rewrite IH, elem_of_cons. naive_solver.
Qed.

(** ** The store: queries *)

Lemma contains_ci_empty kw : kw <> "" -> ~ contains_ci "" kw.
Proof.
  intros Hkw (pre & mid & post & H & Hm).
  destruct pre; [|done]. rewrite append_nil in H.
  destruct mid; [|done]. by destruct kw.
Qed.

Lemma sublist_filter_bool {A} (f : A -> bool) (l : list A) :
  List.filter f l `sublist_of` l.
Proof.
  induction l as [|x l IH]; cbn; [done|]. destruct (f x); by constructor.
Qed.

Lemma elem_of_filter_if {A} (b : bool) (f : A -> bool) (l : list A) x :
  x ∈ (if b then List.filter f l else l) <->
  x ∈ l /\ (b = true -> f x = true).
Proof.
  destruct b; [rewrite elem_of_filter_bool|]; naive_solver.
Qed.

(** The four filters of [getPosts], before the sort. *)
Lemma filtered_posts_sublist tz now o db :
  exists kept,
    kept `sublist_of` posts db /\
    filtered_posts tz now o db =
      sort_by (compare_rows (Options.sortBy o) (Options.sortOrder o)) kept.
Proof.
  unfold filtered_posts. eexists. split; [|reflexivity].
  repeat case_bool_decide;
    repeat (etrans; [apply sublist_filter_bool|]); done.
Qed.

(** X6. The records [getPosts] pages through are exactly the records of
    the collection that pass all four filters: dated within the window,
    with at least [minUpvotes] when that is positive, of a subreddit
    containing the [subreddit] option when one is given, and with the
    search term in title, author or content when one is given (both up
    to letter case).  The window starts at the instant whose local time
    is [daysBack] days before the local time of the call: [daysBack]
    times 24 hours before the call in a time zone without clock
    changes.  No record is repeated: the set is a rearrangement of part
    of the collection. *)
Theorem getPosts_filters tz now o db :
  (forall r,
     r ∈ filtered_posts tz now o db <->
     r ∈ posts db /\
     (exists t, Row.created_at r = ISO t /\
                UTC tz (LocalTime tz now - Options.daysBack o * msPerDay)
                <= t) /\
     (0 < Options.minUpvotes o -> Options.minUpvotes o <= Row.upvotes r) /\
     (Options.subreddit o <> "" ->
        contains_ci (Row.subreddit r) (Options.subreddit o)) /\
     (Options.search o <> "" ->
        contains_ci (Row.title r) (Options.search o) \/
        contains_ci (Row.author r) (Options.search o) \/
        contains_ci (Row.content r) (Options.search o))) /\
  (fixed_offset tz ->
   forall r, r ∈ filtered_posts tz now o db ->
     exists t, Row.created_at r = ISO t /\
               now - Options.daysBack o * 24 * 60 * 60 * 1000 <= t) /\
  (exists kept,
     kept `sublist_of` posts db /\ filtered_posts tz now o db ≡ₚ kept).
Proof.
  assert (forall r,
     r ∈ filtered_posts tz now o db <->
     r ∈ posts db /\
     (exists t, Row.created_at r = ISO t /\
                UTC tz (LocalTime tz now - Options.daysBack o * msPerDay)
                <= t) /\
     (0 < Options.minUpvotes o -> Options.minUpvotes o <= Row.upvotes r) /\
     (Options.subreddit o <> "" ->
        contains_ci (Row.subreddit r) (Options.subreddit o)) /\
     (Options.search o <> "" ->
        contains_ci (Row.title r) (Options.search o) \/
        contains_ci (Row.author r) (Options.search o) \/
        contains_ci (Row.content r) (Options.search o))) as Hiff.
  { intros r. unfold filtered_posts. rewrite sort_by_Permutation.
    rewrite !elem_of_filter_if, elem_of_filter_bool, in_window_spec.
    rewrite !bool_decide_eq_true, includes_lower.
    change (cutoffDate tz now (Options.daysBack o))
      with (UTC tz (LocalTime tz now - Options.daysBack o * msPerDay)).
    assert (Options.search o <> "" ->
            (includes (toLowerCase (Row.title r))
               (toLowerCase (Options.search o))
             || includes (toLowerCase (Row.author r))
                  (toLowerCase (Options.search o))
             || negb (bool_decide (Row.content r = ""))
                && includes (toLowerCase (Row.content r))
                     (toLowerCase (Options.search o)) = true <->
             contains_ci (Row.title r) (Options.search o) \/
             contains_ci (Row.author r) (Options.search o) \/
             contains_ci (Row.content r) (Options.search o))) as Hsearch.
    { intros Hs.
      rewrite !orb_true_iff, andb_true_iff, negb_true_iff,
        bool_decide_eq_false, !includes_lower.
      split; [tauto|]. intros [?|[?|Hc]]; [tauto|tauto|].
      right. split; [|done]. intros He. rewrite He in Hc.
      by eapply contains_ci_empty. }
    split.
    + intros ((((Hin & Hw) & Hu) & Hsub) & Hq).
      repeat split; try done. intros Hs. by apply Hsearch, Hq.
    + intros (Hin & Hw & Hu & Hsub & Hq).
      repeat split; try done. intros Hs. by apply Hsearch, Hq. }
  split; [exact Hiff|]. split.
  - intros Hfix r Hr. apply Hiff in Hr as (_ & (t & Ht & Hle) & _).
    exists t. split; [done|].
    pose proof (cutoffDate_fixed tz now (Options.daysBack o) Hfix) as Hc.
    unfold cutoffDate, msPerDay in *. lia.
  - destruct (filtered_posts_sublist tz now o db) as (kept & Hs & ->).
    exists kept. split; [done|]. apply sort_by_Permutation.
Qed.

Lemma StronglySorted_sublist_of {A} (R : A -> A -> Prop) (l k : list A) :
  l `sublist_of` k -> StronglySorted R k -> StronglySorted R l.
Proof.
  induction 1 as [|x l k Hs IH|x l k Hs IH]; intros Hk; [done| |].
  - apply StronglySorted_cons in Hk as [Hx Hk].
    apply StronglySorted_cons. split; [|by apply IH].
    eapply Forall_forall. intros y Hy. eapply Forall_forall in Hx; [done|].
    by eapply elem_of_sublist.
  - apply StronglySorted_cons in Hk as [_ Hk]. by apply IH.
Qed.

Lemma StronglySorted_weaken {A} (R S : A -> A -> Prop) (l : list A) :
  (forall a b, R a b -> S a b) -> StronglySorted R l -> StronglySorted S l.
Proof.
  intros HRS. induction 1 as [|x l Hl IH Hx]; constructor; [done|].
  eapply Forall_impl; [exact Hx|]. intros y. apply HRS.
Qed.

Section SortBy.
Context {A : Type} (cmp : A -> A -> Z) (key : A -> Z).
Hypothesis cmp_key : forall a b, cmp a b <= 0 <-> key a <= key b.

Lemma insert_by_sorted (x : A) (l : list A) :
  StronglySorted (fun a b => key a <= key b) l ->
  StronglySorted (fun a b => key a <= key b) (insert_by cmp x l).
Proof.
  induction l as [|y t IH]; intros Hl; cbn [insert_by].
  - apply StronglySorted_cons. split; constructor.
  - apply StronglySorted_cons in Hl as [Hy Ht]. case_bool_decide as Hc.
    + apply cmp_key in Hc. apply StronglySorted_cons. split.
      * constructor; [done|]. eapply Forall_impl; [exact Hy|].
        intros z Hz. cbn in Hz. lia.
      * by apply StronglySorted_cons.
    + rewrite cmp_key in Hc.
      apply StronglySorted_cons. split; [|by apply IH].
      eapply Forall_forall. intros z Hz.
      rewrite insert_by_Permutation in Hz.
      apply elem_of_cons in Hz as [->|Hz]; [lia|].
      by eapply Forall_forall in Hy.
Qed.

Lemma sort_by_sorted (l : list A) :
  StronglySorted (fun a b => key a <= key b) (sort_by cmp l).
Proof.
  induction l as [|x t IH]; [constructor|].
  unfold sort_by in *. cbn [foldr]. by apply insert_by_sorted.
Qed.

Lemma insert_by_stable (k : Z) (x : A) (l : list A) :
  List.filter (fun a => bool_decide (key a = k)) (insert_by cmp x l) =
  List.filter (fun a => bool_decide (key a = k)) (x :: l).
Proof.
  induction l as [|y t IH]; cbn [insert_by]; [done|].
  case_bool_decide as Hc; [done|]. rewrite cmp_key in Hc.
  cbn [List.filter] in *. rewrite IH.
  repeat case_bool_decide; try done; lia.
Qed.

Lemma sort_by_stable (k : Z) (l : list A) :
  List.filter (fun a => bool_decide (key a = k)) (sort_by cmp l) =
  List.filter (fun a => bool_decide (key a = k)) l.
Proof.
  induction l as [|x t IH]; [done|].
  unfold sort_by in *. cbn [foldr]. rewrite insert_by_stable.
  cbn [List.filter]. by rewrite IH.
Qed.

End SortBy.

(** The key [getPosts] sorts by, with the direction folded in: the
    comparator puts [a] before [b] when [a]'s rank is not above
    [b]'s. *)
Lemma compare_rows_rank sortBy sortOrder a b :
  compare_rows sortBy sortOrder a b <= 0 <->
  rank sortBy sortOrder a <= rank sortBy sortOrder b.
Proof. unfold compare_rows, rank. case_bool_decide; lia. Qed.

Lemma slice_sublist {A} (l : list A) a b : slice l a b `sublist_of` l.
Proof.
  unfold slice. etrans; [apply sublist_take|apply sublist_drop].
Qed.

(** X7. The page [getPosts] returns is sorted by the chosen key: by
    score for "upvotes", by reply count for "num_comments", by creation
    time otherwise; from high to low when the order is "desc", from low
    to high for any other order.  The sort is stable: records with the
    same key stay in the order the collection has them. *)
Theorem getPosts_sorted tz now o db :
  let key := sort_key (Options.sortBy o) in
  (Options.sortOrder o = "desc" ->
     StronglySorted (fun a b => key b <= key a)
       (page_posts (getPosts tz now o db))) /\
  (Options.sortOrder o <> "desc" ->
     StronglySorted (fun a b => key a <= key b)
       (page_posts (getPosts tz now o db))) /\
  (exists kept,
     kept `sublist_of` posts db /\
     filtered_posts tz now o db ≡ₚ kept /\
     forall k,
       List.filter (fun r => bool_decide (key r = k))
         (filtered_posts tz now o db)
       = List.filter (fun r => bool_decide (key r = k)) kept) /\
  (forall r,
     key r =
       if bool_decide (Options.sortBy o = "upvotes") then Row.upvotes r
       else if bool_decide (Options.sortBy o = "num_comments")
            then Row.num_comments r
            else getTime (Row.created_at r)).
Proof.
  intros key.
  pose proof (sort_by_sorted _ _
    (compare_rows_rank (Options.sortBy o) (Options.sortOrder o))) as Hsorted.
  destruct (filtered_posts_sublist tz now o db) as (kept & Hsub & Hf).
  assert (StronglySorted
            (fun a b => rank (Options.sortBy o) (Options.sortOrder o) a
                        <= rank (Options.sortBy o) (Options.sortOrder o) b)
            (page_posts (getPosts tz now o db))) as Hpage.
  { unfold getPosts. cbn [page_posts].
    eapply StronglySorted_sublist_of; [apply slice_sublist|].
    rewrite Hf. apply Hsorted. }
  split; [|split; [|split]].
  - intros Hd. eapply StronglySorted_weaken; [|exact Hpage].
    intros a b. unfold rank. rewrite bool_decide_eq_true_2 by done.
    fold key. lia.
  - intros Hd. eapply StronglySorted_weaken; [|exact Hpage].
    intros a b. unfold rank. by rewrite bool_decide_eq_false_2 by done.
  - exists kept. split; [done|]. rewrite Hf.
    split; [apply sort_by_Permutation|]. intros k.
    unfold compare_rows. case_bool_decide.
    + pose proof (sort_by_stable
        (fun a b => key b - key a) (fun a => - key a)
        ltac:(intros; lia) (- k) kept) as Hs.
      assert (forall a, bool_decide (key a = k)
                        = bool_decide (- key a = - k)) as He
        by (intros; apply bool_decide_ext; lia).
      rewrite !(filter_ext _ _ He). exact Hs.
    + exact (sort_by_stable (fun a b => key a - key b) key
               ltac:(intros; lia) k kept).
  - done.
Qed.

Lemma concat_chunks {A} (n k : nat) (l : list A) :
  (length l <= k * n)%nat ->
  concat ((fun i => take n (drop (i * n) l)) <$> seq 0 k) = l.
Proof.
  revert l. induction k as [|k IH]; intros l Hl.
  - by destruct l; cbn in *; [|lia].
  - cbn [seq fmap list_fmap concat]. rewrite <- fmap_S_seq.
    rewrite <- list_fmap_compose. cbn [Nat.mul drop].
    transitivity (take n l ++ drop n l); [|apply take_drop].
    f_equal. rewrite <- (IH (drop n l)) by (rewrite length_drop; lia).
    f_equal. apply list_fmap_ext. intros _ i _. cbn.
    by rewrite drop_drop.
Qed.

(** X8. For a positive page size L and a page number from 1 up, a page
    holds at most L records, and every page before the last holds
    exactly L.  The pages from 1 to [totalPages], one after the other,
    are the whole filtered set: no record is skipped or shown twice. *)
Theorem getPosts_pages tz now o db :
  0 < Options.limit o ->
  exists k : nat,
    (forall p, totalPages (pagination (getPosts tz now (with_page o p) db))
               = Num (Z.of_nat k)) /\
    (forall p, 1 <= p ->
       (length (page_posts (getPosts tz now (with_page o p) db))
        <= Z.to_nat (Options.limit o))%nat) /\
    (forall p, 1 <= p < Z.of_nat k ->
       length (page_posts (getPosts tz now (with_page o p) db))
       = Z.to_nat (Options.limit o)) /\
    concat ((fun i => page_posts
                        (getPosts tz now (with_page o (Z.of_nat (S i))) db))
            <$> seq 0 k)
    = filtered_posts tz now o db.
Proof.
  intros HL.
  set (l := filtered_posts tz now o db).
  set (L := Options.limit o) in *.
  destruct (ceil_div_pos (Z.of_nat (length l)) L HL) as (k & Hk & Hlo & Hhi).
  assert (0 <= k) as Hk0 by nia.
  assert (forall p, filtered_posts tz now (with_page o p) db = l) as Hfp by done.
  assert (forall p, 1 <= p ->
            page_posts (getPosts tz now (with_page o p) db)
            = take (Z.to_nat L) (drop (Z.to_nat ((p - 1) * L)) l)) as Hpage.
  { intros p Hp. unfold getPosts. cbn [page_posts]. rewrite Hfp.
    cbn [with_page Options.page Options.limit]. fold L.
    apply slice_page; nia. }
  exists (Z.to_nat k). rewrite Z2Nat.id by done.
  split; [|split; [|split]].
  - intros p. unfold getPosts. cbn [pagination totalPages]. by rewrite Hfp.
  - intros p Hp. rewrite Hpage by done. rewrite length_take. lia.
  - intros p Hp. rewrite Hpage by lia. rewrite length_take, length_drop.
    nia.
  - rewrite <- (concat_chunks (Z.to_nat L) (Z.to_nat k) l) by nia.
    f_equal. apply list_fmap_ext. intros _ i _. rewrite Hpage by lia.
    do 2 f_equal. nia.
Qed.

Lemma in_window_mono c1 c2 r :
  c1 <= c2 -> in_window c2 r = true -> in_window c1 r = true.
Proof.
  unfold in_window, date_ge. destruct (Row.created_at r); [|done].
  rewrite !bool_decide_eq_true. lia.
Qed.

Lemma filter_in_window_twice c1 c2 (l : list Row.t) :
  c1 <= c2 ->
  List.filter (in_window c2) (List.filter (in_window c1) l)
  = List.filter (in_window c2) l.
Proof.
  intros Hc. induction l as [|x l IH]; [done|]. cbn [List.filter].
  destruct (in_window c1 x) eqn:E1; cbn [List.filter].
  - by rewrite IH.
  - destruct (in_window c2 x) eqn:E2; [|done].
    apply (in_window_mono c1 c2) in E2; [congruence|done].
Qed.

Lemma posts_deleteOldPosts tz now daysBack db :
  posts (deleteOldPosts tz now daysBack db).2
  = List.filter (in_window (cutoffDate tz now daysBack)) (posts db).
Proof.
  unfold deleteOldPosts. cbn [posts].
  case_bool_decide; cbn [snd]; by rewrite ?posts_save.
Qed.

(** X9. Pruning does not change what a query shows, as long as the
    query's window is not wider than the pruned one (with the default
    of 30 days for both: a query made at or after the pruning): the
    page and the pagination data are the same with and without the
    pruning. *)
Theorem getPosts_after_deleteOldPosts tz now_p daysBack now_q o db :
  cutoffDate tz now_p daysBack <= cutoffDate tz now_q (Options.daysBack o) ->
  getPosts tz now_q o (deleteOldPosts tz now_p daysBack db).2 = getPosts tz now_q o db.
Proof.
  intros Hc.
  assert (filtered_posts tz now_q o (deleteOldPosts tz now_p daysBack db).2
          = filtered_posts tz now_q o db) as Hf.
  { unfold filtered_posts. rewrite posts_deleteOldPosts.
    by rewrite filter_in_window_twice. }
  unfold getPosts. by rewrite Hf.
Qed.

(** X10. Pruning again with a window that is not narrower (the same
    call repeated at the same time, for one) deletes nothing: it returns
    0, and leaves the collection and the file system as they are. *)
Theorem deleteOldPosts_again tz now daysBack now' daysBack' db :
  cutoffDate tz now' daysBack' <= cutoffDate tz now daysBack ->
  let db1 := (deleteOldPosts tz now daysBack db).2 in
  deleteOldPosts tz now' daysBack' db1 = (0, db1).
Proof.
  intros Hc db1.
  assert (List.filter (in_window (cutoffDate tz now' daysBack')) (posts db1)
          = posts db1) as Hsame.
  { subst db1. rewrite posts_deleteOldPosts.
    generalize (posts db). intros l.
    induction l as [|x l IH]; [done|]. cbn [List.filter].
    destruct (in_window (cutoffDate tz now daysBack) x) eqn:E; [|done].
    cbn [List.filter].
    rewrite (in_window_mono _ _ x Hc E). by rewrite IH. }
  unfold deleteOldPosts. cbn [posts]. rewrite Hsame.
  rewrite bool_decide_eq_false_2 by lia.
  replace (Z.of_nat (length (posts db1)) - Z.of_nat (length (posts db1)))
    with 0 by lia.
  by destruct db1.
Qed.

(** ** The store: statistics *)

Lemma stats_loop dayAgo weekAgo a b m (l : list Row.t) :
  foldl (stats_step dayAgo weekAgo) (a, b, m) l =
  (a + count_since dayAgo l, b + count_since weekAgo l,
   foldl bump m (Row.subreddit <$> l)).
Proof.
  revert a b m. induction l as [|r l IH]; intros a b m.
  - unfold count_since. cbn. by rewrite !Z.add_0_r.
  - cbn [foldl stats_step]. rewrite IH. unfold count_since, in_window.
    cbn [List.filter fmap list_fmap foldl].
    destruct (date_ge (Row.created_at r) dayAgo),
             (date_ge (Row.created_at r) weekAgo);
      cbn [length]; rewrite ?Nat2Z.inj_succ;
      repeat (apply pair_equal_spec; split); try done; lia.
Qed.

Lemma count_since_mono c1 c2 (l : list Row.t) :
  c1 <= c2 -> 0 <= count_since c2 l <= count_since c1 l.
Proof.
  intros Hc. unfold count_since. split; [lia|].
  induction l as [|r l IH]; [done|]. cbn [List.filter].
  destruct (in_window c2 r) eqn:E.
  - rewrite (in_window_mono c1 c2 r Hc E). cbn [length]. lia.
  - destruct (in_window c1 r); cbn [length]; lia.
Qed.

Lemma count_since_le_length c (l : list Row.t) :
  count_since c l <= Z.of_nat (length l).
Proof.
  unfold count_since. pose proof (length_filter_le (in_window c) l). lia.
Qed.

(** What [getStats] returns, when it returns. *)
Lemma getStats_returns A now db st :
  getStats A now db = Some st ->
  totalPosts st = Z.of_nat (length (posts db)) /\
  postsLast24h st = count_since (now - 86400000) (posts db) /\
  postsLastWeek st = count_since (now - 7 * 86400000) (posts db) /\
  subredditCounts st = foldl bump ∅ (Row.subreddit <$> posts db) /\
  lastUpdated st =
    if bool_decide (posts db = []) then None
    else Some (foldl max_step MinusInfinity (Row.fetched_at <$> posts db)).
Proof.
  unfold getStats, Math_max. rewrite stats_loop.
  change (24 * 60 * 60 * 1000) with 86400000. rewrite !Z.add_0_l.
  intros H. destruct (posts db) as [|r rows] eqn:E.
  - cbn in H. injection H as <-. done.
  - rewrite bool_decide_eq_true_2 in H by (cbn [length]; lia).
    case_bool_decide; [|done]. cbn [mbind option_bind] in H.
    injection H as <-. done.
Qed.

Lemma getStats_is_Some A now db :
  is_Some (getStats A now db) <->
  posts db = [] \/ Z.of_nat (length (posts db)) <= A.
Proof.
  unfold getStats, Math_max. rewrite stats_loop.
  destruct (posts db) as [|r rows] eqn:E.
  - cbn. split; [by left|by eexists].
  - rewrite bool_decide_eq_true_2 by (cbn [length]; lia).
    rewrite length_fmap. case_bool_decide as Hl; cbn [mbind option_bind].
    + split; [by right|by eexists].
    + split; [by intros [? ?]|]. intros [?|?]; [done|lia].
Qed.

(** X11. [getStats] returns statistics exactly when the collection is
    empty or has no more records than the engine accepts arguments in
    the call of [Math.max]; otherwise it throws.  In the statistics the
    count of the last 24 hours is the number of records dated within 24
    hours before the call, the count of the last week that of the
    records dated within 7 days; so the first is at most the second,
    and the second at most the total.  [lastUpdated] is [null] exactly
    for an empty collection. *)
Theorem getStats_counts A now db :
  (is_Some (getStats A now db) <->
   posts db = [] \/ Z.of_nat (length (posts db)) <= A) /\
  (forall st, getStats A now db = Some st ->
     totalPosts st = Z.of_nat (length (posts db)) /\
     postsLast24h st = count_since (now - 86400000) (posts db) /\
     postsLastWeek st = count_since (now - 7 * 86400000) (posts db) /\
     0 <= postsLast24h st <= postsLastWeek st /\
     postsLastWeek st <= totalPosts st /\
     (lastUpdated st = None <-> posts db = [])).
Proof.
  split; [apply getStats_is_Some|]. intros st Hst.
  apply getStats_returns in Hst as (Ht & Hd & Hw & _ & Hl).
  rewrite Ht, Hd, Hw, Hl.
  split; [done|]. split; [done|]. split; [done|].
  split; [apply count_since_mono; lia|].
  split; [apply count_since_le_length|].
  case_bool_decide; split; done.
Qed.

Lemma or_num_zero n : or_num n 0 = n.
Proof. unfold or_num. by case_bool_decide. Qed.

Lemma count_keys_cons s k (ks : list string) :
  Z.of_nat (length (List.filter (fun x => bool_decide (x = s)) (k :: ks))) =
  (if bool_decide (k = s) then 1 else 0)
  + Z.of_nat (length (List.filter (fun x => bool_decide (x = s)) ks)).
Proof. cbn [List.filter]. case_bool_decide; cbn [length]; lia. Qed.

(** The counts object after the loop, for keys that are not inherited
    names, started from an object that holds numbers only. *)
Lemma bump_all (ks : list string) (m : gmap string CountValue) s :
  Forall (fun k => k ∉ inherited_names) ks ->
  (forall k, m !! k <> Some Text) ->
  foldl bump m ks !! s =
  let c := Z.of_nat (length (List.filter (fun x => bool_decide (x = s)) ks)) in
  match m !! s with
  | Some (Count n) => Some (Count (n + c))
  | _ => if bool_decide (c = 0) then None else Some (Count c)
  end.
Proof.
  intros Hks. revert m. induction Hks as [|k ks Hk Hks IH]; intros m Hm.
  - cbn. specialize (Hm s). destruct (m !! s) as [[n|]|]; try done.
    by rewrite Z.add_0_r.
  - cbn [foldl]. cbv zeta. rewrite count_keys_cons.
    assert (forall k', bump m k !! k' <> Some Text) as Hm'.
    { intros k'. unfold bump. specialize (Hm k) as Hmk.
      destruct (m !! k) as [[n|]|] eqn:E; try done.
      - destruct (decide (k = k')) as [->|Hne];
          [by rewrite lookup_insert_eq|by rewrite lookup_insert_ne].
      - rewrite bool_decide_eq_false_2 by done.
        destruct (decide (k = k')) as [->|Hne];
          [by rewrite lookup_insert_eq|by rewrite lookup_insert_ne]. }
    rewrite (IH _ Hm'). cbv zeta.
    set (c := Z.of_nat (length (List.filter _ ks))).
    assert (0 <= c) as Hc by (subst c; lia).
    unfold bump. specialize (Hm k) as Hmk.
    destruct (decide (k = s)) as [->|Hne].
    + rewrite (bool_decide_eq_true_2 (s = s)) by done.
      destruct (m !! s) as [[n|]|] eqn:E; try done.
      * rewrite or_num_zero, lookup_insert_eq. do 2 f_equal; lia.
      * rewrite bool_decide_eq_false_2 by done.
        rewrite lookup_insert_eq, bool_decide_eq_false_2 by lia.
        do 2 f_equal; lia.
    + rewrite (bool_decide_eq_false_2 (k = s)) by done. rewrite Z.add_0_l.
      destruct (m !! k) as [[n|]|] eqn:E; try done.
      * by rewrite lookup_insert_ne by done.
      * rewrite bool_decide_eq_false_2 by done.
        by rewrite lookup_insert_ne by done.
Qed.

Lemma sum_counts_insert_new m k v :
  m !! k = None -> sum_counts (<[k := v]> m) = count_value v + sum_counts m.
Proof.
  intros H. unfold sum_counts.
  rewrite map_fold_insert_L; [done| |done]. intros. lia.
Qed.

Lemma sum_counts_insert m k v :
  sum_counts (<[k := v]> m) =
  count_value v + sum_counts m
  - match m !! k with Some w => count_value w | None => 0 end.
Proof.
  destruct (m !! k) as [w|] eqn:E.
  - rewrite <- (insert_delete_eq m k v).
    rewrite sum_counts_insert_new by apply lookup_delete_eq.
    rewrite <- (insert_id m k w E) at 2. rewrite <- (insert_delete_eq m k w).
    rewrite sum_counts_insert_new by apply lookup_delete_eq. lia.
  - rewrite sum_counts_insert_new by done. lia.
Qed.

Lemma sum_counts_bump (ks : list string) (m : gmap string CountValue) :
  Forall (fun k => k ∉ inherited_names) ks ->
  (forall k, m !! k <> Some Text) ->
  sum_counts (foldl bump m ks) = sum_counts m + Z.of_nat (length ks).
Proof.
  intros Hks. revert m. induction Hks as [|k ks Hk Hks IH]; intros m Hm.
  - cbn. lia.
  - cbn [foldl length].
    assert (forall k', bump m k !! k' <> Some Text) as Hm'.
    { intros k'. unfold bump. specialize (Hm k) as Hmk.
      destruct (m !! k) as [[n|]|] eqn:E; try done.
      - destruct (decide (k = k')) as [->|Hne];
          [by rewrite lookup_insert_eq|by rewrite lookup_insert_ne].
      - rewrite bool_decide_eq_false_2 by done.
        destruct (decide (k = k')) as [->|Hne];
          [by rewrite lookup_insert_eq|by rewrite lookup_insert_ne]. }
    rewrite (IH _ Hm'). unfold bump. specialize (Hm k) as Hmk.
    destruct (m !! k) as [[n|]|] eqn:E; try done.
    + rewrite sum_counts_insert, E, or_num_zero. cbn [count_value]. lia.
    + rewrite bool_decide_eq_false_2 by done.
      rewrite sum_counts_insert, E. cbn [count_value]. lia.
Qed.

(** X12. For a collection that [Math.max] can take, and in which no
    subreddit name is a property name that objects inherit
    ("constructor", "toString", ...), [getStats] returns statistics
    whose per-subreddit counts are right: a subreddit with records is
    counted with the number of its records, a subreddit without records
    has no entry, and the counts add up to the total. *)
Theorem getStats_subredditCounts A now db :
  Z.of_nat (length (posts db)) <= A ->
  Forall (fun r => Row.subreddit r ∉ inherited_names) (posts db) ->
  exists st,
    getStats A now db = Some st /\
    (forall s,
       subredditCounts st !! s =
       if bool_decide (count_subreddit s (posts db) = 0) then None
       else Some (Count (count_subreddit s (posts db)))) /\
    sum_counts (subredditCounts st) = totalPosts st.
Proof.
  intros HA Hp.
  destruct (proj2 (getStats_is_Some A now db)) as [st Hst]; [by right|].
  exists st. split; [done|].
  apply getStats_returns in Hst as (Ht & _ & _ & Hc & _). rewrite Ht, Hc.
  assert (Forall (fun k => k ∉ inherited_names) (Row.subreddit <$> posts db))
    as Hks by by apply Forall_fmap.
  split.
  - intros s. rewrite (bump_all _ ∅ s Hks) by (intros k; by rewrite lookup_empty).
    rewrite lookup_empty. cbv zeta. unfold count_subreddit.
    assert (forall l : list Row.t,
              length (List.filter (fun x => bool_decide (x = s))
                        (Row.subreddit <$> l))
              = length (List.filter
                          (fun r => bool_decide (Row.subreddit r = s)) l))
      as Hlen.
    { induction l as [|r l IH]; [done|]. cbn [fmap list_fmap List.filter].
      case_bool_decide; cbn [length]; by rewrite <- IH. }
    by rewrite Hlen.
  - rewrite (sum_counts_bump _ ∅ Hks) by (intros k; by rewrite lookup_empty).
    unfold sum_counts. rewrite map_fold_empty, length_fmap. lia.
Qed.

Lemma Math_max_from m (dates : list DateString) :
  Forall (fun d => d <> InvalidDate) dates ->
  exists m',
    foldl max_step (MaxNum m) dates = MaxNum m' /\
    m <= m' /\
    Forall (fun d => forall t, d = ISO t -> t <= m') dates /\
    (m' = m \/ ISO m' ∈ dates).
Proof.
  intros H. revert m. induction H as [|d dates Hd Hds IH]; intros m.
  - exists m. repeat split; [lia|constructor|by left].
  - destruct d as [t|]; [|done]. cbn [foldl max_step].
    destruct (IH (Z.max m t)) as (m' & Hm' & Hle & Hall & Hin).
    exists m'. split; [done|]. split; [lia|]. split.
    + constructor; [|done]. intros t' [= <-]. lia.
    + destruct Hin as [->|Hin]; [|right; by apply list_elem_of_further].
      destruct (decide (t <= m)); [left; lia|].
      right. replace (Z.max m t) with t by lia. apply list_elem_of_here.
Qed.

(** X13. For a collection that is not empty, [getStats] throws when the
    collection has more records than [Math.max] accepts arguments, and
    returns statistics otherwise.  Then, when the [fetched_at] fields
    are all dates (as [upsertPost] writes them), [lastUpdated] is the
    latest ingestion time: the time of some record, and no record was
    fetched later.  As soon as one [fetched_at] is not a date,
    [lastUpdated] is NaN. *)
Theorem getStats_lastUpdated A now db :
  posts db <> [] ->
  (A < Z.of_nat (length (posts db)) -> getStats A now db = None) /\
  (Z.of_nat (length (posts db)) <= A ->
   exists st,
     getStats A now db = Some st /\
     (Forall (fun r => Row.fetched_at r <> InvalidDate) (posts db) ->
        exists m,
          lastUpdated st = Some (MaxNum m) /\
          (exists r, r ∈ posts db /\ Row.fetched_at r = ISO m) /\
          (forall r t, r ∈ posts db -> Row.fetched_at r = ISO t -> t <= m)) /\
     ((exists r, r ∈ posts db /\ Row.fetched_at r = InvalidDate) ->
        lastUpdated st = Some MaxNaN)).
Proof.
  intros Hne. split.
  { intros HA. destruct (getStats A now db) as [st|] eqn:E; [|done].
    destruct (proj1 (getStats_is_Some A now db)) as [?|?];
      [by eexists|done|lia]. }
  intros HA.
  destruct (proj2 (getStats_is_Some A now db)) as [st Hst]; [by right|].
  exists st. split; [done|].
  apply getStats_returns in Hst as (_ & _ & _ & _ & Hl).
  rewrite bool_decide_eq_false_2 in Hl by done.
  rewrite Hl. split.
  - intros Hall. destruct (posts db) as [|r0 rows] eqn:E; [done|].
    apply Forall_cons in Hall as [H0 Hall].
    cbn [fmap list_fmap foldl max_step].
    destruct (Row.fetched_at r0) as [t0|] eqn:E0; [|done].
    destruct (Math_max_from t0 (Row.fetched_at <$> rows)) as
      (m & Hm & Hle & Hbound & Hin); [by apply Forall_fmap|].
    exists m. split; [by rewrite Hm|]. split.
    + destruct Hin as [->|Hin].
      * exists r0. split; [apply list_elem_of_here|done].
      * apply list_elem_of_fmap in Hin as (r & Hr & Hin).
        exists r. split; [by apply list_elem_of_further|done].
    + intros r t Hr Ht. apply elem_of_cons in Hr as [->|Hr].
      * rewrite E0 in Ht. injection Ht as <-. done.
      * eapply Forall_forall in Hbound; [by apply Hbound|].
        apply list_elem_of_fmap. by exists r.
  - intros (r & Hr & Hinv). f_equal.
    assert (forall acc (l : list DateString),
              InvalidDate ∈ l -> foldl max_step acc l = MaxNaN) as Hnan.
    { intros acc l. revert acc.
      induction l as [|d l IH]; intros acc Hin; [by apply elem_of_nil in Hin|].
      assert (forall l', foldl max_step MaxNaN l' = MaxNaN) as Hstay
        by (induction l' as [|? ? IH']; [done|exact IH']).
      cbn [foldl]. apply elem_of_cons in Hin as [<-|Hin].
      - by destruct acc; cbn [max_step]; rewrite Hstay.
      - by apply IH. }
    apply Hnan. apply list_elem_of_fmap. by exists r.
Qed.

(** A subreddit named like an inherited property is not counted as a
    number. *)
Example getStats_inherited_name :
  let row := make_row "id0" (sample_clock 0%nat) (gh_42 1) in
  let odd :=
    {| Row.id := Row.id row; Row.reddit_id := Row.reddit_id row;
       Row.title := Row.title row; Row.content := Row.content row;
       Row.author := Row.author row; Row.subreddit := "constructor";
       Row.upvotes := 1; Row.num_comments := 0;
       Row.created_at := Row.created_at row;
       Row.fetched_at := Row.fetched_at row; Row.url := Row.url row |} in
  (fun st => subredditCounts st !! "constructor")
    <$> getStats 100000 1700000000000 (mkDB "p" [odd; row] empty_fs)
  = Some (Some Text).
Proof. vm_compute. reflexivity. Qed.

(** ** The aggregator: the course of a fetch *)

Lemma backoff_trace_step attempt n :
  backoff_trace attempt (S (S n)) =
  Request attempt :: Wait (3 ^ attempt * 1000)
    :: backoff_trace (attempt + 1) (S n).
Proof. done. Qed.

Lemma attempts_course fuel attempt retries r subreddit :
  1 <= attempt <= retries ->
  (Z.to_nat (retries - attempt + 1) <= fuel)%nat ->
  exists n : nat,
    (1 <= n)%nat /\ attempt + Z.of_nat n - 1 <= retries /\
    (forall k, attempt <= k < attempt + Z.of_nat n - 1 ->
       response r k = None) /\
    (attempts fuel attempt retries r subreddit).2 = backoff_trace attempt n /\
    ((exists listing,
        response r (attempt + Z.of_nat n - 1) = Some listing /\
        (attempts fuel attempt retries r subreddit).1 =
          toItem <$> List.filter
            (keepPost (clock r (attempt + Z.of_nat n - 1)) subreddit) listing)
     \/ (attempt + Z.of_nat n - 1 = retries /\
         response r retries = None /\
         (attempts fuel attempt retries r subreddit).1 = [])).
Proof.
  revert attempt. induction fuel as [|fuel IH]; intros attempt Ha Hf; [lia|].
  cbn [attempts]. rewrite bool_decide_eq_true_2 by lia.
  destruct (response r attempt) as [listing|] eqn:E.
  - exists 1%nat. replace (attempt + Z.of_nat 1 - 1) with attempt by lia.
    split; [lia|]. split; [lia|]. split; [intros; lia|]. split; [done|].
    left. by exists listing.
  - case_bool_decide as Hlt.
    + destruct (IH (attempt + 1)) as (n & Hn & Hle & Hnone & Htr & Hres);
        [lia|lia|].
      destruct (attempts fuel (attempt + 1) retries r subreddit)
        as [items effects].
      cbn [fst snd] in *. exists (S n).
      replace (attempt + Z.of_nat (S n) - 1)
        with (attempt + 1 + Z.of_nat n - 1) by lia.
      split; [lia|]. split; [lia|]. split.
      { intros k Hk. destruct (decide (k = attempt)) as [->|]; [done|].
        apply Hnone. lia. }
      split; [|done].
      destruct n as [|n]; [lia|]. by rewrite backoff_trace_step, Htr.
    + exists 1%nat. replace (attempt + Z.of_nat 1 - 1) with attempt by lia.
      split; [lia|]. split; [lia|]. split; [intros; lia|]. split; [done|].
      right. assert (attempt = retries) as -> by lia. done.
Qed.

Lemma waited_backoff_trace attempt n :
  0 <= attempt ->
  2 * waited (backoff_trace attempt n)
  = (3 ^ (attempt + Z.of_nat (n - 1)) - 3 ^ attempt) * 1000.
Proof.
  revert attempt. induction n as [|n IH]; intros attempt Ha.
  - change (Z.of_nat (0 - 1)) with 0. rewrite Z.add_0_r.
    change (waited (backoff_trace attempt 0)) with 0. lia.
  - destruct n as [|n].
    + change (Z.of_nat (1 - 1)) with 0. rewrite Z.add_0_r.
      change (waited (backoff_trace attempt 1)) with 0. lia.
    + rewrite backoff_trace_step.
      change (waited (Request attempt :: Wait (3 ^ attempt * 1000)
                        :: backoff_trace (attempt + 1) (S n)))
        with (3 ^ attempt * 1000
              + waited (backoff_trace (attempt + 1) (S n))).
      specialize (IH (attempt + 1) ltac:(lia)).
      replace (attempt + 1 + Z.of_nat (S n - 1))
        with (attempt + Z.of_nat (S (S n) - 1)) in IH by lia.
      rewrite (Z.pow_add_r 3 attempt 1) in IH by lia.
      change (3 ^ 1) with 3 in IH. lia.
Qed.

(** X14. The course of a fetch, for any number of retries.  With no
    retry allowed the fetch makes no request and returns the empty
    list.  Otherwise it makes the requests 1 to n for some n up to
    [retries], each but the last followed by a wait of 3^k seconds, all
    but the last failing; it returns the kept posts of the n-th
    response, or the empty list when that request failed too, which
    only happens for n = [retries].  The waits add up to
    (3^n - 3) / 2 seconds: at most 12 seconds with three retries. *)
Theorem fetch_course r subreddit retries :
  (retries <= 0 -> fetchSubredditPosts r subreddit retries = ([], [])) /\
  (1 <= retries ->
   exists n : nat,
     1 <= Z.of_nat n <= retries /\
     (forall k, 1 <= k < Z.of_nat n -> response r k = None) /\
     (fetchSubredditPosts r subreddit retries).2 = backoff_trace 1 n /\
     2 * waited (fetchSubredditPosts r subreddit retries).2
       = (3 ^ Z.of_nat n - 3) * 1000 /\
     ((exists listing,
         response r (Z.of_nat n) = Some listing /\
         (fetchSubredditPosts r subreddit retries).1 =
           toItem <$> List.filter
             (keepPost (clock r (Z.of_nat n)) subreddit) listing)
      \/ (Z.of_nat n = retries /\ response r retries = None /\
          (fetchSubredditPosts r subreddit retries).1 = []))) /\
  waited (fetchSubredditPosts r subreddit 3).2 <= 12000.
Proof.
  assert (1 <= retries ->
   exists n : nat,
     1 <= Z.of_nat n <= retries /\
     (forall k, 1 <= k < Z.of_nat n -> response r k = None) /\
     (fetchSubredditPosts r subreddit retries).2 = backoff_trace 1 n /\
     2 * waited (fetchSubredditPosts r subreddit retries).2
       = (3 ^ Z.of_nat n - 3) * 1000 /\
     ((exists listing,
         response r (Z.of_nat n) = Some listing /\
         (fetchSubredditPosts r subreddit retries).1 =
           toItem <$> List.filter
             (keepPost (clock r (Z.of_nat n)) subreddit) listing)
      \/ (Z.of_nat n = retries /\ response r retries = None /\
          (fetchSubredditPosts r subreddit retries).1 = []))) as Hgen.
  { intros Hr. unfold fetchSubredditPosts.
    destruct (attempts_course (Z.to_nat retries) 1 retries r subreddit)
      as (n & Hn & Hle & Hnone & Htr & Hres); [lia|lia|].
    exists n. replace (1 + Z.of_nat n - 1) with (Z.of_nat n) in * by lia.
    split; [lia|]. split; [intros; apply Hnone; lia|]. split; [done|].
    split; [|done]. rewrite Htr, waited_backoff_trace by lia.
    replace (1 + Z.of_nat (n - 1)) with (Z.of_nat n) by lia. done. }
  split; [|split; [exact Hgen|]].
  - intros Hr. unfold fetchSubredditPosts.
    by replace (Z.to_nat retries) with O by lia.
  - clear Hgen. unfold fetchSubredditPosts.
    destruct (attempts_course (Z.to_nat 3) 1 3 r subreddit)
      as (n & Hn & Hle & _ & Htr & _); [lia|lia|].
    rewrite Htr.
    destruct n as [|[|[|[|n]]]]; try lia; vm_compute; discriminate.
Qed.

Lemma length_substring0 n s : (String.length (substring0 n s) <= n)%nat.
Proof.
  unfold substring0. revert s. induction n as [|n IH]; intros s.
  - by destruct s.
  - destruct s as [|c s]; cbn; [lia|]. specialize (IH s). lia.
Qed.

Lemma attempts_items fuel attempt retries r subreddit item :
  item ∈ (attempts fuel attempt retries r subreddit).1 ->
  exists a listing post,
    attempt <= a <= retries /\
    response r a = Some listing /\ post ∈ listing /\
    keepPost (clock r a) subreddit post = true /\ item = toItem post.
Proof.
  revert attempt. induction fuel as [|fuel IH]; intros attempt;
    [by intros ?%elem_of_nil|].
  cbn [attempts]. case_bool_decide as Hle; [|by intros ?%elem_of_nil].
  destruct (response r attempt) as [listing|] eqn:E.
  - cbn [fst]. intros Hin. apply list_elem_of_In, in_map_iff in Hin
      as (post & <- & Hp). apply filter_In in Hp as [Hp Hk].
    exists attempt, listing, post. rewrite <- list_elem_of_In in Hp.
    repeat split; try done; lia.
  - case_bool_decide; [|by intros ?%elem_of_nil].
    specialize (IH (attempt + 1)).
    destruct (attempts fuel (attempt + 1) retries r subreddit)
      as [items effects]. cbn [fst] in *.
    intros Hin. destruct (IH Hin) as (a & listing & post & Ha & Hrest).
    exists a, listing, post. split; [lia|done].
Qed.

(** X15. Every item a subreddit fetch returns comes from a post of the
    response that ended the fetch, is marked with the source "reddit",
    links to reddit.com, has a content of at most 1000 characters, and
    was created no more than 30 days before the response was filtered:
    the dedicated subreddits bypass the keyword test, not the date
    test.  In a subreddit that is not dedicated, the post's title or
    body contains a keyword. *)
Theorem fetched_items r subreddit retries item :
  item ∈ (fetchSubredditPosts r subreddit retries).1 ->
  exists a listing post,
    1 <= a <= retries /\
    response r a = Some listing /\ post ∈ listing /\
    Post.reddit_id item = Child.id post /\
    Post.upvotes item = Child.score post /\
    Post.source item = "reddit" /\
    Post.url item = "https://reddit.com" +:+ Child.permalink post /\
    (String.length (Post.content item) <= 1000)%nat /\
    Post.created_at item = ISO (Child.created_utc post * 1000) /\
    clock r a - 30 * msPerDay <= Child.created_utc post * 1000 /\
    (~ dedicated subreddit ->
       exists kw, kw ∈ ALL_KEYWORDS /\
         (contains_ci (Child.title post) kw \/
          contains_ci (Child.selftext post) kw)).
Proof.
  intros Hin. unfold fetchSubredditPosts in Hin.
  apply attempts_items in Hin
    as (a & listing & post & Ha & Hr & Hp & Hk & ->).
  exists a, listing, post.
  assert (clock r a - 30 * msPerDay <= Child.created_utc post * 1000) as Hw.
  { unfold keepPost in Hk. revert Hk. case_bool_decide; [done|].
    unfold msPerDay. lia. }
  repeat split; try done; try lia.
  - cbn [toItem Post.content]. case_bool_decide; [cbn; lia|].
    apply length_substring0.
  - intros Hd. rewrite <- dedicated_spec in Hd.
    unfold keepPost in Hk. revert Hk. case_bool_decide; [done|].
    rewrite bool_decide_eq_false_2 by done. apply hasKeyword_spec.
Qed.

(** ** The cycle and the store *)

Lemma find_puts_fresh k (l : list (Clock * Post.t)) rows :
  k ∉ (Post.reddit_id <$> l.*2) ->
  List.find (fun r => bool_decide (Row.reddit_id r = k)) (puts l rows) =
  List.find (fun r => bool_decide (Row.reddit_id r = k)) rows.
Proof.
  intros Hk. apply find_puts_other. apply Forall_forall. intros cp Hcp Heq.
  apply Hk. apply list_elem_of_fmap. exists cp.2. split; [done|].
  apply list_elem_of_fmap. by exists cp.
Qed.

(** In a batch without repeated ids, the record found under an item's
    id after the batch is the one made from that item. *)
Lemma getPost_after_unique_batch clk batch db j p :
  NoDup (Post.reddit_id <$> batch) ->
  batch !! j = Some p ->
  getPost (Post.reddit_id p) (upsertPosts clk batch db).2 =
  Some (make_row
          (match getPost (Post.reddit_id p) db with
           | Some old => Row.id old
           | None => fresh_id (clk j)
           end) (clk j) p).
Proof.
  intros Hnd Hj. unfold getPost. rewrite upsertPosts_puts.
  rewrite <- (take_drop_middle batch j p Hj) in Hnd |- *.
  rewrite fmap_app in Hnd. cbn [fmap list_fmap] in Hnd.
  apply NoDup_app in Hnd as (_ & Hdisj & Hnd2).
  apply NoDup_cons in Hnd2 as [Hnotin _].
  rewrite paired_app. cbn [paired]. rewrite puts_app.
  change (?x :: ?l) with ([x] ++ l) at 1. rewrite puts_app.
  rewrite find_puts_fresh by by rewrite paired_snd.
  unfold puts at 1. cbn [foldl fst snd]. fold (same_id p).
  rewrite find_put. unfold same_id.
  rewrite find_puts_fresh.
  - replace (length (take j batch) + 0)%nat with j; [done|].
    rewrite length_take. apply lookup_lt_Some in Hj. lia.
  - rewrite paired_snd. intros Hin. apply (Hdisj _ Hin).
    apply list_elem_of_here.
Qed.

Lemma ids_puts (l : list (Clock * Post.t)) rows :
  NoDup (Post.reddit_id <$> l.*2) ->
  ids (puts l rows) =
  ids rows ++ List.filter (fun k => bool_decide (k ∉ ids rows))
                (Post.reddit_id <$> l.*2).
Proof.
  revert rows. induction l as [|[c p] l IH]; intros rows Hnd.
  - cbn. by rewrite app_nil_r.
  - cbn [fmap list_fmap snd] in Hnd. apply NoDup_cons in Hnd as [Hp Hnd].
    unfold puts in *. cbn [foldl fst snd]. rewrite (IH _ Hnd), ids_put.
    cbn [fmap list_fmap snd List.filter].
    case_bool_decide as Hin.
    + rewrite bool_decide_eq_false_2 by (intros Hn; by apply Hn). done.
    + rewrite bool_decide_eq_true_2 by done. rewrite <- app_assoc.
      cbn [app]. do 2 f_equal. apply filter_ext_in. intros k Hk.
      apply bool_decide_ext. rewrite elem_of_app, list_elem_of_singleton.
      split; [tauto|]. intros Hn [?| ->]; [done|].
      apply Hp. by apply list_elem_of_In.
Qed.

(** X16. After a cycle, every item of the cycle's result is in the
    store under its id, as the record made from that item: with the
    item's title, score, reply count and creation date, fetched at the
    time of its upsert, and with the surrogate id the store had for the
    id, if it had one. *)
Theorem cycle_items_stored clk curated s db j p :
  (store_cycle clk curated s db).1 !! j = Some p ->
  exists row,
    getPost (Post.reddit_id p) (store_cycle clk curated s db).2 = Some row /\
    Row.title row = Post.title p /\
    Row.upvotes row = Post.upvotes p /\
    Row.created_at row = Post.created_at p /\
    Row.fetched_at row = toISOString (new_Date (clk j)) /\
    (forall old, getPost (Post.reddit_id p) db = Some old ->
       Row.id row = Row.id old).
Proof.
  intros Hj. rewrite store_cycle_result in Hj.
  assert ((store_cycle clk curated s db).2
          = (upsertPosts clk (dedupe ∅ (merge_sources curated s)) db).2)
    as Hdb.
  { unfold store_cycle. case_bool_decide as H; [done|].
    cbn [snd]. destruct (dedupe ∅ (merge_sources curated s)); [done|].
    cbn [length] in H. lia. }
  rewrite Hdb.
  rewrite (getPost_after_unique_batch _ _ _ j p (dedupe_NoDup _ _) Hj).
  eexists. split; [done|]. repeat split.
  intros old Hold. by rewrite Hold.
Qed.

(** X17. A batch without repeated ids, as every cycle's result is one,
    leaves the ids of the store in place and adds the batch's new ids
    at the end, in the order of the batch: the store grows by the
    number of ids it did not hold.  On an empty store the ids after the
    batch are those of the batch. *)
Theorem upsertPosts_new_ids clk batch db :
  NoDup (Post.reddit_id <$> batch) ->
  let db' := (upsertPosts clk batch db).2 in
  ids (posts db') =
    ids (posts db) ++
    List.filter (fun k => bool_decide (k ∉ ids (posts db)))
      (Post.reddit_id <$> batch) /\
  (posts db = [] -> ids (posts db') = Post.reddit_id <$> batch) /\
  (forall curated s,
     batch = (store_cycle clk curated s db).1 ->
     (store_cycle clk curated s db).2 = db').
Proof.
  intros Hnd db'. subst db'.
  assert (ids (posts (upsertPosts clk batch db).2) =
          ids (posts db) ++
          List.filter (fun k => bool_decide (k ∉ ids (posts db)))
            (Post.reddit_id <$> batch)) as Hids.
  { rewrite upsertPosts_puts, ids_puts by by rewrite paired_snd.
    by rewrite paired_snd. }
  split; [done|]. split.
  - intros He. rewrite Hids, He. cbn [ids fmap list_fmap app].
    rewrite forallb_filter_id; [done|].
    apply forallb_forall. intros k _. apply bool_decide_eq_true_2.
    apply not_elem_of_nil.
  - intros curated s ->. rewrite store_cycle_result.
    unfold store_cycle. case_bool_decide as H; [done|].
    cbn [snd]. destruct (dedupe ∅ (merge_sources curated s)); [done|].
    cbn [length] in H. lia.
Qed.

(** C10, as the code has it.  The upsert of a cycle is guarded by
    [uniquePosts.length > 0]: a cycle with an empty result would leave
    the store as it is.  In [fetchAllPosts] the guard never skips the
    upsert: the result always starts with the curated entries, so it is
    never empty, it is upserted, every curated entry is in the store
    afterwards, fetched at the time of its upsert, and the backing
    file, when it can be written, holds the new collection.  This is so
    also when every adapter fails: the result is then the list of the
    curated entries, and they are put into the collection. *)
Theorem every_cycle_writes now clk remote hn gh devto blog db :
  let res := fetchAllPosts now clk remote hn gh devto blog db in
  (forall curated s,
     (store_cycle clk curated s db).1 = [] ->
     (store_cycle clk curated s db).2 = db) /\
  res.1 <> [] /\
  getCuratedResources now `prefix_of` res.1 /\
  res.2 = (upsertPosts clk res.1 db).2 /\
  (forall j p,
     getCuratedResources now !! j = Some p ->
     exists row,
       getPost (Post.reddit_id p) res.2 = Some row /\
       Row.title row = Post.title p /\
       Row.fetched_at row = toISOString (new_Date (clk j))) /\
  (dbPath db ∉ locked (disk db) ->
     readJson (disk res.2) (dbPath res.2) = Some (posts res.2)) /\
  (hn = [] -> gh = [] -> devto = [] -> blog = [] ->
   (forall sub a, response (remote sub) a = None) ->
     res.1 = getCuratedResources now /\
     posts res.2 = puts (paired clk (getCuratedResources now)) (posts db)).
Proof.
  intros res.
  assert (forall curated s,
            (store_cycle clk curated s db).1 = [] ->
            (store_cycle clk curated s db).2 = db) as Hguard.
  { intros curated s. unfold store_cycle.
    case_bool_decide as H; cbn [fst snd]; [|done].
    intros Hnil. rewrite Hnil in H. cbn in H. lia. }
  split; [exact Hguard|].
  set (s := mkSources hn gh devto blog (fetchReddit remote)).
  assert (res.1 = dedupe ∅ (merge_sources (getCuratedResources now) s)) as Hres
    by apply store_cycle_result.
  assert (getCuratedResources now `prefix_of` res.1) as Hpre.
  { rewrite Hres. unfold merge_sources.
    rewrite dedupe_app, dedupe_curated. by eexists. }
  assert (res.1 <> []) as Hne.
  { intros Hnil. rewrite Hnil in Hpre. apply prefix_nil_inv in Hpre.
    discriminate Hpre. }
  assert (res.2 = (upsertPosts clk res.1 db).2) as Hup.
  { subst res. unfold fetchAllPosts in *. fold s in Hne |- *.
    unfold store_cycle in *. revert Hne.
    set (u := dedupe ∅ (merge_sources (getCuratedResources now) s)).
    clearbody u. destruct u as [|x u]; [by intros []|]. intros _.
    rewrite bool_decide_eq_true_2 by (cbn [length]; lia). done. }
  assert (NoDup (Post.reddit_id <$> res.1)) as Hnd
    by (rewrite Hres; apply dedupe_NoDup).
  split; [done|]. split; [done|]. split; [done|]. split; [|split].
  - intros j p Hj.
    assert (res.1 !! j = Some p) as Hj'.
    { destruct Hpre as [rest ->]. by apply lookup_app_l_Some. }
    rewrite Hup.
    rewrite (getPost_after_unique_batch clk res.1 db j p Hnd Hj').
    eexists. split; [reflexivity|]. split; reflexivity.
  - intros Hw. rewrite Hup. by apply upsertPosts_file.
  - intros -> -> -> -> Hfail.
    assert (res.1 = getCuratedResources now) as Hc.
    { rewrite Hres. unfold merge_sources, s. cbn [blog hn gh devto redditResults].
      rewrite (concat_all_nil _ (fetchReddit_all_fail remote Hfail)).
      cbn [app]. rewrite app_nil_r. apply dedupe_curated. }
    split; [done|]. by rewrite Hup, Hc, upsertPosts_puts.
Qed.

(** ** The web terminal *)

Lemma receive_app AUTH_TOKEN f1 f2 c :
  receive AUTH_TOKEN (f1 ++ f2) c =
  let '(c1, e1) := receive AUTH_TOKEN f1 c in
  let '(c2, e2) := receive AUTH_TOKEN f2 c1 in
  (c2, e1 ++ e2).
Proof.
  revert c. induction f1 as [|[ok f] f1 IH]; intros c.
  - cbn. by destruct (receive AUTH_TOKEN f2 c).
  - cbn [app receive]. destruct (on_message AUTH_TOKEN ok f c) as [c1 e1].
    rewrite IH. destruct (receive AUTH_TOKEN f1 c1) as [c2 e2].
    destruct (receive AUTH_TOKEN f2 c2) as [c3 e3]. by rewrite app_assoc.
Qed.

(** X18. Before a message with the right token arrives, the connection
    gives no access to a terminal: whatever frames are received, no PTY
    is spawned, written to, resized or killed, the connection stays
    unauthenticated, and closing it kills nothing.  The only effects
    are replies and the closing of the socket. *)
Theorem no_terminal_before_auth AUTH_TOKEN frames :
  Forall (fun f => ~ authenticates AUTH_TOKEN f.2) frames ->
  (receive AUTH_TOKEN frames new_connection).1 = new_connection /\
  Forall (fun e => ~ touches_pty e)
    (receive AUTH_TOKEN frames new_connection).2 /\
  on_close (receive AUTH_TOKEN frames new_connection).1 = [].
Proof.
  intros H.
  assert ((receive AUTH_TOKEN frames new_connection).1 = new_connection /\
          Forall (fun e => ~ touches_pty e)
            (receive AUTH_TOKEN frames new_connection).2) as [H1 H2].
  { induction H as [|[ok f] frames Hf Hfs [IH1 IH2]]; [by split|].
    cbn [receive].
    assert (on_message AUTH_TOKEN ok f new_connection = (new_connection, [])
            \/ on_message AUTH_TOKEN ok f new_connection
               = (new_connection, [SendReply AuthFailed; CloseSocket])
            \/ on_message AUTH_TOKEN ok f new_connection
               = (new_connection, [SendReply NotAuthenticated])) as Hm.
    { destruct f as [|m]; [by left|]. cbn [on_message snd] in *.
      case_bool_decide as Ht.
      - case_bool_decide as Hk; [|by right; left].
        exfalso. apply Hf. by exists m.
      - by right; right. }
    destruct Hm as [-> | [-> | ->]];
      destruct (receive AUTH_TOKEN frames new_connection) as [c2 e2];
      cbn [fst snd app] in *; (split; [done|]);
      repeat (apply Forall_cons; split; [by intros []|]); done. }
  split; [done|]. split; [done|]. by rewrite H1.
Qed.

Lemma pty_discipline_app cur es1 es2 :
  pty_discipline cur es1 ->
  pty_discipline (last_spawned cur es1) es2 ->
  pty_discipline cur (es1 ++ es2).
Proof.
  revert cur. induction es1 as [|e es1 IH]; intros cur H1 H2; [done|].
  destruct e; cbn [app pty_discipline last_spawned foldl] in *;
    try (by apply IH); try (destruct H1 as [? H1]; split; [done|by apply IH]).
  done.
Qed.

Lemma last_spawned_app cur es1 es2 :
  last_spawned cur (es1 ++ es2) = last_spawned (last_spawned cur es1) es2.
Proof. unfold last_spawned. by rewrite foldl_app. Qed.

Ltac close_inv :=
  cbn [fst snd spawned ptyProcess spawns omap list_omap last_spawned foldl
       pty_discipline app seq];
  rewrite ?Nat.sub_diag;
  repeat split; try done; try lia.

Lemma on_message_inv AUTH_TOKEN ok f c :
  ptyProcess c =
    (match spawned c with O => None | S n => Some n end) ->
  let c' := (on_message AUTH_TOKEN ok f c).1 in
  let es := (on_message AUTH_TOKEN ok f c).2 in
  ptyProcess c' = (match spawned c' with O => None | S n => Some n end) /\
  ptyProcess c' = last_spawned (ptyProcess c) es /\
  pty_discipline (ptyProcess c) es /\
  spawns es = seq (spawned c) (spawned c' - spawned c) /\
  (spawned c <= spawned c')%nat.
Proof.
  intros Hinv. destruct f as [|m]; cbn [on_message]; [close_inv|].
  destruct (bool_decide (msg_type m = Some "auth")).
  - destruct (bool_decide (msg_token m = Some AUTH_TOKEN)); [|close_inv].
    destruct ok; [|close_inv].
    cbn [fst snd spawned].
    replace (S (spawned c) - spawned c)%nat with 1%nat by lia.
    close_inv.
  - destruct (authenticated c); cbn [negb]; [|close_inv].
    destruct (bool_decide (msg_type m = Some "input")),
             (bool_decide (msg_type m = Some "resize")),
             (ptyProcess c) eqn:Ep; close_inv; congruence.
Qed.

Lemma receive_inv AUTH_TOKEN frames c :
  ptyProcess c =
    (match spawned c with O => None | S n => Some n end) ->
  let c' := (receive AUTH_TOKEN frames c).1 in
  let es := (receive AUTH_TOKEN frames c).2 in
  ptyProcess c' = (match spawned c' with O => None | S n => Some n end) /\
  ptyProcess c' = last_spawned (ptyProcess c) es /\
  pty_discipline (ptyProcess c) es /\
  spawns es = seq (spawned c) (spawned c' - spawned c) /\
  (spawned c <= spawned c')%nat.
Proof.
  revert c. induction frames as [|[ok f] frames IH]; intros c Hinv.
  { cbn [receive]. close_inv. }
  cbn [receive].
  destruct (on_message_inv AUTH_TOKEN ok f c Hinv)
    as (H1 & H2 & H3 & H4 & H5).
  destruct (on_message AUTH_TOKEN ok f c) as [c1 e1]. cbn [fst snd] in *.
  destruct (IH c1 H1) as (I1 & I2 & I3 & I4 & I5).
  destruct (receive AUTH_TOKEN frames c1) as [c2 e2]. cbn [fst snd] in *.
  split; [done|]. split; [by rewrite last_spawned_app, <- H2|].
  split; [apply pty_discipline_app; [done|by rewrite <- H2]|].
  split; [|lia].
  unfold spawns in *. rewrite omap_app, H4, I4.
  replace (spawned c2 - spawned c)%nat
    with ((spawned c1 - spawned c) + (spawned c2 - spawned c1))%nat by lia.
  rewrite seq_app. do 2 f_equal. lia.
Qed.

Lemma pty_discipline_no_kill cur es pty :
  pty_discipline cur es -> KillPty pty ∉ es.
Proof.
  revert cur. induction es as [|e es IH]; intros cur H Hin;
    [by apply elem_of_nil in Hin|].
  apply elem_of_cons in Hin as [<-|Hin]; [done|].
  destruct e; cbn [pty_discipline] in H;
    try (by apply (IH cur)); try (destruct H as [_ H]; by apply (IH cur)).
  by apply (IH (Some pty0)).
Qed.

(** X19. On a connection, a write or a resize always goes to the PTY
    spawned last before it, and the message handler never kills a PTY.
    The PTYs spawned are numbered in order; closing the connection
    kills the last one only, so a PTY spawned by an earlier
    authentication of the same connection is never killed. *)
Theorem terminal_pty_use AUTH_TOKEN frames :
  let c := (receive AUTH_TOKEN frames new_connection).1 in
  let es := (receive AUTH_TOKEN frames new_connection).2 in
  pty_discipline None es /\
  spawns es = seq 0 (spawned c) /\
  on_close c = (match spawned c with O => [] | S n => [KillPty n] end) /\
  (forall pty, KillPty pty ∈ es ++ on_close c -> S pty = spawned c).
Proof.
  intros c es.
  destruct (receive_inv AUTH_TOKEN frames new_connection eq_refl)
    as (H1 & H2 & H3 & H4 & H5).
  fold c es in H1, H2, H3, H4, H5. cbn [new_connection ptyProcess spawned] in *.
  rewrite Nat.sub_0_r in H4.
  assert (on_close c = match spawned c with O => [] | S n => [KillPty n] end)
    as Hclose.
  { unfold on_close. rewrite H1. by destruct (spawned c). }
  split; [done|]. split; [done|]. split; [done|].
  intros pty Hin. apply elem_of_app in Hin as [Hin|Hin].
  - exfalso. by eapply pty_discipline_no_kill.
  - rewrite Hclose in Hin. destruct (spawned c) as [|n];
      [by apply elem_of_nil in Hin|].
    apply list_elem_of_singleton in Hin. by injection Hin as ->.
Qed.

(** ** The OAuth token cache *)


(** ** The Hacker News adapter *)

Example strip_tags_paragraph :
  strip_tags false "<p>Claude <b>Code</b> is out</p> a < b <>" =
  "Claude Code is out a ".
Proof. reflexivity. Qed.

Example strip_tags_no_tag : strip_tags false "a <> b < c" = "a <> b < c".
Proof. reflexivity. Qed.






Lemma elem_of_concat {A} (x : A) (ls : list (list A)) :
  x ∈ concat ls <-> exists l, l ∈ ls /\ x ∈ l.
Proof.
  rewrite list_elem_of_In, in_concat. split; intros (l & H1 & H2); exists l.
  - by rewrite !list_elem_of_In.
  - by rewrite <- !list_elem_of_In.
Qed.

Lemma hn_hits_items hits item :
  item ∈ hn_hits hits ->
  exists hit created,
    hit ∈ hits /\ objectID hit <> "" /\ hit_created_at hit = ISO created /\
    item = hn_item hit created.
Proof.
  induction hits as [|hit rest IH]; [by intros ?%elem_of_nil|].
  cbn [hn_hits]. case_bool_decide as Hid.
  - intros Hin. destruct (IH Hin) as (h & t & Hh & Hrest).
    exists h, t. split; [by apply list_elem_of_further|done].
  - destruct (hit_created_at hit) as [created|] eqn:E;
      [|by intros ?%elem_of_nil].
    intros Hin. apply elem_of_cons in Hin as [->|Hin].
    + exists hit, created. split; [apply list_elem_of_here|done].
    + destruct (IH Hin) as (h & t & Hh & Hrest).
      exists h, t. split; [by apply list_elem_of_further|done].
Qed.


(** ** The adapters' ids *)

Lemma gh_items search item :
  item ∈ fetchGitHub search ->
  exists q repos repo,
    q ∈ GH_QUERIES /\ search q = Some repos /\ repo ∈ repos /\
    item = gh_item repo.
Proof.
  unfold fetchGitHub. intros Hin.
  apply elem_of_concat in Hin as (l & Hl & Hitem).
  apply list_elem_of_fmap in Hl as (q & -> & Hq).
  destruct (search q) as [repos|] eqn:E; [|by apply elem_of_nil in Hitem].
  apply list_elem_of_fmap in Hitem as (repo & -> & Hr).
  by exists q, repos, repo.
Qed.

Lemma devto_items listing item :
  item ∈ fetchDevTo listing ->
  exists tag arts art,
    tag ∈ DEVTO_TAGS /\ listing tag = Some arts /\ art ∈ arts /\
    devto_relevant tag art = true /\ item = devto_item art.
Proof.
  unfold fetchDevTo. intros Hin.
  apply elem_of_concat in Hin as (l & Hl & Hitem).
  apply list_elem_of_fmap in Hl as (tag & -> & Htag).
  destruct (listing tag) as [arts|] eqn:E; [|by apply elem_of_nil in Hitem].
  apply list_elem_of_fmap in Hitem as (art & -> & Ha).
  apply elem_of_filter_bool in Ha as [Ha Hrel].
  by exists tag, arts, art.
Qed.

Lemma hn_item_ids search item :
  item ∈ fetchHackerNews search ->
  exists x, Post.reddit_id item = "hn_" +:+ x.
Proof.
  unfold fetchHackerNews. intros Hin.
  apply elem_of_concat in Hin as (l & Hl & Hitem).
  apply list_elem_of_fmap in Hl as (q & -> & Hq).
  destruct (search q) as [hits|]; [|by apply elem_of_nil in Hitem].
  apply hn_hits_items in Hitem as (hit & created & _ & _ & _ & ->).
  by eexists.
Qed.

(** X22. The ids of the Hacker News, GitHub and Dev.to adapters and of
    the curated entries never collide: each adapter tags its ids with
    its own prefix ("hn_", "gh_", "devto_"), and no curated id starts
    like one of them.  So the deduplication of a cycle never drops an
    item of one of these sources because of an item of another. *)
Theorem tagged_ids_apart hn_search gh_search devto_listing now :
  let hn := fetchHackerNews hn_search in
  let gh := fetchGitHub gh_search in
  let devto := fetchDevTo devto_listing in
  let curated := getCuratedResources now in
  (forall a, a ∈ hn -> exists x, Post.reddit_id a = "hn_" +:+ x) /\
  (forall a, a ∈ gh -> exists x, Post.reddit_id a = "gh_" +:+ x) /\
  (forall a, a ∈ devto -> exists x, Post.reddit_id a = "devto_" +:+ x) /\
  (forall a b, a ∈ hn -> b ∈ gh -> Post.reddit_id a <> Post.reddit_id b) /\
  (forall a b, a ∈ hn -> b ∈ devto -> Post.reddit_id a <> Post.reddit_id b) /\
  (forall a b, a ∈ gh -> b ∈ devto -> Post.reddit_id a <> Post.reddit_id b) /\
  (forall a b, a ∈ curated -> b ∈ hn ++ gh ++ devto ->
     Post.reddit_id a <> Post.reddit_id b).
Proof.
  intros hn gh devto curated.
  assert (forall a, a ∈ hn -> exists x, Post.reddit_id a = "hn_" +:+ x) as Hh
    by apply hn_item_ids.
  assert (forall a, a ∈ gh -> exists x, Post.reddit_id a = "gh_" +:+ x) as Hg.
  { intros a Ha. apply gh_items in Ha as (_ & _ & repo & _ & _ & _ & ->).
    by eexists. }
  assert (forall a, a ∈ devto ->
            exists x, Post.reddit_id a = "devto_" +:+ x) as Hd.
  { intros a Ha. apply devto_items in Ha as (_ & _ & art & _ & _ & _ & _ & ->).
    by eexists. }
  repeat split; try done.
  - intros a b Ha Hb. destruct (Hh a Ha) as [x ->], (Hg b Hb) as [y ->]. done.
  - intros a b Ha Hb. destruct (Hh a Ha) as [x ->], (Hd b Hb) as [y ->]. done.
  - intros a b Ha Hb. destruct (Hg a Ha) as [x ->], (Hd b Hb) as [y ->]. done.
  - intros a b Ha Hb.
    assert (exists c x, Post.reddit_id b = String c x /\
                        (c = "h" \/ c = "g" \/ c = "d")%char) as (c & x & -> & Hc).
    { rewrite !elem_of_app in Hb. destruct Hb as [Hb|[Hb|Hb]].
      - destruct (Hh b Hb) as [x ->]. eexists _, _. split; [done|]. by left.
      - destruct (Hg b Hb) as [x ->]. eexists _, _. split; [done|].
        by right; left.
      - destruct (Hd b Hb) as [x ->]. eexists _, _. split; [done|].
        by right; right. }
    subst curated. unfold getCuratedResources in Ha.
    repeat (apply elem_of_cons in Ha as [->|Ha];
            [cbn; intros [= <- _]; by destruct Hc as [?|[?|?]]|]).
    by apply elem_of_nil in Ha.
Qed.

(** X23. Relevance on Dev.to: an article listed under the tag "claude"
    or "claudeai" is taken whatever its text; an article listed under
    one of the other four tags is taken exactly when its title and
    description, joined by a space, contain one of the keywords as a
    case-insensitive substring.  The result holds the items of the taken
    articles of the answered tags and nothing else. *)
Theorem devto_relevance listing :
  (forall art,
     devto_relevant "claude" art = true /\
     devto_relevant "claudeai" art = true) /\
  (forall tag art,
     tag ∈ [ "anthropic"; "aitools"; "llm"; "aiagents" ] ->
     devto_relevant tag art = true <->
     exists kw, kw ∈ ALL_KEYWORDS /\
       contains_ci (art_title art +:+ " " +:+ art_description art) kw) /\
  (forall item,
     item ∈ fetchDevTo listing <->
     exists tag arts art,
       tag ∈ DEVTO_TAGS /\ listing tag = Some arts /\ art ∈ arts /\
       devto_relevant tag art = true /\ item = devto_item art).
Proof.
  split; [|split].
  - intros art. unfold devto_relevant.
    split; apply orb_true_iff; left; apply bool_decide_eq_true;
      unfold DEDICATED_SUBS; rewrite elem_of_list_to_set; set_solver.
  - intros tag art Htag. unfold devto_relevant.
    rewrite !or_str_empty, orb_true_iff, existsb_exists.
    assert (bool_decide (tag ∈ DEDICATED_SUBS) = false) as ->.
    { apply bool_decide_eq_false. unfold DEDICATED_SUBS.
      rewrite elem_of_list_to_set.
      repeat (apply elem_of_cons in Htag as [->|Htag]);
        try (by apply elem_of_nil in Htag);
        intros H; repeat (apply elem_of_cons in H as [H|H]; [done|]);
        by apply elem_of_nil in H. }
    split.
    + intros [?|(kw & Hin & H)]; [done|].
      exists kw. rewrite <- includes_lower. split; [|done].
      by apply list_elem_of_In.
    + intros (kw & Hin & H). right. exists kw.
      rewrite includes_lower. split; [|done]. by apply list_elem_of_In.
  - intros item. split; [apply devto_items|].
    intros (tag & arts & art & Htag & Hl & Hart & Hrel & ->).
    unfold fetchDevTo. apply elem_of_concat.
    exists (devto_item <$> List.filter (devto_relevant tag) arts). split.
    + apply list_elem_of_fmap. exists tag. by rewrite Hl.
    + apply list_elem_of_fmap. exists art. split; [done|].
      by apply elem_of_filter_bool.
Qed.
(** ** The properties at sample inputs *)

Lemma upsert_batches_unique_ids_witness :
  NoDup (ids (posts empty_db)) /\
  NoDup (ids (posts (upsert_batches (take 2 two_batches) empty_db))).
Proof.
  split; [apply NoDup_nil_2|].
  apply (upsert_batches_unique_ids two_batches empty_db). apply NoDup_nil_2.
Defined.

Lemma upsertPosts_twice_witness :
  exists r,
    getPost "gh_42"
      (upsertPosts later_clock [gh_42 10; hn_7 3; gh_42 12]
         (upsertPosts sample_clock [gh_42 10; hn_7 3; gh_42 12] empty_db).2).2
      = Some r /\
    Row.fetched_at r = toISOString (new_Date (later_clock 2%nat)).
Proof.
  destruct (upsertPosts_twice sample_clock later_clock
              [gh_42 10; hn_7 3; gh_42 12] empty_db) as (_ & _ & H).
  apply (H 2%nat (gh_42 12)).
  - reflexivity.
  - intros j' p' Hlt Hj'. apply lookup_lt_Some in Hj'. cbn in Hj'. lia.
Defined.

Lemma upsert_existing_overwrites_witness :
  let old := (upsertPost (sample_clock 0%nat) (gh_42 10) empty_db).1 in
  let db := (upsertPost (sample_clock 0%nat) (gh_42 10) empty_db).2 in
  getPost "gh_42" db = Some old /\
  Row.id (upsertPost (later_clock 0%nat) (gh_42 12) db).1 = Row.id old /\
  Row.fetched_at (upsertPost (later_clock 0%nat) (gh_42 12) db).1
    = ISO 1700000300000.
Proof.
  intros old db.
  assert (getPost (Post.reddit_id (gh_42 12)) db = Some old) as H
    by (vm_compute; reflexivity).
  split; [exact H|].
  destruct (upsert_existing_overwrites (later_clock 0%nat) (gh_42 12) db old H)
    as (Hid & Hf & _).
  split; [exact Hid|exact Hf].
Defined.

Lemma retention_witness :
  let old := make_row "loyw3v294fzzzxjylrx" (sample_clock 1%nat) (hn_7 40) in
  let recent := (upsertPost (sample_clock 0%nat) (gh_42 10) empty_db).1 in
  fixed_offset utc_zone /\
  (old ∈ posts sample_db) /\
  (recent ∈ page_posts
              (getPosts utc_zone 1700000000000 Options.defaults sample_db)) /\
  (old ∉ page_posts
           (getPosts utc_zone 1700000000000 Options.defaults sample_db)) /\
  (old ∉ page_posts
           (getPosts new_york_zone 1700000000000 Options.defaults sample_db))
  /\
  (old ∉ posts (deleteOldPosts utc_zone 1700000000000 30 sample_db).2) /\
  ~ (recent ∉ posts (deleteOldPosts utc_zone 1700000000000 30 sample_db).2) /\
  0 < (deleteOldPosts utc_zone 1700000000000 30 sample_db).1 /\
  readJson (disk (deleteOldPosts utc_zone 1700000000000 30 sample_db).2)
    (dbPath (deleteOldPosts utc_zone 1700000000000 30 sample_db).2)
    = Some (posts (deleteOldPosts utc_zone 1700000000000 30 sample_db).2).
Proof.
  intros old recent.
  assert (fixed_offset utc_zone) as Hfix by (exists 0; reflexivity).
  assert (old ∈ posts sample_db) as Hin
    by (vm_compute; apply list_elem_of_further, list_elem_of_here).
  assert (recent ∈ posts sample_db) as Hrec
    by (vm_compute; apply list_elem_of_here).
  destruct (retention utc_zone 1700000000000) as (_ & _ & Hu & Hd).
  destruct (Hu Hfix) as [Hq Hdel].
  destruct (retention new_york_zone 1700000000000) as (Hny & _).
  split; [exact Hfix|]. split; [exact Hin|].
  split; [vm_compute; apply list_elem_of_further, list_elem_of_here|].
  split; [|split; [|split; [|split]]].
  - apply (Hq Options.defaults sample_db old (1700000000000 - 40 * msPerDay)).
    + reflexivity.
    + vm_compute. reflexivity.
  - apply (Hny Options.defaults sample_db old
             (1700000000000 - 40 * msPerDay)).
    + reflexivity.
    + vm_compute. reflexivity.
  - apply (Hdel 30 sample_db old (1700000000000 - 40 * msPerDay) Hin).
    + reflexivity.
    + vm_compute. reflexivity.
  - intros Hn.
    apply (Hdel 30 sample_db recent (1700000000000 - 2 * msPerDay) Hrec)
      in Hn; [|reflexivity].
    vm_compute in Hn. discriminate Hn.
  - destruct (Hd 30 sample_db) as (_ & _ & _ & _ & _ & Hsave & _).
    assert (0 < (deleteOldPosts utc_zone 1700000000000 30 sample_db).1)
      as Hpos by (vm_compute; reflexivity).
    split; [exact Hpos|].
    destruct (Hsave Hpos) as [_ Hfile]. apply Hfile.
    apply (bool_decide_unpack _). vm_compute. exact I.
Defined.

Lemma pagination_correct_witness :
  0 < Options.limit page_of_two /\
  exists k,
    totalPages (pagination (getPosts utc_zone 1700000000000 page_of_two sample_db))
      = Num k /\
    (k - 1) * 2 < 3 <= k * 2.
Proof.
  split; [reflexivity|].
  destruct (pagination_correct utc_zone 1700000000000 page_of_two sample_db)
    as (_ & _ & _ & _ & H).
  destruct (H ltac:(reflexivity)) as (k & Hk & Hb & _).
  exists k. split; [exact Hk|exact Hb].
Defined.

Lemma restore_correct_witness :
  restore "backups/missing.json" sample_db = (false, sample_db) /\
  posts (restore "backups/posts-backup-2023-11-14.json" db_with_snapshot).2
    = snapshot.
Proof.
  split.
  - apply (restore_correct "backups/missing.json" sample_db).
    vm_compute. reflexivity.
  - apply (restore_correct "backups/posts-backup-2023-11-14.json"
             db_with_snapshot).
    vm_compute. reflexivity.
Defined.

Lemma relevance_filter_witness :
  1700000000000 - 30 * 24 * 60 * 60 * 1000
    <= Child.created_utc on_topic * 1000 /\
  dedicated "ClaudeAI" /\
  ~ dedicated "OpenAI" /\
  contains_ci (Child.title on_topic) "claude code" /\
  keepPost 1700000000000 "ClaudeAI" off_topic = true /\
  keepPost 1700000000000 "OpenAI" on_topic = true /\
  (exists kw, kw ∈ ALL_KEYWORDS /\
     (contains_ci (Child.title on_topic) kw \/
      contains_ci (Child.selftext on_topic) kw)) /\
  ~ (exists kw, kw ∈ ALL_KEYWORDS /\
       (contains_ci (Child.title off_topic) kw \/
        contains_ci (Child.selftext off_topic) kw)).
Proof.
  assert (1700000000000 - 30 * 24 * 60 * 60 * 1000
          <= Child.created_utc on_topic * 1000) as Hon
    by (vm_compute; discriminate).
  assert (1700000000000 - 30 * 24 * 60 * 60 * 1000
          <= Child.created_utc off_topic * 1000) as Hoff
    by (vm_compute; discriminate).
  assert (dedicated "ClaudeAI") as Hd.
  { exists "claudeai". split.
    - apply (bool_decide_unpack _). vm_compute. exact I.
    - apply (bool_decide_unpack _). vm_compute. exact I. }
  assert (~ dedicated "OpenAI") as Hnd.
  { intros (name & Hin & Heq).
    repeat (apply elem_of_cons in Hin as [->|Hin];
            [revert Heq; apply (bool_decide_unpack _); vm_compute; exact I|]).
    by apply elem_of_nil in Hin. }
  assert (contains_ci (Child.title on_topic) "claude code") as Hc.
  { exists "Tried ", "CLAUDE Code", " on a legacy repo". split; [reflexivity|].
    apply (bool_decide_unpack _). vm_compute. exact I. }
  split; [exact Hon|]. split; [exact Hd|]. split; [exact Hnd|].
  split; [exact Hc|]. split; [|split; [|split]].
  - destruct (relevance_filter 1700000000000 "ClaudeAI" off_topic Hoff)
      as (H & _). exact (H Hd).
  - destruct (relevance_filter 1700000000000 "OpenAI" on_topic Hon)
      as (_ & H & _). apply (H Hnd). exists "claude code". split.
    + apply (bool_decide_unpack _). vm_compute. exact I.
    + left. exact Hc.
  - destruct (relevance_filter 1700000000000 "OpenAI" on_topic Hon)
      as (_ & H & _). apply (H Hnd). vm_compute. reflexivity.
  - destruct (relevance_filter 1700000000000 "OpenAI" off_topic Hoff)
      as (_ & H & _). intros Hkw. apply (H Hnd) in Hkw.
    vm_compute in Hkw. discriminate Hkw.
Defined.

Lemma retry_backoff_witness :
  fetchSubredditPosts all_fail "OpenAI" 3 =
  ([], [Request 1; Wait (3 ^ 1 * 1000); Request 2; Wait (3 ^ 2 * 1000);
        Request 3]).
Proof. apply (retry_backoff all_fail "OpenAI"); reflexivity. Defined.

Lemma cycle_result_witness :
  (store_cycle sample_clock [gh_42 10] no_sources empty_db).1
    = dedupe ∅ [gh_42 10].
Proof.
  destruct (cycle_result sample_clock [gh_42 10] no_sources empty_db)
    as (_ & _ & _ & _ & _ & _ & H & _).
  apply H; [reflexivity..|apply Forall_nil_2].
Defined.

Lemma load_save_witness :
  (dbPath sample_db ∉ locked (disk sample_db)) /\
  posts (load (save sample_db)) = posts sample_db.
Proof.
  assert (dbPath sample_db ∉ locked (disk sample_db)) as H
    by (apply (bool_decide_unpack _); vm_compute; exact I).
  split; [exact H|].
  destruct (load_save sample_db H) as [_ H2]. exact H2.
Defined.

Lemma open_database_cases_witness :
  files empty_fs !! "data/posts.json" = None /\
  open_database false "data/posts.json" empty_fs = None /\
  exists db,
    open_database true "data/posts.json" empty_fs = Some db /\
    posts db = [] /\
    readJson (disk db) "data/posts.json" = Some [].
Proof.
  assert (files empty_fs !! "data/posts.json" = None) as Hn
    by exact (lookup_empty _).
  destruct (open_database_cases "data/posts.json" empty_fs)
    as (Hf & db & Hdb & _ & H & _).
  destruct (H Hn) as (Hp & Hw & _).
  split; [exact Hn|]. split; [exact Hf|].
  exists db. split; [exact Hdb|]. split; [exact Hp|].
  apply Hw. apply not_elem_of_empty.
Defined.

Lemma upsertPosts_persists_witness :
  let db' := (upsertPosts sample_clock [gh_42 10] empty_db).2 in
  readJson (disk db') (dbPath db') = Some (posts db').
Proof.
  intros db'.
  pose proof (upsertPosts_persists sample_clock [gh_42 10] empty_db) as H.
  cbv zeta in H. destruct H as (H & _ & _).
  destruct H as [H _]; [discriminate|apply not_elem_of_empty|exact H].
Defined.

Lemma reopen_after_batch_witness :
  let db' := (upsertPosts sample_clock [gh_42 10] empty_db).2 in
  posts <$> open_database true (dbPath empty_db) (disk db')
  = Some (posts db').
Proof.
  intros db'.
  destruct (reopen_after_batch sample_clock [gh_42 10] empty_db) as [_ H];
    [discriminate|apply not_elem_of_empty|].
  exact (H true).
Defined.

Lemma getPost_upsertPost_witness :
  getPost "hn_7" (upsertPost (later_clock 0%nat) (gh_42 12) sample_db).2
    = getPost "hn_7" sample_db.
Proof.
  destruct (getPost_upsertPost (later_clock 0%nat) (gh_42 12) sample_db)
    as (_ & H & _).
  apply (H "hn_7"). discriminate.
Defined.

Lemma getPosts_filters_witness :
  let kept := (upsertPost (sample_clock 1%nat) (hn_7 40) empty_db).1 in
  let other := (upsertPost (sample_clock 0%nat) (gh_42 10) empty_db).1 in
  fixed_offset utc_zone /\
  (kept ∈ posts sample_db) /\ (other ∈ posts sample_db) /\
  (kept ∈ filtered_posts utc_zone 1700000000000 claude_stories sample_db) /\
  (other ∉ filtered_posts utc_zone 1700000000000 claude_stories sample_db) /\
  (exists t, Row.created_at kept = ISO t /\
             1700000000000 - 60 * 24 * 60 * 60 * 1000 <= t) /\
  (forall r,
     r ∈ filtered_posts utc_zone 1700000000000 claude_stories sample_db ->
     contains_ci (Row.subreddit r) "hacker").
Proof.
  intros kept other.
  assert (fixed_offset utc_zone) as Hfix by (exists 0; reflexivity).
  assert (kept ∈ posts sample_db) as Hk
    by (vm_compute; apply list_elem_of_further, list_elem_of_here).
  assert (other ∈ posts sample_db) as Ho
    by (vm_compute; apply list_elem_of_here).
  destruct (getPosts_filters utc_zone 1700000000000 claude_stories sample_db)
    as (H & Hwin & _).
  assert (kept ∈ filtered_posts utc_zone 1700000000000 claude_stories
                   sample_db) as Hkept.
  { apply (H kept). split; [exact Hk|]. split; [|split; [|split]].
    - exists (1700000000000 - 40 * msPerDay). split; [reflexivity|].
      vm_compute. discriminate.
    - intros _. vm_compute. discriminate.
    - intros _. exists "", "Hacker", "News". split; [reflexivity|].
      apply (bool_decide_unpack _). vm_compute. exact I.
    - intros _. left. exists "[HN] ", "Claude Code", " in practice".
      split; [reflexivity|].
      apply (bool_decide_unpack _). vm_compute. exact I. }
  split; [exact Hfix|]. split; [exact Hk|]. split; [exact Ho|].
  split; [exact Hkept|]. split; [|split].
  - intros Hin. apply (H other) in Hin as (_ & _ & Hu & _).
    assert (0 < Options.minUpvotes claude_stories) as Hpos by reflexivity.
    apply Hu in Hpos. vm_compute in Hpos. apply Hpos. reflexivity.
  - exact (Hwin Hfix kept Hkept).
  - intros r Hr. apply (H r) in Hr as (_ & _ & _ & Hs & _).
    apply Hs. discriminate.
Defined.

Lemma getPosts_sorted_witness :
  Options.sortOrder page_of_two = "desc" /\
  StronglySorted
    (fun a b => sort_key (Options.sortBy page_of_two) b
                <= sort_key (Options.sortBy page_of_two) a)
    (page_posts (getPosts utc_zone 1700000000000 page_of_two sample_db)).
Proof.
  split; [reflexivity|].
  pose proof (getPosts_sorted utc_zone 1700000000000 page_of_two sample_db) as H.
  cbv zeta in H. destruct H as (H & _). apply H. reflexivity.
Defined.

Lemma getPosts_pages_witness :
  0 < Options.limit page_of_two /\
  exists k : nat,
    concat ((fun i => page_posts
                        (getPosts utc_zone 1700000000000
                           (with_page page_of_two (Z.of_nat (S i)))
                           sample_db))
            <$> seq 0 k)
    = filtered_posts utc_zone 1700000000000 page_of_two sample_db.
Proof.
  split; [reflexivity|].
  destruct (getPosts_pages utc_zone 1700000000000 page_of_two sample_db
              ltac:(reflexivity)) as (k & _ & _ & _ & H).
  exists k. exact H.
Defined.

Lemma getPosts_after_deleteOldPosts_witness :
  cutoffDate utc_zone 1700000000000 30
    <= cutoffDate utc_zone 1700000300000 (Options.daysBack Options.defaults) /\
  getPosts utc_zone 1700000300000 Options.defaults
    (deleteOldPosts utc_zone 1700000000000 30 sample_db).2
  = getPosts utc_zone 1700000300000 Options.defaults sample_db.
Proof.
  assert (cutoffDate utc_zone 1700000000000 30
          <= cutoffDate utc_zone 1700000300000 (Options.daysBack Options.defaults))
    as H by (vm_compute; discriminate).
  split; [exact H|].
  apply (getPosts_after_deleteOldPosts utc_zone 1700000000000 30 1700000300000
           Options.defaults sample_db H).
Defined.

Lemma deleteOldPosts_again_witness :
  cutoffDate utc_zone 1700000300000 30 <= cutoffDate utc_zone 1700000000000 20 /\
  let db1 := (deleteOldPosts utc_zone 1700000000000 20 sample_db).2 in
  deleteOldPosts utc_zone 1700000300000 30 db1 = (0, db1).
Proof.
  assert (cutoffDate utc_zone 1700000300000 30 <= cutoffDate utc_zone 1700000000000 20)
    as H by (vm_compute; discriminate).
  split; [exact H|].
  apply (deleteOldPosts_again utc_zone 1700000000000 20 1700000300000 30 sample_db H).
Defined.

Lemma getStats_counts_witness :
  exists st,
    getStats 100000 1700000000000 sample_db = Some st /\
    totalPosts st = Z.of_nat (length (posts sample_db)) /\
    postsLast24h st <= postsLastWeek st.
Proof.
  destruct (getStats_counts 100000 1700000000000 sample_db) as [Hs H].
  destruct (proj2 Hs) as [st Hst]; [right; vm_compute; discriminate|].
  exists st. split; [exact Hst|].
  destruct (H st Hst) as (Ht & _ & _ & Hle & _).
  split; [exact Ht|apply Hle].
Defined.

Lemma getStats_subredditCounts_witness :
  Z.of_nat (length (posts sample_db)) <= 100000 /\
  Forall (fun r => Row.subreddit r ∉ inherited_names) (posts sample_db) /\
  exists st,
    getStats 100000 1700000000000 sample_db = Some st /\
    sum_counts (subredditCounts st) = totalPosts st.
Proof.
  assert (Z.of_nat (length (posts sample_db)) <= 100000) as HA
    by (vm_compute; discriminate).
  assert (Forall (fun r => Row.subreddit r ∉ inherited_names)
            (posts sample_db)) as H
    by (apply (bool_decide_unpack _); vm_compute; exact I).
  split; [exact HA|]. split; [exact H|].
  destruct (getStats_subredditCounts 100000 1700000000000 sample_db HA H)
    as (st & Hst & _ & Hsum).
  exists st. split; [exact Hst|exact Hsum].
Defined.

Lemma getStats_lastUpdated_witness :
  posts sample_db <> [] /\
  getStats 2 1700000000000 sample_db = None /\
  exists st m,
    getStats 100000 1700000000000 sample_db = Some st /\
    lastUpdated st = Some (MaxNum m) /\
    exists r, r ∈ posts sample_db /\ Row.fetched_at r = ISO m.
Proof.
  assert (posts sample_db <> []) as H by (vm_compute; discriminate).
  split; [exact H|].
  destruct (getStats_lastUpdated 2 1700000000000 sample_db H) as [Hthrow _].
  destruct (getStats_lastUpdated 100000 1700000000000 sample_db H)
    as [_ Hret].
  split; [apply Hthrow; vm_compute; reflexivity|].
  destruct Hret as (st & Hst & Hdates & _); [vm_compute; discriminate|].
  destruct Hdates as (m & Hm & Hr & _).
  - apply (bool_decide_unpack _). vm_compute. exact I.
  - exists st, m. split; [exact Hst|]. split; [exact Hm|exact Hr].
Defined.

Lemma fetch_course_witness :
  1 <= 3 /\
  exists n : nat,
    1 <= Z.of_nat n <= 3 /\
    (fetchSubredditPosts second_try "OpenAI" 3).2 = backoff_trace 1 n.
Proof.
  split; [lia|].
  destruct (fetch_course second_try "OpenAI" 3) as (_ & H & _).
  destruct (H ltac:(lia)) as (n & Hn & _ & Ht & _).
  exists n. split; [exact Hn|exact Ht].
Defined.

Lemma fetched_items_witness :
  toItem on_topic ∈ (fetchSubredditPosts second_try "OpenAI" 3).1 /\
  exists a listing post,
    1 <= a <= 3 /\ response second_try a = Some listing /\ post ∈ listing /\
    Post.reddit_id (toItem on_topic) = Child.id post.
Proof.
  assert (toItem on_topic ∈ (fetchSubredditPosts second_try "OpenAI" 3).1)
    as H by (vm_compute; apply list_elem_of_here).
  split; [exact H|].
  destruct (fetched_items second_try "OpenAI" 3 (toItem on_topic) H)
    as (a & listing & post & Ha & Hr & Hp & Hid & _).
  exists a, listing, post. repeat split; try assumption; apply Ha.
Defined.

Lemma cycle_items_stored_witness :
  (store_cycle sample_clock [gh_42 10] no_sources empty_db).1 !! 0%nat
    = Some (gh_42 10) /\
  exists row,
    getPost (Post.reddit_id (gh_42 10))
      (store_cycle sample_clock [gh_42 10] no_sources empty_db).2 = Some row /\
    Row.fetched_at row = toISOString (new_Date (sample_clock 0%nat)).
Proof.
  assert ((store_cycle sample_clock [gh_42 10] no_sources empty_db).1 !! 0%nat
          = Some (gh_42 10)) as H by (vm_compute; reflexivity).
  split; [exact H|].
  destruct (cycle_items_stored sample_clock [gh_42 10] no_sources empty_db
              0%nat (gh_42 10) H) as (row & Hg & _ & _ & _ & Hf & _).
  exists row. split; [exact Hg|exact Hf].
Defined.

Lemma upsertPosts_new_ids_witness :
  NoDup (Post.reddit_id <$> [gh_42 10; hn_7 3]) /\
  ids (posts (upsertPosts sample_clock [gh_42 10; hn_7 3] empty_db).2)
    = Post.reddit_id <$> [gh_42 10; hn_7 3].
Proof.
  assert (NoDup (Post.reddit_id <$> [gh_42 10; hn_7 3])) as H
    by (apply (bool_decide_unpack _); vm_compute; exact I).
  split; [exact H|].
  pose proof (upsertPosts_new_ids sample_clock [gh_42 10; hn_7 3] empty_db H)
    as H2.
  cbv zeta in H2. destruct H2 as (_ & H2 & _). apply H2. reflexivity.
Defined.

Lemma no_terminal_before_auth_witness :
  Forall (fun f => ~ authenticates "secret" f.2) strangers /\
  Forall (fun e => ~ touches_pty e)
    (receive "secret" strangers new_connection).2.
Proof.
  assert (Forall (fun f => ~ authenticates "secret" f.2) strangers) as H.
  { unfold strangers. repeat (apply Forall_cons; split);
      [..|apply Forall_nil_2];
      intros (m & Hm & Ht & Hk); cbn in Hm;
      first [discriminate Hm
            |injection Hm as <-; cbn in Ht, Hk;
             first [discriminate Ht|discriminate Hk]]. }
  split; [exact H|].
  destruct (no_terminal_before_auth "secret" strangers H) as (_ & H2 & _).
  exact H2.
Defined.

Lemma terminal_pty_use_witness :
  KillPty 0 ∈ (receive "secret" session new_connection).2
               ++ on_close (receive "secret" session new_connection).1 /\
  1%nat = spawned (receive "secret" session new_connection).1.
Proof.
  assert (KillPty 0 ∈ (receive "secret" session new_connection).2
                      ++ on_close (receive "secret" session new_connection).1)
    as H by (apply (bool_decide_unpack _); vm_compute; exact I).
  split; [exact H|].
  pose proof (terminal_pty_use "secret" session) as H2.
  cbv zeta in H2. destruct H2 as (_ & _ & _ & H2). apply (H2 0%nat H).
Defined.



Lemma tagged_ids_apart_witness :
  hn_item sample_hit 1699900000000 ∈ fetchHackerNews sample_hn /\
  gh_item sample_repo ∈ fetchGitHub sample_gh /\
  Post.reddit_id (hn_item sample_hit 1699900000000)
    <> Post.reddit_id (gh_item sample_repo).
Proof.
  assert (hn_item sample_hit 1699900000000 ∈ fetchHackerNews sample_hn) as Ha
    by (vm_compute; apply list_elem_of_here).
  assert (gh_item sample_repo ∈ fetchGitHub sample_gh) as Hb
    by (vm_compute; apply list_elem_of_here).
  split; [exact Ha|]. split; [exact Hb|].
  pose proof (tagged_ids_apart sample_hn sample_gh (fun _ => None)
                sample_now) as H.
  cbv zeta in H. destruct H as (_ & _ & _ & H & _).
  apply (H _ _ Ha Hb).
Defined.

Lemma devto_relevance_witness :
  "llm" ∈ [ "anthropic"; "aitools"; "llm"; "aiagents" ] /\
  contains_ci (art_title sample_article +:+ " "
               +:+ art_description sample_article) "claude code" /\
  devto_relevant "llm" sample_article = true /\
  (exists kw, kw ∈ ALL_KEYWORDS /\
     contains_ci (art_title sample_article +:+ " "
                  +:+ art_description sample_article) kw) /\
  devto_item sample_article ∈ fetchDevTo sample_devto.
Proof.
  assert ("llm" ∈ [ "anthropic"; "aitools"; "llm"; "aiagents" ]) as H
    by (apply (bool_decide_unpack _); vm_compute; exact I).
  assert (contains_ci (art_title sample_article +:+ " "
                       +:+ art_description sample_article) "claude code")
    as Hc.
  { exists "Shipping faster with ", "Claude Code", " review in the terminal".
    split; [reflexivity|].
    apply (bool_decide_unpack _). vm_compute. exact I. }
  destruct (devto_relevance sample_devto) as (_ & H2 & H3).
  assert (devto_relevant "llm" sample_article = true) as Hrel.
  { apply (H2 "llm" sample_article H). exists "claude code". split.
    - apply (bool_decide_unpack _). vm_compute. exact I.
    - exact Hc. }
  split; [exact H|]. split; [exact Hc|]. split; [exact Hrel|]. split.
  - apply (H2 "llm" sample_article H). vm_compute. reflexivity.
  - apply (H3 (devto_item sample_article)).
    exists "llm", [sample_article], sample_article.
    split; [apply (bool_decide_unpack _); vm_compute; exact I|].
    split; [reflexivity|]. split; [apply list_elem_of_here|].
    split; [exact Hrel|reflexivity].
Defined.

Lemma every_cycle_writes_witness :
  (forall sub a, response ((fun _ : string => all_fail) sub) a = None) /\
  (fetchAllPosts sample_now sample_clock (fun _ => all_fail) [] [] [] []
     sample_db).1 = getCuratedResources sample_now /\
  posts (fetchAllPosts sample_now sample_clock (fun _ => all_fail)
           [] [] [] [] sample_db).2
    = puts (paired sample_clock (getCuratedResources sample_now))
        (posts sample_db).
Proof.
  assert (forall sub a, response ((fun _ : string => all_fail) sub) a = None)
    as Hfail by (intros sub a; reflexivity).
  split; [exact Hfail|].
  pose proof (every_cycle_writes sample_now sample_clock (fun _ => all_fail)
                [] [] [] [] sample_db) as H.
  cbv zeta in H. destruct H as (_ & _ & _ & _ & _ & _ & H).
  apply H; [reflexivity..|exact Hfail].
Defined.

(** ** Where the code departs from the sentences of the specification *)

(** C8: the third failure is not followed by a wait of 3^3 seconds; the
    trace ends with the third request. *)
Lemma no_wait_after_last_failure :
  response all_fail 3 = None /\
  (fetchSubredditPosts all_fail "OpenAI" 3).2 =
    [Request 1; Wait 3000; Request 2; Wait 9000; Request 3] /\
  Wait (3 ^ 3 * 1000) ∉ (fetchSubredditPosts all_fail "OpenAI" 3).2.
Proof.
  split; [reflexivity|]. split; [reflexivity|].
  apply (bool_decide_unpack _). vm_compute. exact I.
Defined.

(** C4: with every adapter failing, the cycle returns the eight curated
    entries, not an empty result. *)
Lemma all_adapters_fail_result_not_empty :
  (fetchAllPosts sample_now sample_clock (fun _ => all_fail) [] [] [] []
     empty_db).1 <> [] /\
  length (fetchAllPosts sample_now sample_clock (fun _ => all_fail)
            [] [] [] [] empty_db).1 = 8%nat.
Proof. split; [vm_compute; discriminate|vm_compute; reflexivity]. Defined.

(** With every adapter failing the cycle still writes to the store: the
    eight curated entries are added to an empty collection and to the
    backing file. *)
Lemma all_adapters_fail_still_writes :
  let db' :=
    (fetchAllPosts sample_now sample_clock (fun _ => all_fail) [] [] [] []
       empty_db).2 in
  length (posts empty_db) = 0%nat /\
  length (posts db') = 8%nat /\
  readJson (disk empty_db) (dbPath empty_db) = None /\
  readJson (disk db') (dbPath db') = Some (posts db').
Proof. vm_compute. repeat split; reflexivity. Defined.
